(** * FlashFloppy Gotek display driver: src/gotek/lcd.c

    A shallow embedding of the HD44780 (PCF8574 backpack) / SSD1306 display
    driver.  Integers of the C code are [Z] with the truncations of the C
    types written out ([u8] for [uint8_t]); the byte buffer and the text
    grid are lists updated by index; the peripherals are a register file,
    an event log of the calls made to the hardware-abstraction layer, and
    input streams for everything the hardware decides (status-register
    reads, pin levels, the SysTick counter, pending interrupts).  Code that
    touches the hardware lives in a small state monad whose failure modes
    are a busy-wait loop that exhausts its iteration budget and a tripped
    ASSERT(). *)

From Stdlib Require Import ZArith List String Ascii Lia Bool.
From stdpp Require Import base decidable numbers strings list functions.
Import ListNotations.
Local Open Scope Z_scope.

(** ** Constants of lcd.c *)

(* PCF8574 pin assignment: D7-D6-D5-D4-BL-EN-RW-RS *)
Definition _D7 : Z := Z.shiftl 1 7.
Definition _D6 : Z := Z.shiftl 1 6.
Definition _D5 : Z := Z.shiftl 1 5.
Definition _D4 : Z := Z.shiftl 1 4.
Definition _BL : Z := Z.shiftl 1 3.
Definition _EN : Z := Z.shiftl 1 2.
Definition _RW : Z := Z.shiftl 1 1.
Definition _RS : Z := Z.shiftl 1 0.

(* HD44780 commands *)
Definition CMD_ENTRYMODE    : Z := 0x04.
Definition CMD_DISPLAYCTL   : Z := 0x08.
Definition CMD_DISPLAYSHIFT : Z := 0x10.
Definition CMD_FUNCTIONSET  : Z := 0x20.
Definition CMD_SETCGRADDR   : Z := 0x40.
Definition CMD_SETDDRADDR   : Z := 0x80.
Definition FS_2LINE         : Z := 0x08.

(* STM32 I2C peripheral pins and interrupt lines. *)
Definition SCL : Z := 10.
Definition SDA : Z := 11.
Definition I2C_ERROR_IRQ : Z := 34.
Definition I2C_EVENT_IRQ : Z := 33.
Definition DMA1_CH4_IRQ  : Z := 14.

Definition OLED_ADDR : Z := 0x3c.

(* sizeof(buffer): uint32_t buffer[256/4] *)
Definition sizeof_buffer : Z := 256.

(** Truncation to [uint8_t]. *)
Definition u8 (x : Z) : Z := x mod 256.

(** ** Hardware vocabulary *)

(** Memory-mapped registers the driver touches. *)
Inductive reg : Type :=
| I2C_SR1 | I2C_SR2 | I2C_CR1 | I2C_CR2 | I2C_CCR | I2C_TRISE | I2C_DR
| DMA1_CH4_CCR | DMA1_CH4_CNDTR | DMA1_CH4_CMAR | DMA1_CH4_CPAR | DMA1_IFCR
| RCC_APB1ENR.

#[global] Instance reg_eq_dec : EqDecision reg.
Proof. solve_decision. Defined.

(** Pin configurations used by lcd_init ([pin_reset] is the state before
    the driver first configures a pin). *)
Inductive pin_mode : Type :=
| pin_reset
| GPO_opendrain_2MHz_HIGH
| GPI_pull_down
| GPI_pull_up
| AFO_opendrain_2MHz.

#[global] Instance pin_mode_eq_dec : EqDecision pin_mode.
Proof. solve_decision. Defined.

(** Calls into the hardware-abstraction layer and register stores, in the
    order the driver makes them. *)
Inductive printk_arg : Type :=
| arg_int (n : Z)
| arg_str (s : string).

#[global] Instance printk_arg_eq_dec : EqDecision printk_arg.
Proof. solve_decision. Defined.

Inductive event : Type :=
| Ev_printk (fmt : string) (args : list printk_arg)
| Ev_reg_write (r : reg) (v : Z)
| Ev_reg_read (r : reg)
| Ev_gpio_configure_pin (pin : Z) (m : pin_mode)
| Ev_gpio_write_pin (pin : Z) (level : bool)
| Ev_delay_us (us : Z)
| Ev_IRQx_set_prio (irq pri : Z)
| Ev_IRQx_clear_pending (irq : Z)
| Ev_IRQx_set_pending (irq : Z)
| Ev_IRQx_enable (irq : Z)
| Ev_IRQx_disable (irq : Z)
| Ev_IRQ_save (pri : Z)
| Ev_IRQ_restore
| Ev_timer_init
| Ev_timer_set (deadline : Z)
| Ev_timer_cancel
| Ev_cpu_relax.

#[global] Instance event_eq_dec : EqDecision event.
Proof. solve_decision. Defined.

(** Constants, macros and tables that lcd.c takes from headers and data
    files outside the translated source: the bit assignments of the I2C,
    DMA and RCC registers, the SysTick time macros, the interrupt priority,
    the build-time font selection and the two glyph tables, and the
    addresses the DMA channel is pointed at. *)
Class hal : Type := {
  I2C_SR1_SB : Z;
  I2C_SR1_ADDR : Z;
  I2C_SR1_BTF : Z;
  I2C_SR1_ERRORS : Z;
  I2C_CR1_PE : Z;
  I2C_CR1_START : Z;
  I2C_CR1_STOP : Z;
  I2C_CR1_SWRST : Z;
  I2C_CR2_ITERREN : Z;
  I2C_CR2_ITEVTEN : Z;
  I2C_CR2_DMAEN : Z;
  I2C_CR2_FREQ : Z -> Z;
  I2C_CCR_FS : Z;
  I2C_CCR_CCR : Z -> Z;
  DMA_CCR_MSIZE_8BIT : Z;
  DMA_CCR_PSIZE_16BIT : Z;
  DMA_CCR_MINC : Z;
  DMA_CCR_DIR_M2P : Z;
  DMA_CCR_TCIE : Z;
  DMA_CCR_EN : Z;
  DMA_IFCR_CGIF : Z -> Z;
  RCC_APB1ENR_I2C2EN : Z;
  I2C_IRQ_PRI : Z;
  stk_ms : Z -> Z;
  stk_diff : Z -> Z -> Z;
  stk_add : Z -> Z -> Z;
  font_7x16 : bool;
  oled_font_7x16 : Z -> Z;
  oled_font_8x16 : Z -> Z;
  addr_of_buffer : Z;
  addr_of_i2c_dr : Z
}.

(** What the hardware decides: the value of the k-th read of I2C SR1, of
    the k-th read of the SysTick counter, the level of the k-th pin read,
    whether CR1.STOP is still set at its k-th poll, and how many
    DMA-completion interrupts are served before the k-th poll of
    refresh_count in lcd_sync.  [spin_limit] bounds the iterations of
    every busy-wait loop of the model. *)
Class world : Type := {
  sr1_in : nat -> Z;
  now_in : nat -> Z;
  pin_in : nat -> bool;
  stop_in : nat -> bool;
  irq_in : nat -> nat;
  spin_limit : nat
}.

(** ** Driver and peripheral state *)

Record state : Type := mkState {
  (* statics of lcd.c *)
  _bl : Z;
  i2c_addr : Z;
  i2c_dead : bool;
  refresh_count : Z;
  buffer : list Z;          (* 256 bytes, seen as uint8_t[] *)
  text : list Z;            (* char text[2][16], row-major *)
  oled_row : Z;
  timeout_timer : option Z; (* pending deadline, if armed *)
  (* peripherals *)
  regs : reg -> Z;
  irq_en : Z -> bool;
  pin_cfg : Z -> pin_mode;
  log : list event;         (* newest first *)
  (* positions in the input streams *)
  n_sr1 : nat;
  n_now : nat;
  n_pin : nat;
  n_stop : nat;
  n_irq : nat
}.

Definition set__bl v s := mkState v (i2c_addr s) (i2c_dead s) (refresh_count s) (buffer s) (text s) (oled_row s) (timeout_timer s) (regs s) (irq_en s) (pin_cfg s) (log s) (n_sr1 s) (n_now s) (n_pin s) (n_stop s) (n_irq s).
Definition set_i2c_addr v s := mkState (_bl s) v (i2c_dead s) (refresh_count s) (buffer s) (text s) (oled_row s) (timeout_timer s) (regs s) (irq_en s) (pin_cfg s) (log s) (n_sr1 s) (n_now s) (n_pin s) (n_stop s) (n_irq s).
Definition set_i2c_dead v s := mkState (_bl s) (i2c_addr s) v (refresh_count s) (buffer s) (text s) (oled_row s) (timeout_timer s) (regs s) (irq_en s) (pin_cfg s) (log s) (n_sr1 s) (n_now s) (n_pin s) (n_stop s) (n_irq s).
Definition set_refresh_count v s := mkState (_bl s) (i2c_addr s) (i2c_dead s) v (buffer s) (text s) (oled_row s) (timeout_timer s) (regs s) (irq_en s) (pin_cfg s) (log s) (n_sr1 s) (n_now s) (n_pin s) (n_stop s) (n_irq s).
Definition set_buffer v s := mkState (_bl s) (i2c_addr s) (i2c_dead s) (refresh_count s) v (text s) (oled_row s) (timeout_timer s) (regs s) (irq_en s) (pin_cfg s) (log s) (n_sr1 s) (n_now s) (n_pin s) (n_stop s) (n_irq s).
Definition set_text v s := mkState (_bl s) (i2c_addr s) (i2c_dead s) (refresh_count s) (buffer s) v (oled_row s) (timeout_timer s) (regs s) (irq_en s) (pin_cfg s) (log s) (n_sr1 s) (n_now s) (n_pin s) (n_stop s) (n_irq s).
Definition set_oled_row v s := mkState (_bl s) (i2c_addr s) (i2c_dead s) (refresh_count s) (buffer s) (text s) v (timeout_timer s) (regs s) (irq_en s) (pin_cfg s) (log s) (n_sr1 s) (n_now s) (n_pin s) (n_stop s) (n_irq s).
Definition set_timeout_timer v s := mkState (_bl s) (i2c_addr s) (i2c_dead s) (refresh_count s) (buffer s) (text s) (oled_row s) v (regs s) (irq_en s) (pin_cfg s) (log s) (n_sr1 s) (n_now s) (n_pin s) (n_stop s) (n_irq s).
Definition set_regs v s := mkState (_bl s) (i2c_addr s) (i2c_dead s) (refresh_count s) (buffer s) (text s) (oled_row s) (timeout_timer s) v (irq_en s) (pin_cfg s) (log s) (n_sr1 s) (n_now s) (n_pin s) (n_stop s) (n_irq s).
Definition set_irq_en v s := mkState (_bl s) (i2c_addr s) (i2c_dead s) (refresh_count s) (buffer s) (text s) (oled_row s) (timeout_timer s) (regs s) v (pin_cfg s) (log s) (n_sr1 s) (n_now s) (n_pin s) (n_stop s) (n_irq s).
Definition set_pin_cfg v s := mkState (_bl s) (i2c_addr s) (i2c_dead s) (refresh_count s) (buffer s) (text s) (oled_row s) (timeout_timer s) (regs s) (irq_en s) v (log s) (n_sr1 s) (n_now s) (n_pin s) (n_stop s) (n_irq s).
Definition set_log v s := mkState (_bl s) (i2c_addr s) (i2c_dead s) (refresh_count s) (buffer s) (text s) (oled_row s) (timeout_timer s) (regs s) (irq_en s) (pin_cfg s) v (n_sr1 s) (n_now s) (n_pin s) (n_stop s) (n_irq s).
Definition set_n_sr1 v s := mkState (_bl s) (i2c_addr s) (i2c_dead s) (refresh_count s) (buffer s) (text s) (oled_row s) (timeout_timer s) (regs s) (irq_en s) (pin_cfg s) (log s) v (n_now s) (n_pin s) (n_stop s) (n_irq s).
Definition set_n_now v s := mkState (_bl s) (i2c_addr s) (i2c_dead s) (refresh_count s) (buffer s) (text s) (oled_row s) (timeout_timer s) (regs s) (irq_en s) (pin_cfg s) (log s) (n_sr1 s) v (n_pin s) (n_stop s) (n_irq s).
Definition set_n_pin v s := mkState (_bl s) (i2c_addr s) (i2c_dead s) (refresh_count s) (buffer s) (text s) (oled_row s) (timeout_timer s) (regs s) (irq_en s) (pin_cfg s) (log s) (n_sr1 s) (n_now s) v (n_stop s) (n_irq s).
Definition set_n_stop v s := mkState (_bl s) (i2c_addr s) (i2c_dead s) (refresh_count s) (buffer s) (text s) (oled_row s) (timeout_timer s) (regs s) (irq_en s) (pin_cfg s) (log s) (n_sr1 s) (n_now s) (n_pin s) v (n_irq s).
Definition set_n_irq v s := mkState (_bl s) (i2c_addr s) (i2c_dead s) (refresh_count s) (buffer s) (text s) (oled_row s) (timeout_timer s) (regs s) (irq_en s) (pin_cfg s) (log s) (n_sr1 s) (n_now s) (n_pin s) (n_stop s) v.

(** The state at reset: zeroed statics (.bss), nothing configured. *)
Definition reset_state : state :=
  mkState 0 0 false 0 (replicate 256 0) (replicate 32 0) 0 None
          (fun _ => 0) (fun _ => false) (fun _ => pin_reset) [] 0 0 0 0 0.

(** ** The monad *)

Inductive outcome (A : Type) : Type :=
| Done (a : A) (s : state)
| Spin          (* a busy-wait loop ran out of its iteration budget *)
| AssertFail.   (* ASSERT() failed *)
Arguments Done {A} a s.
Arguments Spin {A}.
Arguments AssertFail {A}.

Definition M (A : Type) : Type := state -> outcome A.

Definition ret {A} (a : A) : M A := fun s => Done a s.

Definition bind {A B} (m : M A) (k : A -> M B) : M B :=
  fun s => match m s with
           | Done a s' => k a s'
           | Spin => Spin
           | AssertFail => AssertFail
           end.

Notation "x <- m ;; k" := (bind m (fun x => k))
  (at level 90, m at level 89, right associativity).
Notation "m ;;; k" := (bind m (fun _ => k))
  (at level 90, right associativity).

Definition gets {A} (f : state -> A) : M A := fun s => Done (f s) s.
Definition modify (f : state -> state) : M unit := fun s => Done tt (f s).
Definition spin {A} : M A := fun _ => Spin.
Definition ASSERT (b : bool) : M unit :=
  fun s => if b then Done tt s else AssertFail.
Definition when (b : bool) (m : M unit) : M unit := if b then m else ret tt.

(** Bounded [for] loops: the body is run for each index in turn and
    threads the loop-carried value (a write pointer, usually). *)
Fixpoint for_ {A} (idx : list Z) (body : Z -> A -> M A) (a : A) : M A :=
  match idx with
  | [] => ret a
  | i :: rest => a' <- body i a ;; for_ rest body a'
  end.

(** [n] repetitions of a command. *)
Fixpoint repeat_ (n : nat) (m : M unit) : M unit :=
  match n with
  | O => ret tt
  | S n' => m ;;; repeat_ n' m
  end.

(** A C string: the character codes up to (not including) the terminating
    NUL.  The end of the list stands for the terminator. *)
Definition cstr (s : string) : list Z :=
  map (fun c => Z.of_nat (nat_of_ascii c)) (list_ascii_of_string s).

(** The four bytes of a 32-bit word in memory order (little-endian). *)
Definition le_bytes32 (w : Z) : list Z :=
  [ Z.land w 255; Z.land (Z.shiftr w 8) 255;
    Z.land (Z.shiftr w 16) 255; Z.land (Z.shiftr w 24) 255 ].

Section Driver.
Context `{hal} `{world}.

(** ** Primitive accesses *)

Definition trace (e : event) : M unit :=
  modify (fun s => set_log (e :: log s) s).

(** A store to a peripheral register. *)
Definition reg_write (r : reg) (v : Z) : M unit :=
  modify (fun s => set_log (Ev_reg_write r v :: log s)
                           (set_regs (<[r := v]> (regs s)) s)).

(** The read half of a read-modify-write on a control register: the value
    software last stored. *)
Definition reg_read (r : reg) : M Z := gets (fun s => regs s r).

(** A read of the I2C status register SR1: the hardware's next answer. *)
Definition read_sr1 : M Z :=
  fun s => Done (sr1_in (n_sr1 s)) (set_n_sr1 (S (n_sr1 s)) s).

(** (void)i2c->sr2: read for its side effect only. *)
Definition read_sr2 : M unit := trace (Ev_reg_read I2C_SR2).

(** A read of I2C CR1 inside a wait for STOP to clear: the bits software
    stored, with the STOP bit as the hardware currently has it. *)
Definition poll_cr1 : M Z :=
  fun s =>
    let v := if stop_in (n_stop s)
             then Z.lor (regs s I2C_CR1) I2C_CR1_STOP
             else Z.land (regs s I2C_CR1) (Z.lnot I2C_CR1_STOP) in
    Done v (set_n_stop (S (n_stop s)) (set_regs (<[I2C_CR1 := v]> (regs s)) s)).

Definition stk_now : M Z :=
  fun s => Done (now_in (n_now s)) (set_n_now (S (n_now s)) s).

Definition gpio_read_pin (pin : Z) : M bool :=
  fun s => Done (pin_in (n_pin s)) (set_n_pin (S (n_pin s)) s).

Definition gpio_configure_pin (pin : Z) (m : pin_mode) : M unit :=
  modify (fun s => set_pin_cfg (<[pin := m]> (pin_cfg s)) s) ;;;
  trace (Ev_gpio_configure_pin pin m).

Definition gpio_write_pin (pin : Z) (level : bool) : M unit :=
  trace (Ev_gpio_write_pin pin level).

Definition delay_us (us : Z) : M unit := trace (Ev_delay_us us).
Definition printk (fmt : string) (args : list printk_arg) : M unit :=
  trace (Ev_printk fmt args).
Definition cpu_relax : M unit := trace Ev_cpu_relax.

Definition IRQx_set_prio (irq pri : Z) : M unit := trace (Ev_IRQx_set_prio irq pri).
Definition IRQx_clear_pending (irq : Z) : M unit := trace (Ev_IRQx_clear_pending irq).
Definition IRQx_set_pending (irq : Z) : M unit := trace (Ev_IRQx_set_pending irq).
Definition IRQx_enable (irq : Z) : M unit :=
  modify (fun s => set_irq_en (<[irq := true]> (irq_en s)) s) ;;;
  trace (Ev_IRQx_enable irq).
Definition IRQx_disable (irq : Z) : M unit :=
  modify (fun s => set_irq_en (<[irq := false]> (irq_en s)) s) ;;;
  trace (Ev_IRQx_disable irq).
Definition IRQ_save (pri : Z) : M unit := trace (Ev_IRQ_save pri).
Definition IRQ_restore : M unit := trace Ev_IRQ_restore.

Definition timer_init : M unit :=
  modify (set_timeout_timer None) ;;; trace Ev_timer_init.
Definition timer_set (deadline : Z) : M unit :=
  modify (set_timeout_timer (Some deadline)) ;;; trace (Ev_timer_set deadline).
Definition timer_cancel : M unit :=
  modify (set_timeout_timer None) ;;; trace Ev_timer_cancel.

(** Stores through a [uint8_t *] into buffer[], at byte offset [p]. *)
Definition poke (p : nat) (v : Z) : M unit :=
  modify (fun s => set_buffer (<[p := v]> (buffer s)) s).

(** A 32-bit store into buffer[] at word index [q]: four bytes, least
    significant first (the core is little-endian). *)
Definition poke32 (q : nat) (w : Z) : M unit :=
  modify (fun s => set_buffer (list_inserts (4 * q) (le_bytes32 w) (buffer s)) s).

(** text[] seen as one flat array of 32 chars: &text[row][col] is index
    16*row + col.  A load or store outside the array is outside the model:
    the load yields 0 and the store is dropped. *)
Definition text_at (p : Z) (s : state) : Z :=
  if 0 <=? p then default 0 (text s !! Z.to_nat p) else 0.

Definition poke_text (p : Z) (c : Z) : M unit :=
  modify (fun s => if 0 <=? p then set_text (<[Z.to_nat p := c]> (text s)) s else s).

(** ** lcd.c *)

Definition DMA_TIMEOUT : Z := stk_ms 200.

Definition timeout_fn : M unit := IRQx_set_pending I2C_ERROR_IRQ.

Definition IRQ_i2c_event : M unit :=
  sr1 <- read_sr1 ;;
  when (negb (Z.land sr1 I2C_SR1_SB =? 0))
       (* Send address. Clears SR1_SB. *)
       (a <- gets i2c_addr ;; reg_write I2C_DR (Z.shiftl a 1)) ;;;
  when (negb (Z.land sr1 I2C_SR1_ADDR =? 0))
       (* Read SR2 clears SR1_ADDR. *)
       (read_sr2 ;;;
        (* No more events: data phase is driven by DMA. *)
        cr2 <- reg_read I2C_CR2 ;;
        reg_write I2C_CR2 (Z.land cr2 (Z.lnot I2C_CR2_ITEVTEN))).

(* Start an I2C DMA sequence. *)
Definition dma_start (sz : Z) : M unit :=
  ASSERT (sz <=? sizeof_buffer) ;;;
  reg_write DMA1_CH4_CMAR addr_of_buffer ;;;
  reg_write DMA1_CH4_CNDTR sz ;;;
  reg_write DMA1_CH4_CCR
    (Z.lor DMA_CCR_MSIZE_8BIT
       (Z.lor DMA_CCR_PSIZE_16BIT
          (Z.lor DMA_CCR_MINC
             (Z.lor DMA_CCR_DIR_M2P (Z.lor DMA_CCR_TCIE DMA_CCR_EN))))) ;;;
  (* Set the timeout timer in case the DMA hangs for any reason. *)
  now <- stk_now ;;
  timer_set (stk_add now DMA_TIMEOUT).

(* Emit a 4-bit command to the HD44780 via the DMA buffer. *)
Definition emit4 (p : nat) (val : Z) : M nat :=
  let val := u8 val in
  poke p val ;;; let p := S p in
  poke p (u8 (Z.lor val _EN)) ;;; let p := S p in
  poke p val ;;; let p := S p in
  ret p.

(* Emit an 8-bit command to the HD44780 via the DMA buffer. *)
Definition emit8 (p : nat) (val signals : Z) : M nat :=
  let val := u8 val in
  let signals := u8 signals in
  bl <- gets _bl ;;
  let signals := u8 (Z.lor signals bl) in
  p <- emit4 p (Z.lor (Z.land val 0xf0) signals) ;;
  emit4 p (Z.lor (Z.shiftl val 4) signals).

(* Snapshot text buffer into the command buffer. *)
Definition lcd_prep_buffer : M Z :=
  let q := 0%nat in
  (* We transmit complete display on every DMA. *)
  modify (fun s => set_refresh_count (u8 (refresh_count s + 1)) s) ;;;
  q <- for_ (seqZ 0 2) (fun i q =>
         q <- emit8 q (Z.lor CMD_SETDDRADDR (i * 64)) 0 ;;
         for_ (seqZ 0 16) (fun j q =>
           c <- gets (text_at (16 * i + j)) ;;
           emit8 q c _RS) q) q ;;
  ret (Z.of_nat q).

(* Wait for given status condition @s while also checking for errors. *)
Fixpoint i2c_wait_loop (fuel : nat) (t : Z) (s_ : Z) : M bool :=
  match fuel with
  | O => spin
  | S fuel' =>
      sr1 <- read_sr1 ;;
      if Z.land sr1 s_ =? s_ then ret true
      else
        sr1 <- read_sr1 ;;
        if negb (Z.land sr1 I2C_SR1_ERRORS =? 0) then
          sr1 <- read_sr1 ;;
          reg_write I2C_SR1 (Z.land sr1 (Z.lnot I2C_SR1_ERRORS)) ;;;
          ret false
        else
          now <- stk_now ;;
          if stk_diff t now >? stk_ms 10 then
            (* I2C bus seems to be locked up. *)
            modify (set_i2c_dead true) ;;;
            ret false
          else i2c_wait_loop fuel' t s_
  end.

Definition i2c_wait (s_ : Z) : M bool :=
  let s_ := u8 s_ in
  t <- stk_now ;;
  i2c_wait_loop spin_limit t s_.

(* Synchronously transmit the I2C START sequence. *)
Definition i2c_start (a : Z) : M bool :=
  let a := u8 a in
  cr1 <- reg_read I2C_CR1 ;;
  reg_write I2C_CR1 (Z.lor cr1 I2C_CR1_START) ;;;
  ok <- i2c_wait I2C_SR1_SB ;;
  if negb ok then ret false
  else
    reg_write I2C_DR (Z.shiftl a 1) ;;;
    ok <- i2c_wait I2C_SR1_ADDR ;;
    if negb ok then ret false
    else read_sr2 ;;; ret true.

(* Synchronously transmit an I2C command. *)
Definition i2c_cmd (cmd : Z) : M bool :=
  let cmd := u8 cmd in
  reg_write I2C_DR cmd ;;;
  i2c_wait I2C_SR1_BTF.

(* Write a 4-bit nibble over D7-D4 (4-bit bus). *)
Definition write4 (val : Z) : M unit :=
  let val := u8 val in
  _ <- i2c_cmd val ;;
  _ <- i2c_cmd (Z.lor val _EN) ;;
  _ <- i2c_cmd val ;;
  ret tt.

(* while (i2c->cr1 & I2C_CR1_STOP) continue; *)
Fixpoint wait_stop_clear (fuel : nat) : M unit :=
  match fuel with
  | O => spin
  | S fuel' =>
      cr1 <- poll_cr1 ;;
      if negb (Z.land cr1 I2C_CR1_STOP =? 0) then wait_stop_clear fuel'
      else ret tt
  end.

(* Check whether an I2C device is responding at given address. *)
Definition i2c_probe (a : Z) : M bool :=
  let a := u8 a in
  ok <- i2c_start a ;;
  if negb ok then ret false
  else
    ok <- i2c_cmd 0 ;;
    if negb ok then ret false
    else
      cr1 <- reg_read I2C_CR1 ;;
      reg_write I2C_CR1 (Z.lor cr1 I2C_CR1_STOP) ;;;
      wait_stop_clear spin_limit ;;;
      ret true.

(* Check given inclusive range of addresses for a responding I2C device. *)
Fixpoint i2c_probe_range_loop (fuel : nat) (a e : Z) : M Z :=
  match fuel with
  | O => spin
  | S fuel' =>
      dead <- gets i2c_dead ;;
      if (a <=? e) && negb dead then
        ok <- i2c_probe a ;;
        if ok then ret a
        else i2c_probe_range_loop fuel' (u8 (a + 1)) e
      else ret 0
  end.

Definition i2c_probe_range (s_ e : Z) : M Z :=
  let s_ := u8 s_ in
  let e := u8 e in
  i2c_probe_range_loop spin_limit s_ e.

(** C [int] on the target: 32-bit two's complement.  An increment or
    decrement that leaves the range wraps around, as the compiled code
    does. *)
Definition int_min : Z := - 2 ^ 31.
Definition int_max : Z := 2 ^ 31 - 1.
Definition int_wrap (x : Z) : Z := (x - int_min) mod 2 ^ 32 + int_min.

(* while ((c = *str++) && (col++ < 16)) { *p++ = c; min--; } *)
Fixpoint lcd_write_copy (str : list Z) (col min p : Z) : M (Z * Z * Z) :=
  match str with
  | [] => ret (col, min, p)
  | c :: str' =>
      if c =? 0 then ret (col, min, p)
      else if col <? 16 then
        poke_text p c ;;;
        lcd_write_copy str' (int_wrap (col + 1)) (int_wrap (min - 1)) (p + 1)
      else ret (int_wrap (col + 1), min, p)
  end.

(* while ((min-- > 0) && (col++ < 16)) *p++ = ' '; *)
Fixpoint lcd_write_pad (fuel : nat) (col min p : Z) : M (Z * Z * Z) :=
  match fuel with
  | O => spin
  | S fuel' =>
      if min >? 0 then
        if col <? 16 then
          poke_text p 32 ;;;
          lcd_write_pad fuel' (int_wrap (col + 1)) (int_wrap (min - 1)) (p + 1)
        else ret (int_wrap (col + 1), int_wrap (min - 1), p)
      else ret (col, int_wrap (min - 1), p)
  end.

(** The two loops of lcd_write, returning the final values of the locals
    [col], [min] and [p].  Every store of lcd_write is a [*p++ = ...], so
    the cells stored to are exactly those from the initial to the final
    [p].  The locals [col] and [min] are C [int]s.  The pad loop stores
    while [min > 0] and [col < 16], both moving by one per store: it
    makes at most [max 0 (min min (16 - col))] stores and one more test,
    which is the budget it is given. *)
Definition lcd_write_loops (col row min : Z) (str : list Z) : M (Z * Z * Z) :=
  let p := 16 * row + col in
  r <- lcd_write_copy str col min p ;;
  let '(col, min, p) := r in
  lcd_write_pad (S (Z.to_nat (Z.max 0 (Z.min min (16 - col))))) col min p.

Definition lcd_write (col row min : Z) (str : list Z) : M unit :=
  (* Prevent the text[] getting rendered while we're updating it. *)
  IRQ_save I2C_IRQ_PRI ;;;
  _ <- lcd_write_loops col row min str ;;
  IRQ_restore.

Definition lcd_clear : M unit :=
  lcd_write 0 0 16 (cstr "") ;;;
  lcd_write 0 1 16 (cstr "").

Definition lcd_backlight (on : bool) : M unit :=
  (* Will be picked up the next time text[] is rendered. *)
  modify (set__bl (if on then _BL else 0)).

(** *** SSD1306 *)

(* memcpy() of [n] bytes from a glyph table of uint8_t into buffer[]. *)
Definition memcpy_font (dst : nat) (font : Z -> Z) (src : Z) (n : nat) : M unit :=
  modify (fun s =>
    set_buffer (list_inserts dst (map (fun k => u8 (font (src + k)))
                                      (seqZ 0 (Z.of_nat n))) (buffer s)) s).

(* memset() of [n] bytes of buffer[]. *)
Definition memset (dst : nat) (v : Z) (n : nat) : M unit :=
  modify (fun s => set_buffer (list_inserts dst (replicate n (u8 v)) (buffer s)) s).

(** The glyph index of a character: [(c = *pc++ - 0x20) > 0x5e] with [c]
    an [unsigned int], so codes below 0x20 wrap to huge values. *)
Definition glyph_index (ch : Z) : Z :=
  let c := (ch - 0x20) mod 2 ^ 32 in
  if c >? 0x5e then 46 (* '.' *) - 0x20 else c.

(** #ifdef font_7x16 *)
Definition oled_convert_text_row_7x16 (pc : Z) : M unit :=
  let q := 0%nat in
  r <- for_ (seqZ 0 16) (fun _ st =>
         let '(pc, q) := st in
         ch <- gets (text_at pc) ;; let pc := pc + 1 in
         let c := glyph_index ch in
         let p := c * 14 in
         memcpy_font q oled_font_7x16 p 7 ;;;
         memcpy_font (q + 128) oled_font_7x16 (p + 7) 7 ;;;
         let q := (q + 7)%nat in
         ret (pc, q)) (pc, q) ;;
  let '(_, q) := r in
  (* Fill remainder of buffer[] with zeroes. *)
  memset q 0 16 ;;;
  memset (q + 128) 0 16.

(** #else: the 8x16 font, copied a 32-bit word at a time *)
Definition oled_convert_text_row_8x16 (pc : Z) : M unit :=
  let q := 0%nat in
  _ <- for_ (seqZ 0 16) (fun _ st =>
         let '(pc, q) := st in
         ch <- gets (text_at pc) ;; let pc := pc + 1 in
         let c := glyph_index ch in
         let p := c * 4 in
         poke32 q (oled_font_8x16 p) ;;; let q := S q in let p := p + 1 in
         poke32 q (oled_font_8x16 p) ;;; let q := S q in let p := p + 1 in
         poke32 (q + (32 - 2)) (oled_font_8x16 p) ;;; let p := p + 1 in
         poke32 (q + (32 - 1)) (oled_font_8x16 p) ;;;
         ret (pc, q)) (pc, q) ;;
  ret tt.

Definition oled_convert_text_row (pc : Z) : M unit :=
  if font_7x16 then oled_convert_text_row_7x16 pc
  else oled_convert_text_row_8x16 pc.

Definition setup_addr_cmds : list Z :=
  [ 0x20; 0;       (* horizontal addressing mode *)
    0x21; 0; 127;  (* column address range: 0-127 *)
    0x22; 0; 3 ].  (* page address range: 0-3 *)

(** [buf] is the byte offset into buffer[] of the pointer passed in. *)
Definition oled_start_i2c (buf : nat) : M Z :=
  let p := buf in
  (* Set up the display address range. *)
  p <- for_ setup_addr_cmds (fun c p =>
         poke p 0x80 ;;; let p := S p in   (* Co=1, Command *)
         poke p c ;;; let p := S p in
         ret p) p ;;
  (* Display on/off according to backlight setting. *)
  poke p 0x80 ;;; let p := S p in
  bl <- gets _bl ;;
  poke p (if negb (bl =? 0) then 0xaf else 0xae) ;;; let p := S p in
  (* All subsequent bytes are data bytes. *)
  poke p 0x40 ;;; let p := S p in
  modify (set_oled_row 0) ;;;
  (* Start the I2C transaction. *)
  cr2 <- reg_read I2C_CR2 ;;
  reg_write I2C_CR2 (Z.lor cr2 I2C_CR2_ITEVTEN) ;;;
  cr1 <- reg_read I2C_CR1 ;;
  reg_write I2C_CR1 (Z.lor cr1 I2C_CR1_START) ;;;
  ret (Z.of_nat p - Z.of_nat buf).

(* The wait for BTF in oled_prep_buffer: [false] when it bails on an
   error flag. *)
Fixpoint oled_wait_btf (fuel : nat) : M bool :=
  match fuel with
  | O => spin
  | S fuel' =>
      sr1 <- read_sr1 ;;
      if negb (Z.land sr1 I2C_SR1_BTF =? 0) then ret true
      else
        (* Any errors: bail and leave it to the Error ISR. *)
        sr1 <- read_sr1 ;;
        if negb (Z.land sr1 I2C_SR1_ERRORS =? 0) then ret false
        else oled_wait_btf fuel'
  end.

(* Snapshot text buffer into the bitmap buffer. *)
Definition oled_prep_buffer : M Z :=
  (* If we have completed a complete fill of the OLED display, start a new
     I2C transaction. *)
  row <- gets oled_row ;;
  if row =? 2 then
    modify (fun s => set_refresh_count (u8 (refresh_count s + 1)) s) ;;;
    (* Wait for BTF. *)
    btf <- oled_wait_btf spin_limit ;;
    if negb btf then ret 0
    else
      (* Send STOP. Clears SR1_TXE and SR1_BTF. *)
      cr1 <- reg_read I2C_CR1 ;;
      reg_write I2C_CR1 (Z.lor cr1 I2C_CR1_STOP) ;;;
      wait_stop_clear spin_limit ;;;
      (* Kick off new I2C transaction. *)
      oled_start_i2c 0
  else
    (* Convert one row of text[] into buffer[] writes. *)
    modify (set_oled_row (u8 (row + 1))) ;;;
    oled_convert_text_row (16 * row) ;;;
    ret 256.

Definition init_cmds : list Z :=
  [ 0xd5; 0x80; (* default clock *)
    0xa8; 31;   (* multiplex ratio (lcd height - 1) *)
    0xd3; 0x00; (* display offset = 0 *)
    0x40;       (* display start line = 0 *)
    0x8d; 0x14; (* enable charge pump *)
    0xa1;       (* segment mapping (reverse) *)
    0xc8;       (* com scan direction (decrement) *)
    0xda; 0x02; (* com pins configuration *)
    0x81; 0x8f; (* display contrast *)
    0xd9; 0xf1; (* pre-charge period *)
    0xdb; 0x20; (* vcomh detect (default) *)
    0xa4;       (* output follows ram contents *)
    0xa6;       (* normal display output (inverse=off) *)
    0x2e ].     (* deactivate scroll *)

Definition oled_init : M unit :=
  let p := 0%nat in
  (* Disable I2C (currently in Standard Mode). *)
  reg_write I2C_CR1 0 ;;;
  (* Fast Mode (400kHz). *)
  reg_write I2C_CR2 (I2C_CR2_FREQ 36) ;;;
  reg_write I2C_CCR (Z.lor I2C_CCR_FS (I2C_CCR_CCR 30)) ;;;
  reg_write I2C_TRISE 12 ;;;
  reg_write I2C_CR1 I2C_CR1_PE ;;;
  cr2 <- reg_read I2C_CR2 ;;
  reg_write I2C_CR2 (Z.lor cr2 I2C_CR2_ITERREN) ;;;
  (* Initialisation sequence for SSD1306. *)
  p <- for_ init_cmds (fun c p =>
         poke p 0x80 ;;; let p := S p in   (* Co=1, Command *)
         poke p c ;;; let p := S p in
         ret p) p ;;
  (* Start off the I2C transaction. *)
  n <- oled_start_i2c p ;;
  let p := (p + Z.to_nat n)%nat in
  (* Send the initialisation command sequence by DMA. *)
  cr2 <- reg_read I2C_CR2 ;;
  reg_write I2C_CR2 (Z.lor cr2 I2C_CR2_DMAEN) ;;;
  dma_start (Z.of_nat p).

(** *** The refresh engine *)

Definition IRQ_dma1_ch4_tc : M unit :=
  (* Clear the DMA controller. *)
  reg_write DMA1_CH4_CCR 0 ;;;
  reg_write DMA1_IFCR (DMA_IFCR_CGIF 4) ;;;
  (* Prepare the DMA buffer and start the next DMA sequence. *)
  a <- gets i2c_addr ;;
  dma_sz <- (if a =? OLED_ADDR then oled_prep_buffer else lcd_prep_buffer) ;;
  dma_start dma_sz.

(** The DMA-completion interrupts taken by the foreground code just before
    it polls refresh_count. *)
Definition serve_irqs : M unit :=
  k <- (fun s => Done (irq_in (n_irq s)) (set_n_irq (S (n_irq s)) s)) ;;
  repeat_ k IRQ_dma1_ch4_tc.

(* while ((uint8_t)(refresh_count - c) < 2) cpu_relax(); *)
Fixpoint lcd_sync_loop (fuel : nat) (c : Z) : M unit :=
  match fuel with
  | O => spin
  | S fuel' =>
      serve_irqs ;;;
      rc <- gets refresh_count ;;
      if u8 (rc - c) <? 2 then cpu_relax ;;; lcd_sync_loop fuel' c
      else ret tt
  end.

Definition lcd_sync : M unit :=
  c <- gets refresh_count ;;
  lcd_sync_loop spin_limit c.

(** *** lcd_init *)

(* Check we have a clear I2C bus. Both clock and data must be high. If SDA
   is stuck low then slave may be stuck in an ACK cycle. We can try to
   unwedge the slave in that case and drive it into the STOP condition. *)
Definition lcd_init_unwedge : M unit :=
  gpio_configure_pin SCL GPO_opendrain_2MHz_HIGH ;;;
  gpio_configure_pin SDA GPO_opendrain_2MHz_HIGH ;;;
  delay_us 10 ;;;
  scl <- gpio_read_pin SCL ;;
  held <- (if scl then sda <- gpio_read_pin SDA ;; ret (negb sda)
           else ret false) ;;
  when held
    (printk "I2C: SDA held by slave? Fixing... " [] ;;;
     (* We will hold SDA low (as slave is) and also drive SCL low to end
        the current ACK cycle. *)
     gpio_write_pin SDA false ;;;
     gpio_write_pin SCL false ;;;
     delay_us 10 ;;;
     (* Slave should no longer be driving SDA low (but we still are).
        Now prepare for the STOP condition by setting SCL high. *)
     gpio_write_pin SCL true ;;;
     delay_us 10 ;;;
     (* Enter the STOP condition by setting SDA high while SCL is high. *)
     gpio_write_pin SDA true ;;;
     delay_us 10 ;;;
     scl <- gpio_read_pin SCL ;;
     still <- (if negb scl then ret true
               else sda <- gpio_read_pin SDA ;; ret (negb sda)) ;;
     printk "%s\n" [arg_str (if still then "Still held" else "Done")]).

(* Check the bus is not floating (or still stuck!). We shouldn't be able to
   pull the lines low with our internal weak pull-downs (min. 30kohm).
   Returns [true] when the bus is invalid. *)
Definition lcd_init_floating_check : M bool :=
  gpio_configure_pin SCL GPI_pull_down ;;;
  gpio_configure_pin SDA GPI_pull_down ;;;
  delay_us 10 ;;;
  scl <- gpio_read_pin SCL ;;
  if negb scl then ret true
  else sda <- gpio_read_pin SDA ;; ret (negb sda).

(* a = i2c_probe_range(0x20, 0x27) ?: i2c_probe_range(0x38, 0x3f); *)
Definition lcd_init_scan : M Z :=
  a <- i2c_probe_range 0x20 0x27 ;;
  if negb (a =? 0) then ret a else i2c_probe_range 0x38 0x3f.

(* Probe the bus for an I2C device.  Returns [false] for "goto fail". *)
Definition lcd_init_detect : M bool :=
  a <- lcd_init_scan ;;
  if a =? 0 then
    dead <- gets i2c_dead ;;
    printk "I2C: %s\n"
           [arg_str (if dead then "Bus locked up?" else "No device found")] ;;;
    ret false
  else
    printk "I2C: %s found at 0x%02x\n"
           [arg_str (if a =? OLED_ADDR then "OLED" else "LCD"); arg_int a] ;;;
    modify (set_i2c_addr a) ;;;
    lcd_clear ;;;
    ret true.

Definition lcd_init_irqs : M unit :=
  (* Enable the Event IRQ. *)
  IRQx_set_prio I2C_EVENT_IRQ I2C_IRQ_PRI ;;;
  IRQx_clear_pending I2C_EVENT_IRQ ;;;
  IRQx_enable I2C_EVENT_IRQ ;;;
  (* Enable the Error IRQ. *)
  IRQx_set_prio I2C_ERROR_IRQ I2C_IRQ_PRI ;;;
  IRQx_clear_pending I2C_ERROR_IRQ ;;;
  IRQx_enable I2C_ERROR_IRQ ;;;
  cr2 <- reg_read I2C_CR2 ;;
  reg_write I2C_CR2 (Z.lor cr2 I2C_CR2_ITERREN) ;;;
  (* Initialise DMA1 channel 4 and its completion interrupt. *)
  reg_write DMA1_CH4_CPAR addr_of_i2c_dr ;;;
  reg_write DMA1_IFCR (DMA_IFCR_CGIF 4) ;;;
  IRQx_set_prio DMA1_CH4_IRQ I2C_IRQ_PRI ;;;
  IRQx_clear_pending DMA1_CH4_IRQ ;;;
  IRQx_enable DMA1_CH4_IRQ ;;;
  (* Timeout handler for if I2C transmission borks. *)
  timer_init ;;;
  now <- stk_now ;;
  timer_set (stk_add now DMA_TIMEOUT).

(* fail: *)
Definition lcd_init_fail (reinit : bool) : M bool :=
  if reinit then ret false
  else
    IRQx_disable I2C_ERROR_IRQ ;;;
    IRQx_disable DMA1_CH4_IRQ ;;;
    cr1 <- reg_read I2C_CR1 ;;
    reg_write I2C_CR1 (Z.land cr1 (Z.lnot I2C_CR1_PE)) ;;;
    gpio_configure_pin SCL GPI_pull_up ;;;
    gpio_configure_pin SDA GPI_pull_up ;;;
    apb1enr <- reg_read RCC_APB1ENR ;;
    reg_write RCC_APB1ENR (Z.land apb1enr (Z.lnot RCC_APB1ENR_I2C2EN)) ;;;
    ret false.

(* The HD44780 branch of lcd_init, from i2c_start(i2c_addr) on. *)
Definition lcd_init_hd44780 (reinit : bool) : M bool :=
  a <- gets i2c_addr ;;
  ok <- i2c_start a ;;
  if negb ok then lcd_init_fail reinit
  else
    (* Initialise 4-bit interface, as in the datasheet. Do this
       synchronously and with the required delays. *)
    write4 (Z.shiftl 3 4) ;;;
    delay_us 4100 ;;;
    write4 (Z.shiftl 3 4) ;;;
    delay_us 100 ;;;
    write4 (Z.shiftl 3 4) ;;;
    write4 (Z.shiftl 2 4) ;;;
    (* More initialisation from the datasheet. Send by DMA. *)
    let p := 0%nat in
    p <- emit8 p (Z.lor CMD_FUNCTIONSET FS_2LINE) 0 ;;
    p <- emit8 p CMD_DISPLAYCTL 0 ;;
    p <- emit8 p (Z.lor CMD_ENTRYMODE 2) 0 ;;
    p <- emit8 p (Z.lor CMD_DISPLAYCTL 4) 0 ;; (* display on *)
    cr2 <- reg_read I2C_CR2 ;;
    reg_write I2C_CR2 (Z.lor cr2 I2C_CR2_DMAEN) ;;;
    dma_start (Z.of_nat p) ;;;
    (* Wait for DMA engine to initialise RAM, then turn on backlight. *)
    when (negb reinit) (lcd_sync ;;; lcd_backlight true) ;;;
    ret true.

(* lcd_init after the declaration [bool_t reinit = (i2c_addr != 0)]. *)
Definition lcd_init_body (reinit : bool) : M bool :=
  apb1enr <- reg_read RCC_APB1ENR ;;
  reg_write RCC_APB1ENR (Z.lor apb1enr RCC_APB1ENR_I2C2EN) ;;;
  lcd_init_unwedge ;;;
  invalid <- (if negb reinit then
                invalid <- lcd_init_floating_check ;;
                when invalid (printk "I2C: Invalid bus\n" []) ;;;
                ret invalid
              else ret false) ;;
  if invalid then lcd_init_fail reinit
  else
    gpio_configure_pin SCL AFO_opendrain_2MHz ;;;
    gpio_configure_pin SDA AFO_opendrain_2MHz ;;;
    (* Standard Mode (100kHz) *)
    reg_write I2C_CR1 0 ;;;
    reg_write I2C_CR2 (I2C_CR2_FREQ 36) ;;;
    reg_write I2C_CCR (I2C_CCR_CCR 180) ;;;
    reg_write I2C_TRISE 37 ;;;
    reg_write I2C_CR1 I2C_CR1_PE ;;;
    found <- (if negb reinit then lcd_init_detect else ret true) ;;
    if negb found then lcd_init_fail reinit
    else
      lcd_init_irqs ;;;
      a <- gets i2c_addr ;;
      if a =? OLED_ADDR then oled_init ;;; ret true
      else lcd_init_hd44780 reinit.

Definition lcd_init : M bool :=
  a <- gets i2c_addr ;;
  let reinit := negb (a =? 0) in
  lcd_init_body reinit.

(* I2C Error ISR: Reset the peripheral and reinit everything. *)
Definition IRQ_i2c_error : M unit :=
  (* Dump and clear I2C errors. *)
  sr1 <- read_sr1 ;;
  printk "I2C: Error (%04x)\n" [arg_int (Z.land sr1 I2C_SR1_ERRORS mod 2 ^ 16)] ;;;
  sr1 <- read_sr1 ;;
  reg_write I2C_SR1 (Z.land sr1 (Z.lnot I2C_SR1_ERRORS)) ;;;
  (* Clear the I2C peripheral. *)
  reg_write I2C_CR1 0 ;;;
  reg_write I2C_CR1 I2C_CR1_SWRST ;;;
  (* Clear the DMA controller. *)
  reg_write DMA1_CH4_CCR 0 ;;;
  reg_write DMA1_IFCR (DMA_IFCR_CGIF 4) ;;;
  timer_cancel ;;;
  _ <- lcd_init ;;
  ret tt.

End Driver.

(** ** A concrete board and scripted hardware, to run the model

    Bit assignments in the style of the STM32F1 register map, a 24-bit
    down-counting SysTick at 9 MHz, and synthetic glyph tables (entry [i]
    holds a value derived from [i]). *)
Definition example_hal (use_7x16 : bool) : hal := {|
  I2C_SR1_SB := 0x1;
  I2C_SR1_ADDR := 0x2;
  I2C_SR1_BTF := 0x4;
  I2C_SR1_ERRORS := 0xdf00;
  I2C_CR1_PE := 0x1;
  I2C_CR1_START := 0x100;
  I2C_CR1_STOP := 0x200;
  I2C_CR1_SWRST := 0x8000;
  I2C_CR2_ITERREN := 0x100;
  I2C_CR2_ITEVTEN := 0x200;
  I2C_CR2_DMAEN := 0x800;
  I2C_CR2_FREQ := fun x => x;
  I2C_CCR_FS := 0x8000;
  I2C_CCR_CCR := fun x => x;
  DMA_CCR_MSIZE_8BIT := 0;
  DMA_CCR_PSIZE_16BIT := 0x100;
  DMA_CCR_MINC := 0x80;
  DMA_CCR_DIR_M2P := 0x10;
  DMA_CCR_TCIE := 0x2;
  DMA_CCR_EN := 0x1;
  DMA_IFCR_CGIF := fun n => Z.shiftl 1 (4 * (n - 1));
  RCC_APB1ENR_I2C2EN := Z.shiftl 1 22;
  I2C_IRQ_PRI := 13;
  stk_ms := fun ms => ms * 9000;
  stk_diff := fun x y => Z.land (x - y) 0xffffff;
  stk_add := fun x d => Z.land (x - d) 0xffffff;
  font_7x16 := use_7x16;
  oled_font_7x16 := fun i => (3 * i + 1) mod 256;
  oled_font_8x16 := fun i => (0x01020304 * (i + 1)) mod 2 ^ 32;
  addr_of_buffer := 0x20000100;
  addr_of_i2c_dr := 0x40005810
|}.

(** Hardware scripts: each stream follows its list and then repeats the
    given default for ever. *)
Definition script {A} (l : list A) (d : A) : nat -> A := fun k => nth k l d.

Definition example_world (sr1 : list Z) (sr1_d : Z) (now : nat -> Z)
    (pins : list bool) (stop : list bool) (irqs : nat -> nat) : world := {|
  sr1_in := script sr1 sr1_d;
  now_in := now;
  pin_in := script pins true;
  stop_in := script stop false;
  irq_in := irqs;
  spin_limit := 64
|}.

(** A well-behaved bus: every status flag is up at once, no error flag,
    the clock barely moves, both lines read high, STOP clears at once and
    one DMA-completion interrupt arrives between two polls. *)
Definition quiet_world : world :=
  example_world [] 0x7 (fun k => 0xffffff - Z.of_nat k) [] [] (fun _ => 1%nat).

(** ** Vocabulary of the specification *)

(** Partial correctness: whatever [m] returns when started in [s]
    satisfies [Q]. *)
Definition post {A} (m : M A) (s : state) (Q : A -> state -> Prop) : Prop :=
  match m s with
  | Done a s' => Q a s'
  | Spin | AssertFail => True
  end.

(** [m] relates every state to the state it returns in. *)
Definition keeps {A} (R : state -> state -> Prop) (m : M A) : Prop :=
  forall s, post m s (fun _ s' => R s s').

(** The bytes emit4 and emit8 put into buffer[] (their stores, in address
    order). *)
Definition emit4_bytes (val : Z) : list Z :=
  let val := u8 val in [val; u8 (Z.lor val _EN); val].

Definition emit8_bytes (bl val signals : Z) : list Z :=
  let val := u8 val in
  let signals := u8 (Z.lor (u8 signals) bl) in
  emit4_bytes (Z.lor (Z.land val 0xf0) signals) ++
  emit4_bytes (Z.lor (Z.shiftl val 4) signals).

(** The frame lcd_prep_buffer builds, read off its two loops. *)
Definition lcd_frame_row (s : state) (i : Z) : list Z :=
  emit8_bytes (_bl s) (Z.lor CMD_SETDDRADDR (i * 64)) 0 ++
  flat_map (fun j => emit8_bytes (_bl s) (text_at (16 * i + j) s) _RS) (seqZ 0 16).

Definition lcd_frame (s : state) : list Z :=
  flat_map (lcd_frame_row s) (seqZ 0 2).

(** The character-mode frame as the specification words it: every logical
    byte goes out as its high nibble then its low nibble, each nibble
    written three times (value, value with EN high, value), with the
    register-select and backlight bits OR'd into every wire byte; a frame
    is the row-0 address command, 16 characters, the row-1 address command,
    16 characters. *)
Definition strobe (v : Z) : list Z := [v; Z.lor v _EN; v].

Definition wire_byte (bl rs b : Z) : list Z :=
  strobe (Z.lor (Z.lor (Z.land b 0xf0) rs) bl) ++
  strobe (Z.lor (Z.lor (Z.land (Z.shiftl b 4) 0xf0) rs) bl).

Definition hd44780_frame (bl : Z) (row0 row1 : list Z) : list Z :=
  wire_byte bl 0 0x80 ++ flat_map (wire_byte bl _RS) row0 ++
  wire_byte bl 0 (Z.lor 0x80 64) ++ flat_map (wire_byte bl _RS) row1.

(** A command that stores the bytes [f s] at consecutive addresses of
    buffer[] from the write pointer on, and returns the advanced pointer. *)
Definition writes (m : nat -> M nat) (f : state -> list Z) : Prop :=
  forall q s,
    m q s = Done (q + length (f s))%nat
                 (set_buffer (list_inserts q (f s) (buffer s)) s).

(** [f] does not look at buffer[]. *)
Definition buffer_blind {A} (f : state -> A) : Prop :=
  forall b s, f (set_buffer b s) = f s.

(** The text buffer after write(0, 0, 16, "HELLO") on a blank display. *)
Definition hello_state : state :=
  set_text (cstr "HELLO" ++ replicate 27 32) reset_state.

(** Cells the pad loop of lcd_write fills when entered at column [col]
    with [min] cells still owed: it stops when the minimum width is
    satisfied or column 16 is reached. *)
Definition pad_count (col min : Z) : Z := Z.max 0 (Z.min min (16 - col)).

Section SpecVocabulary.
Context `{hal}.

(** The re-addressing sequence of the bitmap controller as the
    specification lists it: addressing mode, column range 0-127, page range
    0-3, display on/off after the backlight flag, data-mode marker. *)
Definition readdress_cmds (bl : Z) : list Z :=
  [ 0x80; 0x20; 0x80; 0;                 (* horizontal addressing mode *)
    0x80; 0x21; 0x80; 0; 0x80; 127;      (* columns 0-127 *)
    0x80; 0x22; 0x80; 0; 0x80; 3;        (* pages 0-3 *)
    0x80; (if bl =? 0 then 0xae else 0xaf); (* display off / on *)
    0x40 ].                              (* data bytes follow *)

(** Glyph data of one text row as the display receives it: 128 bytes for
    the upper page (the top halves of the 16 glyphs, left to right) and 128
    bytes for the lower page (the bottom halves); the narrow font leaves
    the last 16 columns of each page blank. *)
Definition glyph_half (ch half : Z) : list Z :=
  let c := glyph_index ch in
  if font_7x16
  then map (fun k => u8 (oled_font_7x16 (c * 14 + 7 * half + k))) (seqZ 0 7)
  else flat_map (fun w => le_bytes32 (oled_font_8x16 (c * 4 + 2 * half + w)))
                (seqZ 0 2).

Definition oled_page (row : list Z) (half : Z) : list Z :=
  flat_map (fun ch => glyph_half ch half) row ++
  replicate (if font_7x16 then 16 else 0) 0.

Definition oled_row_image (row : list Z) : list Z :=
  oled_page row 0 ++ oled_page row 1.

(** Row [r] of the text buffer. *)
Definition text_row (s : state) (r : nat) : list Z :=
  take 16 (drop (16 * r) (text s)).

End SpecVocabulary.

(** The [n] characters a glyph loop reads from text[] starting at index
    [pc]. *)
Fixpoint text_from (pc : Z) (n : nat) (s : state) : list Z :=
  match n with
  | O => []
  | S n' => text_at pc s :: text_from (pc + 1) n' s
  end.

Section HardwareBehaviour.
Context `{hal} `{world}.

(** From status read [n] on, the BTF wait of oled_prep_buffer sees [k]
    rounds without BTF and without error, then BTF. *)
Definition btf_after (n k : nat) : Prop :=
  (forall j, (j < k)%nat ->
     Z.land (sr1_in (n + 2 * j)) I2C_SR1_BTF = 0 /\
     Z.land (sr1_in (n + 2 * j + 1)) I2C_SR1_ERRORS = 0) /\
  Z.land (sr1_in (n + 2 * k)) I2C_SR1_BTF <> 0.

(** From status read [n] on, the BTF wait of oled_prep_buffer sees [k]
    rounds without BTF and without error, then a round in which BTF is
    still clear and an error flag is up. *)
Definition error_before_btf (n k : nat) : Prop :=
  (forall j, (j < k)%nat ->
     Z.land (sr1_in (n + 2 * j)) I2C_SR1_BTF = 0 /\
     Z.land (sr1_in (n + 2 * j + 1)) I2C_SR1_ERRORS = 0) /\
  Z.land (sr1_in (n + 2 * k)) I2C_SR1_BTF = 0 /\
  Z.land (sr1_in (n + 2 * k + 1)) I2C_SR1_ERRORS <> 0.

(** From poll [n] on, CR1.STOP reads set [k] times, then clear. *)
Definition stop_clears_after (n k : nat) : Prop :=
  (forall j, (j < k)%nat -> stop_in (n + j) = true) /\ stop_in (n + k) = false.

End HardwareBehaviour.

(** A bus on which the first BTF wait sees an error flag (SR1.BERR) with
    BTF clear. *)
Definition bus_error_world : world :=
  example_world [0; 0x100] 0x7 (fun k => 0xffffff - Z.of_nat k) [] [] (fun _ => 1%nat).

(** A bitmap-mode driver showing "HELLO", at the start of a frame. *)
Definition oled_hello_state : state := set_i2c_addr OLED_ADDR hello_state.

(** [m] never trips an ASSERT(). *)
Definition nofail {A} (m : M A) : Prop := forall s, m s <> AssertFail.

Section EngineVocabulary.
Context `{hal}.

(** The value dma_start stores in the channel's configuration register:
    the channel is enabled. *)
Definition DMA_CCR_start : Z :=
  Z.lor DMA_CCR_MSIZE_8BIT
    (Z.lor DMA_CCR_PSIZE_16BIT
       (Z.lor DMA_CCR_MINC
          (Z.lor DMA_CCR_DIR_M2P (Z.lor DMA_CCR_TCIE DMA_CCR_EN)))).

(** The state once the completion handler has acknowledged the transfer:
    channel disabled, its interrupt flags cleared. *)
Definition dma_acknowledged (s : state) : state :=
  set_log (Ev_reg_write DMA1_IFCR (DMA_IFCR_CGIF 4)
           :: Ev_reg_write DMA1_CH4_CCR 0 :: log s)
    (set_regs (<[DMA1_IFCR := DMA_IFCR_CGIF 4]>
                 (<[DMA1_CH4_CCR := 0]> (regs s))) s).

End EngineVocabulary.

Section EngineRestart.
Context `{hal} `{world}.

(** What dma_start leaves behind when the completion handler calls it
    with length [sz] in the serializer's final state [s1]: the channel
    programmed with the buffer and that length and enabled, the watchdog
    set to 200 ms from the clock reading, nothing else done since [s1]. *)
Definition dma_restarted (sz : Z) (s1 s' : state) : Prop :=
  regs s' DMA1_CH4_CNDTR = sz /\
  regs s' DMA1_CH4_CCR = DMA_CCR_start /\
  timeout_timer s' = Some (stk_add (now_in (n_now s1)) (stk_ms 200)) /\
  log s' = Ev_timer_set (stk_add (now_in (n_now s1)) (stk_ms 200))
           :: Ev_reg_write DMA1_CH4_CCR DMA_CCR_start
           :: Ev_reg_write DMA1_CH4_CNDTR sz
           :: Ev_reg_write DMA1_CH4_CMAR addr_of_buffer :: log s1.

End EngineRestart.

(** A bitmap-mode driver whose frame is complete (cursor 2), watchdog not
    pending. *)
Definition oled_frame_done_state : state := set_oled_row 2 oled_hello_state.

(** A character-mode driver showing "HELLO". *)
Definition lcd_hello_state : state := set_i2c_addr 0x27 hello_state.

(** Events only the bus check and the detector produce: the weak
    pull-down configuration of the floating-bus check, its "Invalid bus"
    report, and the detector's report line. *)
Definition detection_event (e : event) : bool :=
  match e with
  | Ev_gpio_configure_pin _ GPI_pull_down => true
  | Ev_printk fmt _ =>
      bool_decide (fmt = "I2C: Invalid bus\n"%string) ||
      bool_decide (fmt = "I2C: %s\n"%string) ||
      bool_decide (fmt = "I2C: %s found at 0x%02x\n"%string)
  | _ => false
  end.

(** Events of the failure teardown of lcd_init. *)
Definition teardown_event (e : event) : bool :=
  match e with
  | Ev_IRQx_disable _ => true
  | Ev_gpio_configure_pin _ GPI_pull_up => true
  | _ => false
  end.

(** [s'] extends the log of [s] by events that all satisfy [P]. *)
Definition log_extends (P : event -> Prop) (s s' : state) : Prop :=
  exists new, log s' = new ++ log s /\ Forall P new.

(** The bus-dead flag is sticky. *)
Definition dead_sticky (s s' : state) : Prop :=
  i2c_dead s = true -> i2c_dead s' = true.

(** Text buffer and stored address untouched, bus-dead flag not cleared,
    log extended by [P]-events. *)
Definition steady_with (P : event -> Prop) (s s' : state) : Prop :=
  text s' = text s /\ i2c_addr s' = i2c_addr s /\ dead_sticky s s' /\
  log_extends P s s'.

Section WaitVocabulary.
Context `{hal} `{world}.

(** The ways a synchronous wait for the status bits [m], entered in state
    [s], can end in state [s'].  The wait saw the status: its last read of
    SR1 had all the bits of [m]. *)
Definition status_observed (m : Z) (s s' : state) : Prop :=
  exists k, n_sr1 s' = S k /\ (n_sr1 s <= k)%nat /\ Z.land (sr1_in k) m = m.

(** The controller reported an error: the wait's last test of SR1 found an
    error flag, and the wait cleared the error flags and left at once. *)
Definition error_reported (s s' : state) : Prop :=
  exists k, n_sr1 s' = S (S (S k)) /\ (n_sr1 s <= k)%nat /\
    Z.land (sr1_in (S k)) I2C_SR1_ERRORS <> 0 /\
    log s' = Ev_reg_write I2C_SR1
               (Z.land (sr1_in (S (S k))) (Z.lnot I2C_SR1_ERRORS)) :: log s.

(** The wait ran past its bound: its last reading of the clock was more
    than 10 ms after the reading [t] it started with. *)
Definition bound_exceeded (t : Z) (s s' : state) : Prop :=
  exists k, n_now s' = S k /\ (n_now s <= k)%nat /\
    stk_diff t (now_in k) > stk_ms 10.

Definition wait_outcome (m t : Z) (s : state) (ok : bool) (s' : state) : Prop :=
  (ok = true /\ status_observed m s s' /\ i2c_dead s' = i2c_dead s) \/
  (ok = false /\ error_reported s s' /\ i2c_dead s' = i2c_dead s) \/
  (ok = false /\ bound_exceeded t s s' /\ i2c_dead s' = true).

(** The clock passes the 10 ms bound after at most [n] further readings. *)
Definition clock_passes (t : Z) (from n : nat) : Prop :=
  exists k, (k < n)%nat /\ stk_diff t (now_in (from + k)) > stk_ms 10.

(** The address scan as the specification words it: the candidates are
    probed in order, the first that acknowledges is kept, and nothing more
    is probed once the bus is marked dead. *)
Fixpoint probe_first (cands : list Z) : M Z :=
  match cands with
  | [] => ret 0
  | a :: rest =>
      dead <- gets i2c_dead ;;
      if dead then ret 0
      else
        ok <- i2c_probe a ;;
        if ok then ret a else probe_first rest
  end.

End WaitVocabulary.

(** The addresses the scan tries, in order. *)
Definition scan_candidates : list Z := seqZ 0x20 8 ++ seqZ 0x38 8.

(** The bus-dead flag is unchanged. *)
Definition dead_same (s s' : state) : Prop := i2c_dead s' = i2c_dead s.

Section InitVocabulary.
Context `{hal}.

(** The detector's report of a device at address [a]: address 0x3c is the
    bitmap controller, any other the character controller. *)
Definition found_report (a : Z) : event :=
  Ev_printk "I2C: %s found at 0x%02x\n"
            [arg_str (if a =? OLED_ADDR then "OLED" else "LCD"); arg_int a].

(** The failure teardown, newest event first; [cr1] and [apb] are the
    register values it starts from. *)
Definition teardown_events (cr1 apb : Z) : list event :=
  [ Ev_reg_write RCC_APB1ENR (Z.land apb (Z.lnot RCC_APB1ENR_I2C2EN));
    Ev_gpio_configure_pin SDA GPI_pull_up;
    Ev_gpio_configure_pin SCL GPI_pull_up;
    Ev_reg_write I2C_CR1 (Z.land cr1 (Z.lnot I2C_CR1_PE));
    Ev_IRQx_disable DMA1_CH4_IRQ;
    Ev_IRQx_disable I2C_ERROR_IRQ ].

(** The safe idle state a failed first initialization leaves: bus-error
    and DMA interrupts disabled, controller and its clock disabled, both
    pins weak pull-up inputs; the teardown was the last thing done. *)
Definition torn_down (s' : state) : Prop :=
  irq_en s' I2C_ERROR_IRQ = false /\ irq_en s' DMA1_CH4_IRQ = false /\
  Z.land (regs s' I2C_CR1) I2C_CR1_PE = 0 /\
  Z.land (regs s' RCC_APB1ENR) RCC_APB1ENR_I2C2EN = 0 /\
  pin_cfg s' SCL = GPI_pull_up /\ pin_cfg s' SDA = GPI_pull_up /\
  exists cr1 apb, firstn 6 (log s') = teardown_events cr1 apb.

(** The driver is armed to retry: event, error and DMA interrupts enabled
    (the error interrupt also in the controller), controller and clock
    enabled, both pins on the alternate function, watchdog timer set. *)
Definition armed (s' : state) : Prop :=
  irq_en s' I2C_EVENT_IRQ = true /\ irq_en s' I2C_ERROR_IRQ = true /\
  irq_en s' DMA1_CH4_IRQ = true /\
  Z.land (regs s' I2C_CR1) I2C_CR1_PE = I2C_CR1_PE /\
  Z.land (regs s' I2C_CR2) I2C_CR2_ITERREN = I2C_CR2_ITERREN /\
  Z.land (regs s' RCC_APB1ENR) RCC_APB1ENR_I2C2EN = RCC_APB1ENR_I2C2EN /\
  pin_cfg s' SCL = AFO_opendrain_2MHz /\ pin_cfg s' SDA = AFO_opendrain_2MHz /\
  exists deadline, timeout_timer s' = Some deadline.

Definition stays_armed (s s' : state) : Prop := armed s -> armed s'.

(** Registers, interrupt enables and watchdog timer untouched. *)
Definition regs_same (s s' : state) : Prop :=
  regs s' = regs s /\ irq_en s' = irq_en s /\ timeout_timer s' = timeout_timer s.

End InitVocabulary.

(** All 32 cells hold a space. *)
Definition blank_text : list Z := replicate 32 32.

(** An event that is neither of the bus check or the detector nor of the
    teardown. *)
Definition routine_event (e : event) : Prop :=
  detection_event e = false /\ teardown_event e = false.

(** A bus that never answers: no status flag ever comes up, no error is
    reported, and the clock moves 50000 ticks (about 5.5 ms) between two
    readings. *)
Definition stuck_bus_world : world :=
  example_world [] 0 (fun k => 0xffffff - 50000 * Z.of_nat k) [] [] (fun _ => 1%nat).

(** A driver before its first initialization whose bus was already found
    dead. *)
Definition dead_bus_state : state := set_i2c_dead true reset_state.

(** What the bitmap renderer shows for character code [ch]: itself when
    it is printable ASCII (0x20..0x7e), a full stop otherwise. *)
Definition shown_char (ch : Z) : Z :=
  if (0x20 <=? ch) && (ch <=? 0x7e) then ch else 46.

(** A bitmap-mode driver whose text starts with two unprintable bytes. *)
Definition oled_odd_state : state :=
  set_text ([7; 200] ++ cstr "LLO" ++ replicate 27 32) oled_hello_state.

(** DMA-completion interrupts served up to and including the [k]-th poll
    of a wait that starts at interrupt slot [from]. *)
Fixpoint runs_upto `{world} (from k : nat) : Z :=
  match k with
  | O => Z.of_nat (irq_in from)
  | S k' => runs_upto from k' + Z.of_nat (irq_in (from + S k'))
  end.

(** A character-mode driver showing "HELLO" with the backlight on. *)
Definition lcd_lit_state : state := set__bl _BL lcd_hello_state.

(** Stores to the I2C data register and busy-wait delays: what a device
    on the bus sees of a synchronous sequence, and when. *)
Definition bus_op (e : event) : bool :=
  match e with
  | Ev_reg_write I2C_DR _ => true
  | Ev_delay_us _ => true
  | _ => false
  end.

(** Between [s] and [s'] the bus operations were exactly [ops], in this
    order (the log holds the newest event first). *)
Definition bus_ops (ops : list event) (s s' : state) : Prop :=
  exists new, log s' = new ++ log s /\ List.filter bus_op new = rev ops.

(** Nothing was put on the bus: the log grew by events that are no bus
    operations. *)
Definition quiet_on_bus (s s' : state) : Prop :=
  log_extends (fun e => bus_op e = false) s s'.

(** [m] performs exactly the bus operations [ops]. *)
Definition emits {A} (m : M A) (ops : list event) : Prop :=
  forall s, post m s (fun _ s' => bus_ops ops s s').

(** The three stores of write4: the nibble, the nibble with EN, the
    nibble. *)
Definition nibble_ops (val : Z) : list event :=
  [ Ev_reg_write I2C_DR val; Ev_reg_write I2C_DR (Z.lor val _EN);
    Ev_reg_write I2C_DR val ].

(** The synchronous part of the HD44780 start-up as the datasheet has it
    for the 4-bit interface: address the device, then function-set nibble
    3 three times (waiting 4.1 ms after the first and 100 us after the
    second) and the nibble 2 that selects 4-bit mode. *)
Definition hd44780_start_ops (a : Z) : list event :=
  Ev_reg_write I2C_DR (Z.shiftl (u8 a) 1) ::
  nibble_ops 0x30 ++ [Ev_delay_us 4100] ++
  nibble_ops 0x30 ++ [Ev_delay_us 100] ++
  nibble_ops 0x30 ++ nibble_ops 0x20.

(** A bus whose lines read low on the first two pin reads. *)
Definition floating_bus_world : world :=
  example_world [] 0x7 (fun k => 0xffffff - Z.of_nat k) [false; false] []
                (fun _ => 1%nat).

(** * Properties *)

(** ** The monad *)

Lemma post_ret {A} (a : A) s (Q : A -> state -> Prop) :
  Q a s -> post (ret a) s Q.
Proof. exact id. Qed.

Lemma post_bind {A B} (m : M A) (k : A -> M B) s (Q : B -> state -> Prop) :
  post m s (fun a s' => post (k a) s' Q) -> post (bind m k) s Q.
Proof. unfold post, bind. destruct (m s); auto. Qed.

Lemma post_mono {A} (m : M A) s (Q Q' : A -> state -> Prop) :
  post m s Q -> (forall a s', Q a s' -> Q' a s') -> post m s Q'.
Proof. unfold post. destruct (m s); auto. Qed.

Lemma post_conj {A} (m : M A) s (Q Q' : A -> state -> Prop) :
  post m s Q -> post m s Q' -> post m s (fun a s' => Q a s' /\ Q' a s').
Proof. unfold post. destruct (m s); auto. Qed.

Lemma post_Done {A} (m : M A) s (Q : A -> state -> Prop) a s' :
  post m s Q -> m s = Done a s' -> Q a s'.
Proof. unfold post. intros HQ E. now rewrite E in HQ. Qed.

Lemma post_intro {A} (m : M A) s (Q : A -> state -> Prop) :
  (forall a s', m s = Done a s' -> Q a s') -> post m s Q.
Proof. unfold post. destruct (m s); auto. Qed.

Lemma bind_Done {A B} (m : M A) (k : A -> M B) s b s'' :
  bind m k s = Done b s'' ->
  exists a s', m s = Done a s' /\ k a s' = Done b s''.
Proof. unfold bind. destruct (m s) as [a s'| |]; try discriminate. eauto. Qed.

Lemma bind_eq {A B} (m : M A) (k : A -> M B) s a s' :
  m s = Done a s' -> bind m k s = k a s'.
Proof. unfold bind. now intros ->. Qed.

(** ** The character-mode serializer *)

Ltac st_unfold :=
  unfold set__bl, set_i2c_addr, set_i2c_dead, set_refresh_count, set_buffer,
    set_text, set_oled_row, set_timeout_timer, set_regs, set_irq_en,
    set_pin_cfg, set_log, set_n_sr1, set_n_now, set_n_pin, set_n_stop,
    set_n_irq.

Ltac st_simpl :=
  st_unfold;
  cbn [_bl i2c_addr i2c_dead refresh_count buffer text oled_row timeout_timer
       regs irq_en pin_cfg log n_sr1 n_now n_pin n_stop n_irq].

Lemma state_eta s :
  mkState (_bl s) (i2c_addr s) (i2c_dead s) (refresh_count s) (buffer s)
          (text s) (oled_row s) (timeout_timer s) (regs s) (irq_en s)
          (pin_cfg s) (log s) (n_sr1 s) (n_now s) (n_pin s) (n_stop s)
          (n_irq s) = s.
Proof. now destruct s. Qed.

Lemma writes_ret : writes (fun q => ret q) (fun _ => []).
Proof.
  intros q s. unfold ret. cbn. f_equal; [lia|]. st_simpl. now rewrite state_eta.
Qed.

Lemma writes_bind m k f g :
  writes m f -> writes k g -> buffer_blind g ->
  writes (fun q => q' <- m q ;; k q') (fun s => f s ++ g s).
Proof.
  intros Hm Hk Hg q s. unfold bind. rewrite Hm, Hk, Hg.
  rewrite length_app. f_equal; [lia|].
  rewrite list_inserts_app_l. st_simpl. do 2 f_equal. lia.
Qed.

Lemma writes_gets {A} (g : state -> A) (m : A -> nat -> M nat) f :
  (forall c, writes (m c) (f c)) ->
  writes (fun q => c <- gets g ;; m c q) (fun s => f (g s) s).
Proof. intros Hm q s. unfold bind, gets. apply Hm. Qed.

Lemma buffer_blind_flat_map {A} (f : A -> state -> list Z) idx :
  (forall i, buffer_blind (f i)) ->
  buffer_blind (fun s => flat_map (fun i => f i s) idx).
Proof.
  intros Hf b s. induction idx as [|j idx IH]; cbn; [easy|].
  now rewrite Hf, IH.
Qed.

Lemma writes_for (body : Z -> nat -> M nat) f idx :
  (forall i, writes (body i) (f i)) -> (forall i, buffer_blind (f i)) ->
  writes (for_ idx body) (fun s => flat_map (fun i => f i s) idx).
Proof.
  intros Hb Hf. induction idx as [|i idx IH].
  - apply writes_ret.
  - intros q s. cbn [for_ flat_map].
    exact (writes_bind (body i) (for_ idx body) (f i)
             (fun s => flat_map (fun i => f i s) idx) (Hb i) IH
             (buffer_blind_flat_map f idx Hf) q s).
Qed.

Lemma emit4_spec p val s :
  emit4 p val s =
  Done (p + 3)%nat (set_buffer (list_inserts p (emit4_bytes val) (buffer s)) s).
Proof.
  unfold emit4, emit4_bytes, poke, modify, bind, ret, set_buffer; cbn.
  replace (S (S (S p))) with (p + 3)%nat by lia.
  do 2 f_equal.
  rewrite (list_insert_insert_ne _ (S (S p)) (S p)) by lia.
  rewrite (list_insert_insert_ne _ (S (S p)) p) by lia.
  rewrite (list_insert_insert_ne _ (S p) p) by lia.
  reflexivity.
Qed.

Lemma writes_emit4 val : writes (fun q => emit4 q val) (fun _ => emit4_bytes val).
Proof. intros q s. apply emit4_spec. Qed.

Lemma writes_emit8 val signals :
  writes (fun q => emit8 q val signals) (fun s => emit8_bytes (_bl s) val signals).
Proof.
  intros q s. unfold emit8.
  exact (writes_gets _bl
           (fun bl q =>
              p <- emit4 q (Z.lor (Z.land (u8 val) 240) (u8 (Z.lor (u8 signals) bl))) ;;
              emit4 p (Z.lor (Z.shiftl (u8 val) 4) (u8 (Z.lor (u8 signals) bl))))
           (fun bl _ => emit8_bytes bl val signals)
           (fun bl => writes_bind _ (fun p => emit4 p _) _ _
                        (writes_emit4 _) (writes_emit4 _) (fun _ _ => eq_refl))
           q s).
Qed.

Lemma lcd_frame_row_length s i : length (lcd_frame_row s i) = 102%nat.
Proof. reflexivity. Qed.

Lemma lcd_frame_length s : length (lcd_frame s) = 204%nat.
Proof. reflexivity. Qed.

Lemma writes_lcd_row i :
  writes (fun q => q <- emit8 q (Z.lor CMD_SETDDRADDR (i * 64)) 0 ;;
         for_ (seqZ 0 16) (fun j q =>
           c <- gets (text_at (16 * i + j)) ;;
           emit8 q c _RS) q) (fun s => lcd_frame_row s i).
Proof.
  unfold lcd_frame_row.
  apply (writes_bind _ (for_ (seqZ 0 16) _) _ _ (writes_emit8 _ _)).
  - apply (writes_for _ (fun j s => emit8_bytes (_bl s) (text_at (16 * i + j) s) _RS)).
    + intros j. apply (writes_gets (text_at (16 * i + j)) (fun c q => emit8 q c _RS)
                         (fun c s => emit8_bytes (_bl s) c _RS)).
      intros c. apply writes_emit8.
    + easy.
  - apply (buffer_blind_flat_map (fun j s => emit8_bytes (_bl s) (text_at (16 * i + j) s) _RS)). easy.
Qed.

Lemma lcd_prep_buffer_spec s :
  lcd_prep_buffer s =
  Done 204 (set_buffer (list_inserts 0 (lcd_frame s) (buffer s))
              (set_refresh_count (u8 (refresh_count s + 1)) s)).
Proof.
  unfold lcd_prep_buffer.
  unfold bind at 1, modify at 1.
  unfold bind at 1.
  rewrite (writes_for _ (fun i s => lcd_frame_row s i) _ writes_lcd_row).
  - unfold ret. 
    change (flat_map _ (seqZ 0 2)) with (lcd_frame (set_refresh_count (u8 (refresh_count s + 1)) s)).
    rewrite lcd_frame_length. reflexivity.
  - easy.
Qed.

Lemma list_inserts_0_splice {A} (k l : list A) :
  (length k <= length l)%nat ->
  list_inserts 0 k l = k ++ drop (length k) l.
Proof.
  intros Hlen. rewrite <- (take_drop (length k) l) at 1.
  apply list_inserts_0_r. rewrite length_take. lia.
Qed.


(** C4. The frame for "HELLO": address command 0x80, 'H' 'E' 'L' 'L' 'O'
    and 11 spaces with RS, address command 0x80|64, 16 spaces with RS; each
    byte as high nibble then low nibble, each nibble strobed three times,
    the backlight bit in every wire byte. *)
Theorem lcd_prep_buffer_hello s :
  text s = cstr "HELLO" ++ replicate 27 32 ->
  length (buffer s) = 256%nat ->
  _bl s = 0 \/ _bl s = _BL ->
  exists s',
    lcd_prep_buffer s = Done 204 s' /\
    take 204 (buffer s') =
      hd44780_frame (_bl s) (cstr "HELLO" ++ replicate 11 32) (replicate 16 32) /\
    drop 204 (buffer s') = drop 204 (buffer s).
Proof.
  intros Htext Hlen Hbl. rewrite lcd_prep_buffer_spec.
  eexists; split; [reflexivity|].
  cbn [buffer set_buffer].
  rewrite list_inserts_0_splice by (rewrite lcd_frame_length; lia).
  rewrite (lcd_frame_length s).
  rewrite take_app_length' by apply (lcd_frame_length s).
  rewrite drop_app_length' by apply (lcd_frame_length s).
  split; [|reflexivity].
  unfold lcd_frame, lcd_frame_row, text_at. st_simpl. rewrite Htext.
  destruct Hbl as [-> | ->]; vm_compute; reflexivity.
Qed.

Lemma lcd_prep_buffer_hello_witness :
  exists s',
    lcd_prep_buffer hello_state = Done 204 s' /\
    take 204 (buffer s') =
      hd44780_frame 0 (cstr "HELLO" ++ replicate 11 32) (replicate 16 32) /\
    drop 204 (buffer s') = drop 204 (buffer hello_state).
Proof.
  apply (lcd_prep_buffer_hello hello_state); [reflexivity | reflexivity | left; reflexivity].
Defined.

(** ** lcd_write *)

Lemma list_inserts_snoc_step {A} (i : nat) (x : A) k l :
  list_inserts (S i) k (<[i:=x]> l) = list_inserts i (x :: k) l.
Proof. cbn. now rewrite list_insert_inserts_lt by lia. Qed.

Lemma list_inserts_splice {A} (i : nat) (k l : list A) :
  (i + length k <= length l)%nat ->
  list_inserts i k l = take i l ++ k ++ drop (i + length k) l.
Proof.
  intros Hlen. rewrite <- (take_drop i l) at 1.
  replace i with (length (take i l) + 0)%nat at 1 by (rewrite length_take; lia).
  rewrite list_inserts_app_r. f_equal.
  rewrite list_inserts_0_splice by (rewrite length_drop; lia).
  now rewrite drop_drop.
Qed.

Lemma int_wrap_id x : int_min <= x <= int_max -> int_wrap x = x.
Proof.
  intros Hx. unfold int_wrap, int_min, int_max in *. rewrite Z.mod_small; lia.
Qed.

Lemma int_wrap_range x : int_min <= int_wrap x <= int_max.
Proof.
  unfold int_wrap, int_min, int_max.
  pose proof (Z.mod_pos_bound (x - - 2 ^ 31) (2 ^ 32) ltac:(lia)). lia.
Qed.

Lemma int_wrap_sub x y : int_wrap (int_wrap x - y) = int_wrap (x - y).
Proof.
  unfold int_wrap. f_equal.
  replace ((x - int_min) mod 2 ^ 32 + int_min - y - int_min)
    with ((x - int_min) mod 2 ^ 32 - y) by lia.
  rewrite Zminus_mod_idemp_l. f_equal. lia.
Qed.

(* The copy loop on a string that fits before column 16. *)
Lemma lcd_write_copy_spec str : forall col min p s,
  Forall (fun c => c <> 0) str ->
  int_min <= col -> col + Z.of_nat (length str) <= 16 ->
  int_min <= min <= int_max ->
  0 <= p ->
  lcd_write_copy str col min p s =
  Done (col + Z.of_nat (length str), int_wrap (min - Z.of_nat (length str)),
        p + Z.of_nat (length str))
       (set_text (list_inserts (Z.to_nat p) str (text s)) s).
Proof.
  induction str as [|c str IH]; intros col min p s Hnz Hlo Hcol Hmin Hp.
  - cbn. unfold ret. rewrite !Z.add_0_r, Z.sub_0_r, int_wrap_id by exact Hmin.
    st_simpl. now rewrite state_eta.
  - cbn [lcd_write_copy]. inversion Hnz as [|? ? Hc Hnz']; subst.
    cbn [length] in *.
    destruct (Z.eqb_spec c 0) as [|_]; [contradiction|].
    destruct (Z.ltb_spec col 16) as [_|]; [|lia].
    unfold bind, poke_text, modify.
    destruct (Z.leb_spec 0 p) as [_|]; [|lia].
    rewrite (int_wrap_id (col + 1)) by (unfold int_min, int_max in *; lia).
    rewrite IH by (auto using int_wrap_range; lia).
    rewrite int_wrap_sub.
    f_equal; [f_equal; [f_equal|]; try lia; f_equal; lia|].
    st_simpl. f_equal.
    replace (Z.to_nat (p + 1)) with (S (Z.to_nat p)) by lia.
    apply list_inserts_snoc_step.
Qed.

(* The copy loop on a string that reaches column 16: it stops there. *)
Lemma lcd_write_copy_full str : forall col min p s,
  Forall (fun c => c <> 0) str ->
  int_min <= col <= 16 -> 16 - col < Z.of_nat (length str) ->
  int_min <= min <= int_max ->
  0 <= p ->
  lcd_write_copy str col min p s =
  Done (17, int_wrap (min - (16 - col)), p + (16 - col))
       (set_text (list_inserts (Z.to_nat p) (take (Z.to_nat (16 - col)) str)
                    (text s)) s).
Proof.
  induction str as [|c str IH]; intros col min p s Hnz Hcol Hlen Hmin Hp.
  - cbn [length] in Hlen. lia.
  - cbn [lcd_write_copy]. inversion Hnz as [|? ? Hc Hnz']; subst.
    cbn [length] in Hlen.
    destruct (Z.eqb_spec c 0) as [|_]; [contradiction|].
    destruct (Z.ltb_spec col 16) as [Hlt|Hge].
    + unfold bind, poke_text, modify.
      destruct (Z.leb_spec 0 p) as [_|]; [|lia].
      rewrite (int_wrap_id (col + 1)) by (unfold int_min, int_max in *; lia).
      rewrite IH by (auto using int_wrap_range; lia).
      rewrite int_wrap_sub.
      f_equal; [f_equal; [f_equal|]; try lia; f_equal; lia|].
      st_simpl. f_equal.
      replace (Z.to_nat (p + 1)) with (S (Z.to_nat p)) by lia.
      replace (Z.to_nat (16 - col)) with (S (Z.to_nat (16 - (col + 1)))) by lia.
      cbn [take]. apply list_inserts_snoc_step.
    + assert (col = 16) by lia. subst col. unfold ret.
      change (int_wrap (16 + 1)) with 17. cbn [Z.sub Z.opp Z.add Z.pos_sub Z.to_nat take].
      rewrite Z.add_0_r, Z.sub_0_r, int_wrap_id by exact Hmin.
      st_simpl. now rewrite state_eta.
Qed.

Lemma lcd_write_pad_spec fuel : forall col min p s,
  (Z.to_nat (pad_count col min) < fuel)%nat ->
  int_min <= col -> min <= int_max -> 0 <= p ->
  exists col' min',
  lcd_write_pad fuel col min p s =
  Done (col', min', p + pad_count col min)
       (set_text (list_inserts (Z.to_nat p)
                    (replicate (Z.to_nat (pad_count col min)) 32) (text s)) s).
Proof.
  induction fuel as [|fuel IH]; intros col min p s Hfuel Hcol Hmin Hp; [lia|].
  cbn [lcd_write_pad]. unfold pad_count in *.
  destruct (Z.gtb_spec min 0) as [Hpos|Hpos].
  - destruct (Z.ltb_spec col 16) as [Hc|Hc].
    + unfold bind, poke_text, modify.
      destruct (Z.leb_spec 0 p) as [_|]; [|lia].
      rewrite (int_wrap_id (col + 1)), (int_wrap_id (min - 1))
        by (unfold int_min, int_max in *; lia).
      destruct (IH (col + 1) (min - 1) (p + 1) (set_text (<[Z.to_nat p:=32]> (text s)) s))
        as (col' & min' & ->); try lia.
      exists col', min'.
      f_equal; [f_equal; lia|]. st_simpl. f_equal.
      replace (Z.to_nat (p + 1)) with (S (Z.to_nat p)) by lia.
      rewrite list_inserts_snoc_step.
      replace (Z.to_nat (Z.max 0 (Z.min min (16 - col))))
        with (S (Z.to_nat (Z.max 0 (Z.min (min - 1) (16 - (col + 1)))))) by lia.
      reflexivity.
    + eexists _, _. unfold ret.
      replace (Z.max 0 (Z.min min (16 - col))) with 0 by lia.
      cbn. rewrite Z.add_0_r. st_simpl. now rewrite state_eta.
  - eexists _, _. unfold ret.
    replace (Z.max 0 (Z.min min (16 - col))) with 0 by lia.
    cbn. rewrite Z.add_0_r. st_simpl. now rewrite state_eta.
Qed.

(* Both loops, for a string of any length: [n] characters are copied, the
   width still owed is [min - n] in [int] arithmetic. *)
Lemma lcd_write_loops_spec col row min str s :
  int_min <= col <= 16 -> 0 <= 16 * row + col ->
  int_min <= min <= int_max ->
  Forall (fun c => c <> 0) str ->
  let start := 16 * row + col in
  let n := Z.min (Z.of_nat (length str)) (16 - col) in
  let npad := pad_count (col + n) (int_wrap (min - n)) in
  exists col' min',
    lcd_write_loops col row min str s =
    Done (col', min', start + n + npad)
         (set_text (list_inserts (Z.to_nat start)
                      (take (Z.to_nat n) str ++ replicate (Z.to_nat npad) 32)
                      (text s)) s).
Proof.
  intros Hcol Hp Hmin Hnz start n npad.
  assert (Hn : 0 <= n <= 16 - col) by (unfold n; lia).
  pose proof (int_wrap_range (min - n)) as Hw.
  unfold lcd_write_loops, bind.
  destruct (Z.le_gt_cases (Z.of_nat (length str)) (16 - col)) as [Hshort|Hlong].
  - assert (En : n = Z.of_nat (length str)) by (unfold n; lia).
    rewrite lcd_write_copy_spec by (auto; lia).
    fold (pad_count (col + Z.of_nat (length str))
            (int_wrap (min - Z.of_nat (length str)))).
    rewrite <- En. fold npad.
    destruct (lcd_write_pad_spec (S (Z.to_nat npad)) (col + n) (int_wrap (min - n))
                (start + n)
                (set_text (list_inserts (Z.to_nat start) str (text s)) s))
      as (col' & min' & E); try lia.
    fold npad in E. fold start. rewrite E. exists col', min'. f_equal.
    st_simpl. f_equal.
    rewrite list_inserts_app_l, En, Nat2Z.id, firstn_all. f_equal. lia.
  - assert (En : n = 16 - col) by (unfold n; lia).
    rewrite lcd_write_copy_full by (auto; lia).
    rewrite <- En. fold start.
    assert (Enp : npad = 0) by (unfold npad, pad_count; lia).
    destruct (lcd_write_pad_spec
                (S (Z.to_nat (Z.max 0 (Z.min (int_wrap (min - n)) (16 - 17)))))
                17 (int_wrap (min - n)) (start + n)
                (set_text (list_inserts (Z.to_nat start) (take (Z.to_nat n) str)
                             (text s)) s))
      as (col' & min' & E); try (unfold int_min, pad_count in *; lia).
    rewrite E. exists col', min'.
    replace (pad_count 17 (int_wrap (min - n))) with 0
      by (unfold pad_count; lia).
    rewrite Enp, Z.add_0_r. f_equal. st_simpl. f_equal.
    cbn [Z.to_nat replicate]. now rewrite app_nil_r.
Qed.



(** ** The bitmap-mode serializer *)

(** Symbolic execution of straight-line code: call-by-value evaluation of
    the monad, the primitive accesses and the record updates, leaving
    arithmetic and list operations alone. *)
Ltac run :=
  cbv beta iota zeta delta
    [bind ret gets modify spin ASSERT when
     timeout_fn lcd_backlight timer_init timer_set timer_cancel
     IRQx_set_prio IRQx_clear_pending IRQx_set_pending IRQx_enable
     IRQx_disable IRQ_save IRQ_restore gpio_configure_pin gpio_write_pin
     gpio_read_pin delay_us printk cpu_relax read_sr1 read_sr2 poll_cr1
     stk_now reg_read reg_write poke32 memcpy_font memset poke poke_text trace
     set__bl set_i2c_addr set_i2c_dead set_refresh_count set_buffer
     set_text set_oled_row set_timeout_timer set_regs set_irq_en
     set_pin_cfg set_log set_n_sr1 set_n_now set_n_pin set_n_stop set_n_irq
     _bl i2c_addr i2c_dead refresh_count buffer text oled_row timeout_timer
     regs irq_en pin_cfg log n_sr1 n_now n_pin n_stop n_irq].

Ltac refold s :=
  fold (_bl s) (i2c_addr s) (i2c_dead s) (refresh_count s) (buffer s)
       (text s) (oled_row s) (timeout_timer s) (regs s) (irq_en s)
       (pin_cfg s) (log s) (n_sr1 s) (n_now s) (n_pin s) (n_stop s)
       (n_irq s).

Ltac exec := run; repeat match goal with s : state |- _ => progress refold s end.

Section Oled.
Context `{hal} `{world}.

Lemma writes_cmd_pair c :
  writes (fun p => poke p 0x80 ;;; let p := S p in
                   poke p c ;;; let p := S p in ret p)
         (fun _ => [0x80; c]).
Proof.
  intros q s. unfold poke, modify, bind, ret. st_simpl.
  replace (S (S q)) with (q + length [128%Z; c])%nat by (cbn; lia).
  do 2 f_equal. cbn.
  now rewrite (list_insert_insert_ne _ (S q) q) by lia.
Qed.

Lemma oled_start_i2c_spec buf s :
  oled_start_i2c buf s =
  Done 19
    (set_log (Ev_reg_write I2C_CR1 (Z.lor (regs s I2C_CR1) I2C_CR1_START)
              :: Ev_reg_write I2C_CR2 (Z.lor (regs s I2C_CR2) I2C_CR2_ITEVTEN)
              :: log s)
       (set_regs (<[I2C_CR1 := Z.lor (regs s I2C_CR1) I2C_CR1_START]>
                    (<[I2C_CR2 := Z.lor (regs s I2C_CR2) I2C_CR2_ITEVTEN]> (regs s)))
          (set_oled_row 0
             (set_buffer (list_inserts buf (readdress_cmds (_bl s)) (buffer s)) s)))).
Proof.
  unfold oled_start_i2c. unfold bind at 1.
  rewrite (writes_for _ (fun c _ => [0x80; c]) setup_addr_cmds writes_cmd_pair)
    by easy.
  cbn [flat_map setup_addr_cmds app length].
  exec. f_equal; [lia|]. do 2 f_equal.
  change (readdress_cmds (_bl s)) with
    ([128; 32; 128; 0; 128; 33; 128; 0; 128; 127; 128; 34; 128; 0; 128; 3] ++
     [128; if _bl s =? 0 then 174 else 175; 64]).
  rewrite list_inserts_app_l. cbn [list_inserts length].
  replace (16 + buf)%nat with (buf + 16)%nat by lia.
  rewrite (list_insert_insert_ne _ (S (S (buf + 16))) (S (buf + 16))) by lia.
  rewrite (list_insert_insert_ne _ (S (S (buf + 16))) (buf + 16)) by lia.
  rewrite (list_insert_insert_ne _ (S (buf + 16)) (buf + 16)) by lia.
  now destruct (_bl s =? 0).
Qed.


End Oled.

Lemma list_inserts_commute {A} (i j : nat) (k k' l : list A) :
  (i + length k <= j)%nat ->
  list_inserts i k (list_inserts j k' l) = list_inserts j k' (list_inserts i k l).
Proof.
  revert i. induction k as [|x k IH]; intros i Hij; [reflexivity|].
  cbn [list_inserts length] in *.
  rewrite IH by lia. now rewrite list_insert_inserts_lt by lia.
Qed.

Lemma list_inserts_two_halves (top bot b : list Z) :
  length top = 128%nat -> length bot = 128%nat -> length b = 256%nat ->
  list_inserts 128 bot (list_inserts 0 top b) = top ++ bot.
Proof.
  intros Ht Hb Hl.
  rewrite list_inserts_0_splice by lia.
  replace 128%nat with (length top + 0)%nat at 1 by lia.
  rewrite list_inserts_app_r, list_inserts_0_splice by (rewrite length_drop; lia).
  f_equal. rewrite drop_drop, drop_ge by lia. apply app_nil_r.
Qed.

Lemma list_inserts_app_at {A} (i n : nat) (k1 k2 l : list A) :
  length k1 = n ->
  list_inserts (n + i) k2 (list_inserts i k1 l) = list_inserts i (k1 ++ k2) l.
Proof. intros <-. now rewrite list_inserts_app_l. Qed.

Section Oled2.
Context `{hal} `{world}.

Lemma list_32 (l : list Z) :
  length l = 32%nat -> l = map (fun k => nth k l 0) (seq 0 32).
Proof.
  intros Hl. apply nth_ext with (d := 0) (d' := 0); [now rewrite length_map, length_seq|].
  intros n Hn. rewrite Hl in Hn.
  do 32 (destruct n as [|n]; [reflexivity|]). lia.
Qed.


Lemma text_from_set_buffer pc n b s :
  text_from pc n (set_buffer b s) = text_from pc n s.
Proof. revert pc. induction n; intros pc; cbn; [easy|]. now rewrite IHn. Qed.

(** A loop that reads one character per round and stores a block for it in
    each of the two pages, [w] bytes further on every round. *)
Lemma for_two_cursor (w : nat) (off next : nat -> nat) (top bot : Z -> list Z)
    (body : Z -> Z * nat -> M (Z * nat)) :
  (forall c, length (top c) = w) -> (forall c, length (bot c) = w) ->
  (forall q, off (next q) = (off q + w)%nat) ->
  (forall i pc q s,
      body i (pc, q) s =
      Done (pc + 1, next q)
           (set_buffer (list_inserts (off q + 128) (bot (text_at pc s))
                          (list_inserts (off q) (top (text_at pc s)) (buffer s))) s)) ->
  forall idx pc q s,
    (off q + w * length idx <= 128)%nat ->
    exists q',
      off q' = (off q + w * length idx)%nat /\
      for_ idx body (pc, q) s =
      Done (pc + Z.of_nat (length idx), q')
        (set_buffer
           (list_inserts (off q + 128)
              (flat_map bot (text_from pc (length idx) s))
              (list_inserts (off q)
                 (flat_map top (text_from pc (length idx) s))
                 (buffer s))) s).
Proof.
  intros Htop Hbot Hnext Hbody idx.
  induction idx as [|i idx IH]; intros pc q s Hfit.
  - exists q. split; [cbn; lia|]. cbn. unfold ret. rewrite Z.add_0_r.
    st_simpl. now rewrite state_eta.
  - cbn [for_ length text_from flat_map] in *. unfold bind. rewrite Hbody.
    destruct (IH (pc + 1) (next q)
                (set_buffer (list_inserts (off q + 128) (bot (text_at pc s))
                   (list_inserts (off q) (top (text_at pc s)) (buffer s))) s))
      as (q' & Hq' & E).
    { rewrite Hnext. nia. }
    exists q'. split; [rewrite Hq', Hnext; nia|]. rewrite E.
    f_equal; [f_equal; lia|].
    rewrite text_from_set_buffer. st_simpl. f_equal.
    rewrite Hnext.
    rewrite !list_inserts_app_l, Htop, Hbot.
    replace (off q + w + 128)%nat with (w + (off q + 128))%nat by lia.
    replace (off q + w)%nat with (w + off q)%nat by lia.
    f_equal.
    apply list_inserts_commute.
    assert (length (flat_map top (text_from (pc + 1) (length idx) s)) = (w * length idx)%nat).
    { clear -Htop. generalize (pc + 1). induction (length idx); intros z; cbn; [lia|].
      rewrite length_app, Htop, IHn. nia. }
    nia.
Qed.

Lemma length_flat_map_const {A} (f : A -> list Z) (w : nat) l :
  (forall c, length (f c) = w) -> length (flat_map f l) = (w * length l)%nat.
Proof.
  intros Hf. induction l as [|c l IH]; cbn; [lia|].
  rewrite length_app, Hf, IH. nia.
Qed.

Lemma length_text_from pc n s : length (text_from pc n s) = n.
Proof. revert pc. induction n; intros pc; cbn; [easy|]. now rewrite IHn. Qed.

Lemma text_from_row s (r : nat) :
  (r < 2)%nat -> length (text s) = 32%nat ->
  text_from (16 * Z.of_nat r) 16 s = text_row s r.
Proof.
  intros Hr Ht. unfold text_row.
  destruct s as [bl a d rc b t row tm rg ie pc lg n1 n2 n3 n4 n5].
  cbn [text] in *. unfold text_from, text_at. cbn [text].
  rewrite (list_32 _ Ht). generalize (fun k => nth k t 0). intros tf.
  destruct r as [|[|r]]; [reflexivity|reflexivity|lia].
Qed.

Lemma oled_convert_text_row_8x16_spec s (r : nat) :
  (r < 2)%nat -> length (text s) = 32%nat -> length (buffer s) = 256%nat ->
  font_7x16 = false ->
  oled_convert_text_row_8x16 (16 * Z.of_nat r) s =
  Done tt (set_buffer (oled_row_image (text_row s r)) s).
Proof.
  intros Hr Ht Hb Hf. unfold oled_convert_text_row_8x16.
  pose (top := fun ch => le_bytes32 (oled_font_8x16 (glyph_index ch * 4)) ++
                         le_bytes32 (oled_font_8x16 (glyph_index ch * 4 + 1))).
  pose (bot := fun ch => le_bytes32 (oled_font_8x16 (glyph_index ch * 4 + 1 + 1)) ++
                         le_bytes32 (oled_font_8x16 (glyph_index ch * 4 + 1 + 1 + 1))).
  unfold bind at 1.
  assert (Hnext : forall q, (4 * S (S q) = 4 * q + 8)%nat) by (intros; lia).
  match goal with |- context [for_ _ ?body _ _] =>
    assert (Hbody : forall i pc q s,
      body i (pc, q) s =
      Done (pc + 1, S (S q))
           (set_buffer (list_inserts (4 * q + 128) (bot (text_at pc s))
                          (list_inserts (4 * q) (top (text_at pc s)) (buffer s))) s));
    [|destruct (for_two_cursor 8 (fun q => 4 * q)%nat (fun q => S (S q)) top bot body
                 (fun _ => eq_refl) (fun _ => eq_refl) Hnext Hbody
                 (seqZ 0 16) (16 * Z.of_nat r) 0%nat s) as (q' & Hq' & E);
      [|rewrite E; clear E]]
  end.
  - intros i pc q s0. exec. unfold top, bot. do 2 f_equal.
    rewrite !list_inserts_app_l. cbn [length le_bytes32].
    repeat (f_equal; try lia).
  - rewrite length_seqZ. cbn. lia.
  - unfold ret. f_equal. st_simpl. f_equal.
    rewrite length_seqZ. change (Z.to_nat 16) with 16%nat.
    change (4 * 0 + 128)%nat with 128%nat. change (4 * 0)%nat with 0%nat.
    rewrite list_inserts_two_halves; try assumption.
    + rewrite text_from_row by assumption.
      unfold oled_row_image, oled_page, glyph_half. rewrite Hf.
      cbn [replicate]. rewrite !app_nil_r. f_equal.
      * apply flat_map_ext. intros c. unfold top. change (seqZ 0 2) with [0; 1].
        cbn [flat_map]. rewrite app_nil_r. repeat (f_equal; try lia).
      * apply flat_map_ext. intros c. unfold bot. change (seqZ 0 2) with [0; 1].
        cbn [flat_map]. rewrite app_nil_r. repeat (f_equal; try lia).
    + rewrite (length_flat_map_const top 8) by easy. now rewrite length_text_from.
    + rewrite (length_flat_map_const bot 8) by easy. now rewrite length_text_from.
Qed.

Lemma oled_convert_text_row_7x16_spec s (r : nat) :
  (r < 2)%nat -> length (text s) = 32%nat -> length (buffer s) = 256%nat ->
  font_7x16 = true ->
  oled_convert_text_row_7x16 (16 * Z.of_nat r) s =
  Done tt (set_buffer (oled_row_image (text_row s r)) s).
Proof.
  intros Hr Ht Hb Hf. unfold oled_convert_text_row_7x16.
  pose (top := fun ch => map (fun k => u8 (oled_font_7x16 (glyph_index ch * 14 + k)))
                             (seqZ 0 7)).
  pose (bot := fun ch => map (fun k => u8 (oled_font_7x16 (glyph_index ch * 14 + 7 + k)))
                             (seqZ 0 7)).
  unfold bind at 1.
  match goal with |- context [for_ _ ?body _ _] =>
    assert (Hbody : forall i pc q s,
      body i (pc, q) s =
      Done (pc + 1, (q + 7)%nat)
           (set_buffer (list_inserts (q + 128) (bot (text_at pc s))
                          (list_inserts q (top (text_at pc s)) (buffer s))) s));
    [|destruct (for_two_cursor 7 (fun q => q) (fun q => q + 7)%nat top bot body
                 (fun _ => eq_refl) (fun _ => eq_refl) (fun q => eq_refl) Hbody
                 (seqZ 0 16) (16 * Z.of_nat r) 0%nat s) as (q' & Hq' & E);
      [|rewrite E; clear E]]
  end.
  - intros i pc q s0. exec. reflexivity.
  - rewrite length_seqZ. cbn. lia.
  - rewrite length_seqZ in Hq'. vm_compute in Hq'. subst q'.
    exec. f_equal. f_equal.
    change (112 + 128)%nat with 240%nat. change (0 + 128)%nat with 128%nat.
    rewrite length_seqZ. change (Z.to_nat 16) with 16%nat.
    set (TOP := flat_map top _). set (BOT := flat_map bot _).
    assert (HT : length TOP = 112%nat).
    { unfold TOP. rewrite (length_flat_map_const top 7) by easy. now rewrite length_text_from. }
    assert (HB : length BOT = 112%nat).
    { unfold BOT. rewrite (length_flat_map_const bot 7) by easy. now rewrite length_text_from. }
    change (u8 0) with 0.
    rewrite (list_inserts_commute 112 128) by (rewrite length_replicate; lia).
    rewrite (list_inserts_app_at 128 112 BOT) by exact HB.
    rewrite (list_inserts_app_at 0 112 TOP) by exact HT.
    rewrite list_inserts_two_halves;
      try (rewrite ?length_app, ?length_replicate; lia).
    subst TOP BOT. rewrite text_from_row by assumption.
    unfold oled_row_image, oled_page, glyph_half. rewrite Hf.
    f_equal; f_equal; apply flat_map_ext; intros c; unfold top, bot;
      apply map_ext; intros k; repeat (f_equal; try lia).
Qed.

Lemma oled_convert_text_row_spec s (r : nat) :
  (r < 2)%nat -> length (text s) = 32%nat -> length (buffer s) = 256%nat ->
  oled_convert_text_row (16 * Z.of_nat r) s =
  Done tt (set_buffer (oled_row_image (text_row s r)) s).
Proof.
  intros. unfold oled_convert_text_row. destruct font_7x16 eqn:Hf.
  - now apply oled_convert_text_row_7x16_spec.
  - now apply oled_convert_text_row_8x16_spec.
Qed.
End Oled2.

Section Oled3.
Context `{hal} `{world}.

Lemma oled_wait_btf_total k : forall fuel s,
  (k < fuel)%nat -> btf_after (n_sr1 s) k ->
  oled_wait_btf fuel s = Done true (set_n_sr1 (n_sr1 s + 2 * k + 1) s).
Proof.
  induction k as [|k IH]; intros fuel s Hk [Hno Hbtf];
    (destruct fuel as [|fuel]; [lia|]); cbn [oled_wait_btf]; exec.
  - replace (n_sr1 s + 2 * 0)%nat with (n_sr1 s) in Hbtf by lia.
    destruct (Z.eqb_spec (Z.land (sr1_in (n_sr1 s)) I2C_SR1_BTF) 0); [contradiction|].
    cbn [negb]. do 2 f_equal. lia.
  - destruct (Hno 0%nat) as [Ha Hb]; [lia|].
    replace (n_sr1 s + 2 * 0)%nat with (n_sr1 s) in Ha by lia.
    replace (n_sr1 s + 2 * 0 + 1)%nat with (S (n_sr1 s)) in Hb by lia.
    rewrite Ha. cbn [Z.eqb negb]. exec. rewrite Hb. cbn [Z.eqb negb].
    rewrite IH.
    + exec. do 2 f_equal. lia.
    + lia.
    + exec. split.
      * intros j Hj. destruct (Hno (S j)) as [Hc Hd]; [lia|].
        replace (S (S (n_sr1 s)) + 2 * j)%nat with (n_sr1 s + 2 * S j)%nat by lia.
        replace (S (S (n_sr1 s)) + 2 * j + 1)%nat with (n_sr1 s + 2 * S j + 1)%nat by lia.
        now split.
      * replace (S (S (n_sr1 s)) + 2 * k)%nat with (n_sr1 s + 2 * S k)%nat by lia.
        exact Hbtf.
Qed.

Lemma oled_wait_btf_error k : forall fuel s,
  (k < fuel)%nat -> error_before_btf (n_sr1 s) k ->
  oled_wait_btf fuel s = Done false (set_n_sr1 (n_sr1 s + 2 * k + 2) s).
Proof.
  induction k as [|k IH]; intros fuel s Hk (Hno & Hbtf & Herr);
    (destruct fuel as [|fuel]; [lia|]); cbn [oled_wait_btf]; exec.
  - replace (n_sr1 s + 2 * 0)%nat with (n_sr1 s) in Hbtf by lia.
    replace (n_sr1 s + 2 * 0 + 1)%nat with (S (n_sr1 s)) in Herr by lia.
    rewrite Hbtf. cbn [Z.eqb negb]. exec.
    destruct (Z.eqb_spec (Z.land (sr1_in (S (n_sr1 s))) I2C_SR1_ERRORS) 0);
      [contradiction|].
    cbn [negb]. do 2 f_equal. lia.
  - destruct (Hno 0%nat) as [Ha Hb]; [lia|].
    replace (n_sr1 s + 2 * 0)%nat with (n_sr1 s) in Ha by lia.
    replace (n_sr1 s + 2 * 0 + 1)%nat with (S (n_sr1 s)) in Hb by lia.
    rewrite Ha. cbn [Z.eqb negb]. exec. rewrite Hb. cbn [Z.eqb negb].
    rewrite IH.
    + exec. do 2 f_equal. lia.
    + lia.
    + exec. split; [|split].
      * intros j Hj. destruct (Hno (S j)) as [Hc Hd]; [lia|].
        replace (S (S (n_sr1 s)) + 2 * j)%nat with (n_sr1 s + 2 * S j)%nat by lia.
        replace (S (S (n_sr1 s)) + 2 * j + 1)%nat with (n_sr1 s + 2 * S j + 1)%nat by lia.
        now split.
      * replace (S (S (n_sr1 s)) + 2 * k)%nat with (n_sr1 s + 2 * S k)%nat by lia.
        exact Hbtf.
      * replace (S (S (n_sr1 s)) + 2 * k + 1)%nat with (n_sr1 s + 2 * S k + 1)%nat by lia.
        exact Herr.
Qed.

Lemma land_lnot_same a m : Z.land (Z.land a (Z.lnot m)) m = 0.
Proof.
  rewrite <- Z.land_assoc, (Z.land_comm (Z.lnot m)), Z.land_lnot_diag.
  apply Z.land_0_r.
Qed.

Lemma wait_stop_clear_total k : forall fuel s,
  (k < fuel)%nat -> stop_clears_after (n_stop s) k ->
  exists s', wait_stop_clear fuel s = Done tt s'.
Proof.
  induction k as [|k IH]; intros fuel s Hk [Hset Hclr];
    (destruct fuel as [|fuel]; [lia|]); cbn [wait_stop_clear]; exec.
  - replace (n_stop s + 0)%nat with (n_stop s) in Hclr by lia. rewrite Hclr.
    rewrite land_lnot_same. cbn [Z.eqb negb]. eauto.
  - match goal with |- context [Z.land ?v I2C_CR1_STOP =? 0] =>
      destruct (Z.land v I2C_CR1_STOP =? 0) end; cbn [negb]; [eauto|].
    apply IH; [lia|]. exec. split.
    + intros j Hj. replace (S (n_stop s) + j)%nat with (n_stop s + S j)%nat by lia.
      apply Hset. lia.
    + replace (S (n_stop s) + k)%nat with (n_stop s + S k)%nat by lia. exact Hclr.
Qed.

(** Cursor 0 or 1: one row of glyph data, 256 bytes, cursor advanced. *)
Lemma oled_prep_buffer_row s (r : nat) :
  oled_row s = Z.of_nat r -> (r < 2)%nat ->
  length (text s) = 32%nat -> length (buffer s) = 256%nat ->
  oled_prep_buffer s =
  Done 256 (set_buffer (oled_row_image (text_row s r))
              (set_oled_row (Z.of_nat r + 1) s)).
Proof.
  intros Hrow Hr Ht Hb. unfold oled_prep_buffer.
  unfold bind at 1, gets at 1. rewrite Hrow.
  destruct (Z.eqb_spec (Z.of_nat r) 2) as [E|_]; [lia|].
  unfold bind at 1, modify at 1. unfold bind at 1.
  replace (u8 (Z.of_nat r + 1)) with (Z.of_nat r + 1)
    by (destruct r as [|[|r]]; try lia; reflexivity).
  rewrite oled_convert_text_row_spec by assumption.
  reflexivity.
Qed.


(** With BTF arriving before any error flag and STOP clearing, both within
    the iteration budget, the third call returns. *)
Lemma oled_prep_buffer_wrap_total s k k' :
  oled_row s = 2 ->
  (k < spin_limit)%nat -> btf_after (n_sr1 s) k ->
  (k' < spin_limit)%nat -> stop_clears_after (n_stop s) k' ->
  exists s', oled_prep_buffer s = Done 19 s'.
Proof.
  intros Hrow Hk Hbtf Hk' Hstop. unfold oled_prep_buffer.
  unfold bind at 1, gets at 1. rewrite Hrow. cbn [Z.eqb Pos.eqb].
  unfold bind at 1, modify at 1. unfold bind at 1.
  rewrite (oled_wait_btf_total k) by assumption. cbn [negb].
  unfold bind at 1, reg_read at 1, gets at 1.
  unfold bind at 1, reg_write at 1, modify at 1.
  unfold bind at 1.
  edestruct (wait_stop_clear_total k') as (s2 & ->); [eassumption|exact Hstop|].
  rewrite oled_start_i2c_spec. eauto.
Qed.

(** With an error flag up while BTF is still clear, within the iteration
    budget, the third call bails: length 0, the counter bumped and only
    status reads consumed. *)
Lemma oled_prep_buffer_wrap_error s k :
  oled_row s = 2 ->
  (k < spin_limit)%nat -> error_before_btf (n_sr1 s) k ->
  oled_prep_buffer s =
  Done 0 (set_n_sr1 (n_sr1 s + 2 * k + 2)
            (set_refresh_count (u8 (refresh_count s + 1)) s)).
Proof.
  intros Hrow Hk Herr. unfold oled_prep_buffer.
  unfold bind at 1, gets at 1. rewrite Hrow. cbn [Z.eqb Pos.eqb].
  unfold bind at 1, modify at 1. unfold bind at 1.
  rewrite (oled_wait_btf_error k) by assumption. cbn [negb].
  reflexivity.
Qed.
End Oled3.




(** ** Frame reasoning: relations every step of a command maintains *)

Section Keeps.
Context (R : state -> state -> Prop) `{!PreOrder R}.

Lemma keeps_ret {A} (a : A) : keeps R (ret a).
Proof. intros s. apply post_ret. reflexivity. Qed.

Lemma keeps_bind {A B} (m : M A) (k : A -> M B) :
  keeps R m -> (forall a, keeps R (k a)) -> keeps R (bind m k).
Proof.
  intros Hm Hk s. apply post_bind. eapply post_mono; [apply Hm|].
  intros a s' Hs. cbn beta. eapply post_mono; [apply Hk|].
  intros b s'' Hs'. cbn beta in *. etransitivity; eassumption.
Qed.

Lemma keeps_gets {A} (f : state -> A) : keeps R (gets f).
Proof. intros s. unfold post, gets. reflexivity. Qed.

Lemma keeps_modify (f : state -> state) :
  (forall s, R s (f s)) -> keeps R (modify f).
Proof. intros Hf s. unfold post, modify. apply Hf. Qed.

Lemma keeps_raw {A} (v : state -> A) (f : state -> state) :
  (forall s, R s (f s)) -> keeps R (fun s => Done (v s) (f s)).
Proof. intros Hf s. unfold post. apply Hf. Qed.

Lemma keeps_spin {A} : keeps R (@spin A).
Proof. intros s. exact I. Qed.

Lemma keeps_ASSERT b : keeps R (ASSERT b).
Proof. intros s. unfold post, ASSERT. destruct b; [reflexivity|exact I]. Qed.

Lemma keeps_when b m : keeps R m -> keeps R (when b m).
Proof. intros Hm. destruct b; [exact Hm|apply keeps_ret]. Qed.

Lemma keeps_for {A} idx (body : Z -> A -> M A) a :
  (forall i a, keeps R (body i a)) -> keeps R (for_ idx body a).
Proof.
  intros Hb. revert a. induction idx as [|i idx IH]; intros a; cbn [for_].
  - apply keeps_ret.
  - apply keeps_bind; auto.
Qed.

Lemma keeps_repeat n m : keeps R m -> keeps R (repeat_ n m).
Proof.
  intros Hm. induction n as [|n IH]; cbn [repeat_].
  - apply keeps_ret.
  - apply keeps_bind; auto.
Qed.

Lemma keeps_Done {A} (m : M A) s a s' : keeps R m -> m s = Done a s' -> R s s'.
Proof. intros Hm E. exact (post_Done m s _ a s' (Hm s) E). Qed.

End Keeps.

Create HintDb keeps discriminated.
#[global] Hint Constants Opaque : keeps.

(** Decompose a command along its structure; [leaf] proves [R s (f s)] for
    the state update [f] of a primitive access. *)
Ltac keeps_prim_unfold :=
  unfold timeout_fn, lcd_backlight, timer_init, timer_set, timer_cancel,
    IRQx_set_prio, IRQx_clear_pending, IRQx_set_pending, IRQx_enable,
    IRQx_disable, IRQ_save, IRQ_restore, gpio_configure_pin, gpio_write_pin,
    gpio_read_pin, delay_us, printk, cpu_relax, read_sr1, read_sr2, poll_cr1,
    stk_now, reg_read, reg_write, poke32, memcpy_font, memset, poke,
    poke_text, trace.

Ltac keeps_step leaf :=
  first [ solve [auto with keeps] |
  lazymatch goal with
  | |- keeps _ (ret _) => apply keeps_ret; exact _
  | |- keeps _ (bind _ _) => apply keeps_bind; try exact _; [|intros ?]
  | |- keeps _ (gets _) => apply keeps_gets; exact _
  | |- keeps _ (modify _) => apply keeps_modify; intros ?; leaf
  | |- keeps _ (fun s => Done _ _) => apply keeps_raw; intros ?; leaf
  | |- keeps _ spin => apply keeps_spin
  | |- keeps _ (ASSERT _) => apply keeps_ASSERT; exact _
  | |- keeps _ (when _ _) => apply keeps_when; try exact _
  | |- keeps _ (for_ _ _ _) => apply keeps_for; try exact _; intros ? ?
  | |- keeps _ (repeat_ _ _) => apply keeps_repeat; try exact _
  | |- keeps _ (if ?c then _ else _) => destruct c
  | |- keeps _ (match ?x with _ => _ end) => destruct x
  | |- keeps _ _ => progress keeps_prim_unfold
  end ].

Ltac keeps_tac leaf := repeat keeps_step leaf.

(** ** ASSERT() never fails *)

Lemma nofail_ret {A} (a : A) : nofail (ret a).
Proof. intros s. discriminate. Qed.

Lemma nofail_bind {A B} (m : M A) (k : A -> M B) :
  nofail m -> (forall a, nofail (k a)) -> nofail (bind m k).
Proof.
  intros Hm Hk s. unfold bind. specialize (Hm s).
  destruct (m s); [apply Hk|discriminate|contradiction].
Qed.

Lemma nofail_bind_post {A B} (m : M A) (k : A -> M B) (Q : A -> Prop) :
  nofail m -> (forall s, post m s (fun a _ => Q a)) ->
  (forall a, Q a -> nofail (k a)) -> nofail (bind m k).
Proof.
  intros Hm HQ Hk s. unfold bind. specialize (Hm s). specialize (HQ s).
  unfold post in HQ. destruct (m s); [now apply Hk|discriminate|contradiction].
Qed.

Lemma nofail_gets {A} (f : state -> A) : nofail (gets f).
Proof. intros s. discriminate. Qed.

Lemma nofail_modify f : nofail (modify f).
Proof. intros s. discriminate. Qed.

Lemma nofail_raw {A} (v : state -> A) (f : state -> state) :
  nofail (fun s => Done (v s) (f s)).
Proof. intros s. discriminate. Qed.

Lemma nofail_spin {A} : nofail (@spin A).
Proof. intros s. discriminate. Qed.

Lemma nofail_ASSERT_true : nofail (ASSERT true).
Proof. intros s. discriminate. Qed.

Lemma nofail_when b m : nofail m -> nofail (when b m).
Proof. intros Hm. destruct b; [exact Hm|apply nofail_ret]. Qed.

Lemma nofail_for {A} idx (body : Z -> A -> M A) a :
  (forall i a, nofail (body i a)) -> nofail (for_ idx body a).
Proof.
  intros Hb. revert a. induction idx as [|i idx IH]; intros a; cbn [for_].
  - apply nofail_ret.
  - apply nofail_bind; auto.
Qed.

Lemma nofail_repeat n m : nofail m -> nofail (repeat_ n m).
Proof.
  intros Hm. induction n as [|n IH]; cbn [repeat_].
  - apply nofail_ret.
  - apply nofail_bind; auto.
Qed.

Ltac nofail_step :=
  first [ solve [auto with nofail] |
  lazymatch goal with
  | |- nofail (ret _) => apply nofail_ret
  | |- nofail (bind _ _) => apply nofail_bind; [|intros ?]
  | |- nofail (gets _) => apply nofail_gets
  | |- nofail (modify _) => apply nofail_modify
  | |- nofail (fun s => Done _ _) => apply nofail_raw
  | |- nofail spin => apply nofail_spin
  | |- nofail (ASSERT true) => apply nofail_ASSERT_true
  | |- nofail (when _ _) => apply nofail_when
  | |- nofail (for_ _ _ _) => apply nofail_for; intros ? ?
  | |- nofail (repeat_ _ _) => apply nofail_repeat
  | |- nofail (if ?c then _ else _) => destruct c
  | |- nofail (match ?x with _ => _ end) => destruct x
  | |- nofail _ => progress keeps_prim_unfold
  end ].

Ltac nofail_tac := repeat nofail_step.

Create HintDb nofail discriminated.
#[global] Hint Constants Opaque : nofail.

Section DriverProofs.
Context `{hal} `{world}.

Lemma nofail_dma_start sz : sz <= 256 -> nofail (dma_start sz).
Proof.
  intros Hsz. unfold dma_start.
  replace (sz <=? sizeof_buffer) with true by (symmetry; apply Z.leb_le; exact Hsz).
  nofail_tac.
Qed.

Lemma nofail_emit4 p v : nofail (emit4 p v).
Proof. unfold emit4. nofail_tac. Qed.
#[local] Hint Resolve nofail_emit4 : nofail.

Lemma nofail_emit8 p v sg : nofail (emit8 p v sg).
Proof. unfold emit8. nofail_tac. Qed.
#[local] Hint Resolve nofail_emit8 : nofail.

Lemma nofail_lcd_prep_buffer : nofail lcd_prep_buffer.
Proof. unfold lcd_prep_buffer. nofail_tac. Qed.
#[local] Hint Resolve nofail_lcd_prep_buffer : nofail.

Lemma nofail_i2c_wait_loop fuel t s_ : nofail (i2c_wait_loop fuel t s_).
Proof. induction fuel; cbn [i2c_wait_loop]; nofail_tac. Qed.
#[local] Hint Resolve nofail_i2c_wait_loop : nofail.

Lemma nofail_i2c_wait s_ : nofail (i2c_wait s_).
Proof. unfold i2c_wait. nofail_tac. Qed.
#[local] Hint Resolve nofail_i2c_wait : nofail.

Lemma nofail_i2c_start a : nofail (i2c_start a).
Proof. unfold i2c_start. nofail_tac. Qed.
#[local] Hint Resolve nofail_i2c_start : nofail.

Lemma nofail_i2c_cmd c : nofail (i2c_cmd c).
Proof. unfold i2c_cmd. nofail_tac. Qed.
#[local] Hint Resolve nofail_i2c_cmd : nofail.

Lemma nofail_write4 v : nofail (write4 v).
Proof. unfold write4. nofail_tac. Qed.
#[local] Hint Resolve nofail_write4 : nofail.

Lemma nofail_wait_stop_clear fuel : nofail (wait_stop_clear fuel).
Proof. induction fuel; cbn [wait_stop_clear]; nofail_tac. Qed.
#[local] Hint Resolve nofail_wait_stop_clear : nofail.

Lemma nofail_i2c_probe a : nofail (i2c_probe a).
Proof. unfold i2c_probe. nofail_tac. Qed.
#[local] Hint Resolve nofail_i2c_probe : nofail.

Lemma nofail_i2c_probe_range_loop fuel a e : nofail (i2c_probe_range_loop fuel a e).
Proof. revert a. induction fuel; intros a; cbn [i2c_probe_range_loop]; nofail_tac. Qed.
#[local] Hint Resolve nofail_i2c_probe_range_loop : nofail.

Lemma nofail_i2c_probe_range a e : nofail (i2c_probe_range a e).
Proof. unfold i2c_probe_range. nofail_tac. Qed.
#[local] Hint Resolve nofail_i2c_probe_range : nofail.

Lemma nofail_lcd_write_copy str : forall col min p, nofail (lcd_write_copy str col min p).
Proof. induction str; intros; cbn [lcd_write_copy]; nofail_tac. Qed.
#[local] Hint Resolve nofail_lcd_write_copy : nofail.

Lemma nofail_lcd_write_pad fuel : forall col min p, nofail (lcd_write_pad fuel col min p).
Proof. induction fuel; intros; cbn [lcd_write_pad]; nofail_tac. Qed.
#[local] Hint Resolve nofail_lcd_write_pad : nofail.

Lemma nofail_lcd_write col row min str : nofail (lcd_write col row min str).
Proof. unfold lcd_write, lcd_write_loops. nofail_tac. Qed.
#[local] Hint Resolve nofail_lcd_write : nofail.

Lemma nofail_lcd_clear : nofail lcd_clear.
Proof. unfold lcd_clear. nofail_tac. Qed.
#[local] Hint Resolve nofail_lcd_clear : nofail.

Lemma nofail_oled_convert_text_row pc : nofail (oled_convert_text_row pc).
Proof.
  unfold oled_convert_text_row, oled_convert_text_row_7x16, oled_convert_text_row_8x16.
  nofail_tac.
Qed.
#[local] Hint Resolve nofail_oled_convert_text_row : nofail.

Lemma nofail_oled_start_i2c buf : nofail (oled_start_i2c buf).
Proof. unfold oled_start_i2c. nofail_tac. Qed.
#[local] Hint Resolve nofail_oled_start_i2c : nofail.

Lemma nofail_oled_wait_btf fuel : nofail (oled_wait_btf fuel).
Proof. induction fuel; cbn [oled_wait_btf]; nofail_tac. Qed.
#[local] Hint Resolve nofail_oled_wait_btf : nofail.

Lemma nofail_oled_prep_buffer : nofail oled_prep_buffer.
Proof. unfold oled_prep_buffer. nofail_tac. Qed.
#[local] Hint Resolve nofail_oled_prep_buffer : nofail.


Lemma Done_inj_val {A} (a b : A) s s' : Done a s = Done b s' -> a = b.
Proof. now intros [= -> _]. Qed.

Lemma oled_prep_buffer_sizes s n s' :
  oled_prep_buffer s = Done n s' -> n = 0 \/ n = 19 \/ n = 256.
Proof.
  unfold oled_prep_buffer. unfold bind at 1, gets at 1.
  destruct (oled_row s =? 2).
  - unfold bind at 1, modify at 1. unfold bind at 1.
    destruct (oled_wait_btf spin_limit _) as [[] s1| |]; try discriminate; cbn [negb].
    + unfold bind at 1, reg_read at 1, gets at 1.
      unfold bind at 1, reg_write at 1, modify at 1. unfold bind at 1.
      destruct (wait_stop_clear spin_limit _) as [[] s2| |]; try discriminate.
      rewrite oled_start_i2c_spec. intros E. apply Done_inj_val in E. auto.
    + intros [= <- _]. auto.
  - unfold bind at 1, modify at 1. unfold bind at 1.
    destruct (oled_convert_text_row _ _) as [[] s1| |]; try discriminate.
    intros [= <- _]. auto.
Qed.

Lemma nofail_IRQ_dma1_ch4_tc : nofail IRQ_dma1_ch4_tc.
Proof.
  unfold IRQ_dma1_ch4_tc.
  do 2 (apply nofail_bind; [nofail_tac|intros _]).
  apply nofail_bind; [nofail_tac|intros a]. destruct (a =? OLED_ADDR).
  - apply (nofail_bind_post _ _ (fun sz => sz <= 256)).
    + apply nofail_oled_prep_buffer.
    + intros s. apply post_intro. intros n s' E.
      apply oled_prep_buffer_sizes in E. lia.
    + intros sz Hsz. now apply nofail_dma_start.
  - apply (nofail_bind_post _ _ (fun sz => sz <= 256)).
    + apply nofail_lcd_prep_buffer.
    + intros s. unfold post. rewrite lcd_prep_buffer_spec. lia.
    + intros sz Hsz. now apply nofail_dma_start.
Qed.
#[local] Hint Resolve nofail_IRQ_dma1_ch4_tc : nofail.

Lemma nofail_serve_irqs : nofail serve_irqs.
Proof. unfold serve_irqs. nofail_tac. Qed.
#[local] Hint Resolve nofail_serve_irqs : nofail.

Lemma nofail_lcd_sync_loop fuel c : nofail (lcd_sync_loop fuel c).
Proof. induction fuel; cbn [lcd_sync_loop]; nofail_tac. Qed.
#[local] Hint Resolve nofail_lcd_sync_loop : nofail.

Lemma nofail_lcd_sync : nofail lcd_sync.
Proof. unfold lcd_sync. nofail_tac. Qed.
#[local] Hint Resolve nofail_lcd_sync : nofail.

(** The command pairs of a table, as oled_init and oled_start_i2c put them
    into buffer[]. *)
Lemma writes_cmd_table cmds :
  writes (for_ cmds (fun c p => poke p 0x80 ;;; let p := S p in
                                poke p c ;;; let p := S p in ret p))
         (fun _ => flat_map (fun c => [0x80; c]) cmds).
Proof.
  apply (writes_for _ (fun c _ => [0x80; c]) cmds writes_cmd_pair). easy.
Qed.


Lemma dma_start_spec sz s :
  sz <= 256 ->
  dma_start sz s =
  Done tt
    (set_log (Ev_timer_set (stk_add (now_in (n_now s)) DMA_TIMEOUT)
              :: Ev_reg_write DMA1_CH4_CCR DMA_CCR_start
              :: Ev_reg_write DMA1_CH4_CNDTR sz
              :: Ev_reg_write DMA1_CH4_CMAR addr_of_buffer :: log s)
       (set_timeout_timer (Some (stk_add (now_in (n_now s)) DMA_TIMEOUT))
          (set_n_now (S (n_now s))
             (set_regs (<[DMA1_CH4_CCR := DMA_CCR_start]>
                          (<[DMA1_CH4_CNDTR := sz]>
                             (<[DMA1_CH4_CMAR := addr_of_buffer]> (regs s)))) s)))).
Proof.
  intros Hsz. unfold dma_start.
  replace (sz <=? sizeof_buffer) with true by (symmetry; apply Z.leb_le; exact Hsz).
  exec. reflexivity.
Qed.

Lemma dma_start_assert sz s : 256 < sz -> dma_start sz s = AssertFail.
Proof.
  intros Hsz. unfold dma_start.
  replace (sz <=? sizeof_buffer) with false by (symmetry; apply Z.leb_gt; exact Hsz).
  reflexivity.
Qed.

(** oled_init hands 63 bytes to the DMA: 22 command pairs and the 19-byte
    addressing sequence. *)
Lemma oled_init_spec s :
  exists s',
    oled_init s = Done tt s' /\
    regs s' DMA1_CH4_CNDTR = 63 /\
    buffer s' = list_inserts 0 (flat_map (fun c => [0x80; c]) init_cmds ++
                                readdress_cmds (_bl s)) (buffer s) /\
    oled_row s' = 0 /\ refresh_count s' = refresh_count s /\
    text s' = text s /\ i2c_addr s' = i2c_addr s.
Proof.
  unfold oled_init. exec. rewrite writes_cmd_table. exec.
  rewrite oled_start_i2c_spec. exec.
  cbn [length flat_map init_cmds app Nat.add Z.to_nat Pos.to_nat Pos.iter_op].
  rewrite dma_start_spec by (cbn; lia).
  eexists. split; [reflexivity|]. exec.
  split; [reflexivity|]. split; [|repeat split; reflexivity].
  symmetry. apply (list_inserts_app_l (flat_map (fun c => [0x80; c]) init_cmds)).
Qed.

Lemma nofail_oled_init : nofail oled_init.
Proof.
  intros s. destruct (oled_init_spec s) as (s' & -> & _). discriminate.
Qed.
#[local] Hint Resolve nofail_oled_init : nofail.


Lemma emit8_spec p val signals s :
  emit8 p val signals s =
  Done (p + 6)%nat
       (set_buffer (list_inserts p (emit8_bytes (_bl s) val signals) (buffer s)) s).
Proof. exact (writes_emit8 val signals p s). Qed.

(** The four display-setup commands lcd_init queues for the DMA: 24 wire
    bytes at the start of buffer[]. *)
Lemma hd44780_setup_cmds {A} (k : nat -> M A) s :
  (p <- emit8 0 (Z.lor CMD_FUNCTIONSET FS_2LINE) 0 ;;
   p <- emit8 p CMD_DISPLAYCTL 0 ;;
   p <- emit8 p (Z.lor CMD_ENTRYMODE 2) 0 ;;
   p <- emit8 p (Z.lor CMD_DISPLAYCTL 4) 0 ;;
   k p) s =
  k 24%nat
    (set_buffer
       (list_inserts 0
          (emit8_bytes (_bl s) (Z.lor CMD_FUNCTIONSET FS_2LINE) 0 ++
           emit8_bytes (_bl s) CMD_DISPLAYCTL 0 ++
           emit8_bytes (_bl s) (Z.lor CMD_ENTRYMODE 2) 0 ++
           emit8_bytes (_bl s) (Z.lor CMD_DISPLAYCTL 4) 0) (buffer s)) s).
Proof.
  unfold bind. rewrite !emit8_spec. st_simpl. f_equal. f_equal.
  rewrite !list_inserts_app_l. reflexivity.
Qed.

Lemma nofail_lcd_init_fail reinit : nofail (lcd_init_fail reinit).
Proof. unfold lcd_init_fail. nofail_tac. Qed.
#[local] Hint Resolve nofail_lcd_init_fail : nofail.

Lemma nofail_hd44780_setup_cmds {A} (k : nat -> M A) :
  nofail (k 24%nat) ->
  nofail (p <- emit8 0 (Z.lor CMD_FUNCTIONSET FS_2LINE) 0 ;;
          p <- emit8 p CMD_DISPLAYCTL 0 ;;
          p <- emit8 p (Z.lor CMD_ENTRYMODE 2) 0 ;;
          p <- emit8 p (Z.lor CMD_DISPLAYCTL 4) 0 ;;
          k p).
Proof. intros Hk s. rewrite hd44780_setup_cmds. apply Hk. Qed.

Lemma nofail_lcd_init_hd44780 reinit : nofail (lcd_init_hd44780 reinit).
Proof.
  unfold lcd_init_hd44780.
  apply nofail_bind; [nofail_tac|intros a].
  apply nofail_bind; [nofail_tac|intros ok].
  destruct ok; cbn [negb]; [|nofail_tac].
  do 6 (apply nofail_bind; [nofail_tac|intros _]).
  apply nofail_hd44780_setup_cmds.
  change (Z.of_nat 24) with 24.
  do 2 (apply nofail_bind; [nofail_tac|intros ?]).
  apply nofail_bind; [apply nofail_dma_start; lia|intros _].
  nofail_tac.
Qed.
#[local] Hint Resolve nofail_lcd_init_hd44780 : nofail.

Lemma nofail_lcd_init_unwedge : nofail lcd_init_unwedge.
Proof. unfold lcd_init_unwedge. nofail_tac. Qed.
#[local] Hint Resolve nofail_lcd_init_unwedge : nofail.

Lemma nofail_lcd_init_floating_check : nofail lcd_init_floating_check.
Proof. unfold lcd_init_floating_check. nofail_tac. Qed.
#[local] Hint Resolve nofail_lcd_init_floating_check : nofail.

Lemma nofail_lcd_init_scan : nofail lcd_init_scan.
Proof. unfold lcd_init_scan. nofail_tac. Qed.
#[local] Hint Resolve nofail_lcd_init_scan : nofail.

Lemma nofail_lcd_init_detect : nofail lcd_init_detect.
Proof. unfold lcd_init_detect. nofail_tac. Qed.
#[local] Hint Resolve nofail_lcd_init_detect : nofail.

Lemma nofail_lcd_init_irqs : nofail lcd_init_irqs.
Proof. unfold lcd_init_irqs. nofail_tac. Qed.
#[local] Hint Resolve nofail_lcd_init_irqs : nofail.

Lemma nofail_lcd_init : nofail lcd_init.
Proof. unfold lcd_init, lcd_init_body. nofail_tac. Qed.
#[local] Hint Resolve nofail_lcd_init : nofail.

Lemma nofail_IRQ_i2c_error : nofail IRQ_i2c_error.
Proof. unfold IRQ_i2c_error. nofail_tac. Qed.

Lemma nofail_IRQ_i2c_event : nofail IRQ_i2c_event.
Proof. unfold IRQ_i2c_event. nofail_tac. Qed.

Lemma nofail_timeout_fn : nofail timeout_fn.
Proof. unfold timeout_fn. nofail_tac. Qed.

(** ** The refresh engine *)

(** C10. No length passed to dma_start exceeds the 256-byte buffer, so
    its ASSERT never fails in any entry point of the driver: the
    character-mode serializer always returns 204 = 2 * (1 + 16) * 6, the
    bitmap-mode serializer returns 0, 19 or 256, oled_init queues 63 bytes
    and the HD44780 setup queues 24. *)
Theorem dma_start_assert_never_fails :
  (forall sz s, dma_start sz s = AssertFail <-> sizeof_buffer < sz) /\
  nofail lcd_init /\ nofail IRQ_dma1_ch4_tc /\ nofail IRQ_i2c_error /\
  nofail IRQ_i2c_event /\ nofail lcd_sync /\
  (forall s, exists s', lcd_prep_buffer s = Done 204 s') /\
  204 = 2 * (1 + 16) * 6 /\
  (forall s n s', oled_prep_buffer s = Done n s' -> n = 0 \/ n = 19 \/ n = 256) /\
  (forall s, exists s', oled_init s = Done tt s' /\ regs s' DMA1_CH4_CNDTR = 63) /\
  (forall s, exists s1,
     (p <- emit8 0 (Z.lor CMD_FUNCTIONSET FS_2LINE) 0 ;;
      p <- emit8 p CMD_DISPLAYCTL 0 ;;
      p <- emit8 p (Z.lor CMD_ENTRYMODE 2) 0 ;;
      p <- emit8 p (Z.lor CMD_DISPLAYCTL 4) 0 ;;
      dma_start (Z.of_nat p)) s = dma_start 24 s1).
Proof.
  split.
  { intros sz s. split.
    - intros E. destruct (Z.le_gt_cases sz 256) as [Hle|Hgt]; [|exact Hgt].
      rewrite dma_start_spec in E by exact Hle. discriminate.
    - apply dma_start_assert. }
  split; [apply nofail_lcd_init|]. split; [apply nofail_IRQ_dma1_ch4_tc|].
  split; [apply nofail_IRQ_i2c_error|]. split; [apply nofail_IRQ_i2c_event|].
  split; [apply nofail_lcd_sync|].
  split; [intros s; rewrite lcd_prep_buffer_spec; eauto|].
  split; [reflexivity|].
  split; [apply oled_prep_buffer_sizes|].
  split.
  { intros s. destruct (oled_init_spec s) as (s' & E & Hn & _). eauto. }
  intros s. eexists. apply (hd44780_setup_cmds (fun p => dma_start (Z.of_nat p))).
Qed.

(* The handler is the serializer followed by dma_start. *)
Lemma IRQ_dma1_ch4_tc_unfold s :
  IRQ_dma1_ch4_tc s =
  match (if i2c_addr s =? OLED_ADDR then oled_prep_buffer else lcd_prep_buffer)
          (dma_acknowledged s) with
  | Done sz s1 => dma_start sz s1
  | Spin => Spin
  | AssertFail => AssertFail
  end.
Proof.
  unfold IRQ_dma1_ch4_tc.
  do 2 (unfold bind at 1; unfold reg_write at 1, modify at 1).
  unfold bind at 1, gets at 1.
  change (set_log _ (set_regs _ (set_log _ (set_regs _ s)))) with (dma_acknowledged s).
  change (i2c_addr (dma_acknowledged s)) with (i2c_addr s).
  reflexivity.
Qed.

(** C3 (as amended). On every DMA-completion event the handler clears
    the channel and its flags and calls the serializer of the detected
    mode.  Whenever the serializer returns, whatever the length, the
    handler returns too, having handed that length to dma_start: the
    channel is programmed with it and enabled, and the 200 ms watchdog is
    rearmed, also when the length is 0; and the handler returns only if
    the serializer does.  The serializer returns 204 bytes in character
    mode, always; in bitmap mode 256 bytes at cursor 0 or 1, the 19
    re-addressing bytes at cursor 2 once BTF arrives and STOP clears, and
    0 bytes at cursor 2 when an error flag is up with BTF still clear: the
    handler then enables the channel with count 0 and rearms the
    watchdog. *)
Theorem IRQ_dma1_ch4_tc_spec s :
  (forall sz s1,
     (if i2c_addr s =? OLED_ADDR then oled_prep_buffer else lcd_prep_buffer)
       (dma_acknowledged s) = Done sz s1 ->
     0 <= sz <= sizeof_buffer /\
     exists s', IRQ_dma1_ch4_tc s = Done tt s' /\ dma_restarted sz s1 s') /\
  (forall r s',
     IRQ_dma1_ch4_tc s = Done r s' ->
     exists sz s1,
       (if i2c_addr s =? OLED_ADDR then oled_prep_buffer else lcd_prep_buffer)
         (dma_acknowledged s) = Done sz s1) /\
  (i2c_addr s <> OLED_ADDR ->
   exists s1 s',
     lcd_prep_buffer (dma_acknowledged s) = Done 204 s1 /\
     IRQ_dma1_ch4_tc s = Done tt s' /\ dma_restarted 204 s1 s') /\
  (i2c_addr s = OLED_ADDR -> oled_row s = 0 \/ oled_row s = 1 ->
   length (text s) = 32%nat -> length (buffer s) = 256%nat ->
   exists s1 s',
     oled_prep_buffer (dma_acknowledged s) = Done 256 s1 /\
     IRQ_dma1_ch4_tc s = Done tt s' /\ dma_restarted 256 s1 s') /\
  (i2c_addr s = OLED_ADDR -> oled_row s = 2 ->
   forall k k',
     (k < spin_limit)%nat -> btf_after (n_sr1 s) k ->
     (k' < spin_limit)%nat -> stop_clears_after (n_stop s) k' ->
     exists s1 s',
       oled_prep_buffer (dma_acknowledged s) = Done 19 s1 /\
       IRQ_dma1_ch4_tc s = Done tt s' /\ dma_restarted 19 s1 s') /\
  (i2c_addr s = OLED_ADDR -> oled_row s = 2 ->
   forall k,
     (k < spin_limit)%nat -> error_before_btf (n_sr1 s) k ->
     exists s1 s',
       oled_prep_buffer (dma_acknowledged s) = Done 0 s1 /\
       IRQ_dma1_ch4_tc s = Done tt s' /\ dma_restarted 0 s1 s' /\
       n_now s1 = n_now s /\ oled_row s' = 2).
Proof.
  assert (H1 : forall sz s1,
     (if i2c_addr s =? OLED_ADDR then oled_prep_buffer else lcd_prep_buffer)
       (dma_acknowledged s) = Done sz s1 ->
     0 <= sz <= sizeof_buffer /\
     exists s', IRQ_dma1_ch4_tc s = Done tt s' /\ dma_restarted sz s1 s').
  { intros sz s1 E.
    assert (Hsz : 0 <= sz <= 256).
    { destruct (i2c_addr s =? OLED_ADDR).
      - apply oled_prep_buffer_sizes in E. lia.
      - rewrite lcd_prep_buffer_spec in E. apply Done_inj_val in E. lia. }
    split; [exact Hsz|].
    rewrite IRQ_dma1_ch4_tc_unfold, E, dma_start_spec by lia.
    eexists. split; [reflexivity|]. unfold dma_restarted. exec. repeat split. }
  assert (Holed : i2c_addr s = OLED_ADDR -> forall sz s1,
     oled_prep_buffer (dma_acknowledged s) = Done sz s1 ->
     exists s', IRQ_dma1_ch4_tc s = Done tt s' /\ dma_restarted sz s1 s').
  { intros Ha sz s1 E. apply H1. rewrite Ha, Z.eqb_refl. exact E. }
  split; [exact H1|]. split; [|split; [|split; [|split]]].
  - intros r s'. rewrite IRQ_dma1_ch4_tc_unfold.
    destruct ((if i2c_addr s =? OLED_ADDR then oled_prep_buffer else lcd_prep_buffer)
                (dma_acknowledged s)) as [sz s1| |]; try discriminate.
    eauto.
  - intros Ha. eexists.
    destruct (H1 204 (set_buffer
                        (list_inserts 0 (lcd_frame (dma_acknowledged s))
                           (buffer (dma_acknowledged s)))
                        (set_refresh_count
                           (u8 (refresh_count (dma_acknowledged s) + 1))
                           (dma_acknowledged s)))) as (_ & s' & E' & R).
    + destruct (Z.eqb_spec (i2c_addr s) OLED_ADDR) as [|_]; [contradiction|].
      apply lcd_prep_buffer_spec.
    + exists s'. split; [apply lcd_prep_buffer_spec|]. split; assumption.
  - intros Ha Hrow Ht Hb.
    assert (E : exists r : nat, oled_row s = Z.of_nat r /\ (r < 2)%nat).
    { destruct Hrow as [-> | ->]; [exists 0%nat|exists 1%nat]; split; (reflexivity || lia). }
    destruct E as (r & Er & Hr).
    pose proof (oled_prep_buffer_row (dma_acknowledged s) r Er Hr Ht Hb) as E.
    destruct (Holed Ha _ _ E) as (s' & E' & R). eauto.
  - intros Ha Hrow k k' Hk Hbtf Hk' Hstop.
    destruct (oled_prep_buffer_wrap_total (dma_acknowledged s) k k' Hrow Hk Hbtf Hk' Hstop)
      as (s1 & E).
    destruct (Holed Ha _ _ E) as (s' & E' & R). eauto.
  - intros Ha Hrow k Hk Herr.
    pose proof (oled_prep_buffer_wrap_error (dma_acknowledged s) k Hrow Hk Herr) as E.
    destruct (Holed Ha _ _ E) as (s' & E' & R).
    eexists _, s'. split; [exact E|]. split; [exact E'|]. split; [exact R|].
    split; [reflexivity|].
    revert E'. rewrite IRQ_dma1_ch4_tc_unfold, Ha, Z.eqb_refl, E, dma_start_spec by lia.
    intros [= <-]. exec. exact Hrow.
Qed.

Lemma IRQ_dma1_ch4_tc_character_mode s :
  i2c_addr s <> OLED_ADDR ->
  exists s',
    IRQ_dma1_ch4_tc s = Done tt s' /\
    refresh_count s' = u8 (refresh_count s + 1) /\
    regs s' DMA1_CH4_CNDTR = 204 /\
    text s' = text s /\ i2c_addr s' = i2c_addr s /\ n_irq s' = n_irq s.
Proof.
  intros Ha. unfold IRQ_dma1_ch4_tc. exec.
  destruct (Z.eqb_spec (i2c_addr s) OLED_ADDR) as [|_]; [contradiction|].
  rewrite lcd_prep_buffer_spec. exec.
  rewrite dma_start_spec by lia. eexists. split; [reflexivity|]. exec.
  repeat split.
Qed.

(** ** lcd_sync *)

Lemma lcd_sync_loop_post fuel c s :
  post (lcd_sync_loop fuel c) s (fun _ s' => 2 <= u8 (refresh_count s' - c) < 256).
Proof.
  revert s. induction fuel as [|fuel IH]; intros s; [exact I|].
  cbn [lcd_sync_loop]. apply post_bind.
  apply post_intro. intros [] s1 _. apply post_bind. unfold post at 1, gets.
  destruct (Z.ltb_spec (u8 (refresh_count s1 - c)) 2) as [Hlt|Hge].
  - apply post_bind. apply post_intro. intros [] s2 _. apply IH.
  - apply post_ret. split; [exact Hge|]. unfold u8. apply Z.mod_pos_bound. lia.
Qed.

(** C1. When lcd_sync returns, the 8-bit Refresh Counter has advanced by
    at least 2 modulo 256 from its value at the call, in either controller
    mode (the handler run between two polls serves whichever mode was
    detected). *)
Theorem lcd_sync_advances s s' :
  lcd_sync s = Done tt s' ->
  2 <= u8 (refresh_count s' - refresh_count s) < 256.
Proof.
  intros E. unfold lcd_sync in E. unfold bind at 1, gets at 1 in E.
  exact (post_Done _ _ _ _ _ (lcd_sync_loop_post spin_limit (refresh_count s) s) E).
Qed.

Lemma u8_add_add c : u8 (u8 (u8 (c + 1) + 1) - c) = 2.
Proof.
  unfold u8. rewrite Zplus_mod_idemp_l, Zminus_mod_idemp_l.
  replace (c + 1 + 1 - c) with 2 by lia. reflexivity.
Qed.

Lemma u8_add_sub c : u8 (u8 (c + 1) - c) = 1.
Proof.
  unfold u8. rewrite Zminus_mod_idemp_l.
  replace (c + 1 - c) with 1 by lia. reflexivity.
Qed.

(** In character mode, with one DMA completion served before each poll,
    lcd_sync returns after two polls. *)
Lemma lcd_sync_character_mode_returns s :
  i2c_addr s <> OLED_ADDR ->
  irq_in (n_irq s) = 1%nat -> irq_in (S (n_irq s)) = 1%nat ->
  (2 <= spin_limit)%nat ->
  exists s', lcd_sync s = Done tt s' /\
             refresh_count s' = u8 (u8 (refresh_count s + 1) + 1).
Proof.
  intros Ha Hi0 Hi1 Hfuel. unfold lcd_sync. unfold bind at 1, gets at 1.
  destruct spin_limit as [|[|fuel]]; try lia.
  cbn [lcd_sync_loop]. unfold serve_irqs. exec. rewrite Hi0. cbn [repeat_]. exec.
  destruct (IRQ_dma1_ch4_tc_character_mode (set_n_irq (S (n_irq s)) s))
    as (s1 & E1 & Hrc1 & _ & _ & Ha1 & Hn1); [exact Ha|].
  revert E1. exec. intros ->. exec.
  revert Hrc1 Ha1 Hn1. exec. intros Hrc1 Ha1 Hn1.
  rewrite Hrc1, u8_add_sub. cbn [Z.ltb Z.compare Pos.compare Pos.compare_cont].
  exec. rewrite Hn1, Hi1. cbn [repeat_]. exec.
  match goal with |- context [IRQ_dma1_ch4_tc ?s2] =>
    destruct (IRQ_dma1_ch4_tc_character_mode s2) as (s3 & E3 & Hrc3 & _ & _ & _)
  end; [revert Ha1; exec; intros Ha1; rewrite Ha1; exact Ha|].
  revert E3. exec. intros ->. exec.
  revert Hrc3. exec. intros Hrc3. rewrite Hrc3, Hrc1, u8_add_add.
  cbn [Z.ltb Z.compare Pos.compare Pos.compare_cont].
  eexists. split; [reflexivity|]. exec. rewrite Hrc3, Hrc1. reflexivity.
Qed.

(** ** What initialization leaves alone *)

#[local] Instance log_extends_preorder P : PreOrder (log_extends P).
Proof.
  split.
  - intros s. exists []. split; [reflexivity|constructor].
  - intros a b c (n1 & E1 & F1) (n2 & E2 & F2). exists (n2 ++ n1).
    split; [now rewrite E2, E1, app_assoc|]. apply Forall_app. now split.
Qed.

#[local] Instance steady_with_preorder P : PreOrder (steady_with P).
Proof.
  split.
  - intros s. split; [reflexivity|]. split; [reflexivity|].
    split; [exact id|reflexivity].
  - intros a b c (T1 & A1 & D1 & L1) (T2 & A2 & D2 & L2).
    split; [congruence|]. split; [congruence|].
    split; [intros D; exact (D2 (D1 D))|etransitivity; eassumption].
Qed.

Lemma log_extends_mono (P Q : event -> Prop) s s' :
  (forall e, P e -> Q e) -> log_extends P s s' -> log_extends Q s s'.
Proof.
  intros HPQ (new & E & F). exists new. split; [exact E|].
  eapply Forall_impl; eassumption.
Qed.

Lemma log_extends_In P s s' e : log_extends P s s' -> In e (log s) -> In e (log s').
Proof. intros (new & -> & _) Hin. apply in_or_app. now right. Qed.

Lemma keeps_mono {A} (R R' : state -> state -> Prop) (m : M A) :
  (forall s s', R s s' -> R' s s') -> keeps R m -> keeps R' m.
Proof. intros HR Hm s. eapply post_mono; [apply Hm|]. intros a s'. apply HR. Qed.


Ltac log_leaf HP :=
  first [ exists []; split; [reflexivity|constructor]
        | eexists [_]; split;
          [reflexivity|constructor; [apply HP; reflexivity|constructor]] ].

Ltac steady_leaf HP :=
  unfold steady_with, dead_sticky; exec;
  split; [reflexivity|split; [reflexivity|
    split; [intros ?; first [assumption|reflexivity]|log_leaf HP]]].

Section Steady.
Context (P : event -> Prop).
Context (HP : forall e, detection_event e = false -> teardown_event e = false -> P e).

Local Ltac go := keeps_tac ltac:(steady_leaf HP).

Lemma steady_poll_cr1 : keeps (steady_with P) poll_cr1.
Proof. intros s. unfold post, poll_cr1. steady_leaf HP. Qed.
#[local] Hint Resolve steady_poll_cr1 : keeps.

Lemma steady_dma_start sz : keeps (steady_with P) (dma_start sz).
Proof. unfold dma_start. go. Qed.
#[local] Hint Resolve steady_dma_start : keeps.

Lemma steady_emit4 p v : keeps (steady_with P) (emit4 p v).
Proof. unfold emit4. go. Qed.
#[local] Hint Resolve steady_emit4 : keeps.

Lemma steady_emit8 p v sg : keeps (steady_with P) (emit8 p v sg).
Proof. unfold emit8. go. Qed.
#[local] Hint Resolve steady_emit8 : keeps.

Lemma steady_lcd_prep_buffer : keeps (steady_with P) lcd_prep_buffer.
Proof. unfold lcd_prep_buffer. go. Qed.
#[local] Hint Resolve steady_lcd_prep_buffer : keeps.

Lemma steady_i2c_wait_loop fuel t s_ : keeps (steady_with P) (i2c_wait_loop fuel t s_).
Proof. induction fuel; cbn [i2c_wait_loop]; go. Qed.
#[local] Hint Resolve steady_i2c_wait_loop : keeps.

Lemma steady_i2c_wait s_ : keeps (steady_with P) (i2c_wait s_).
Proof. unfold i2c_wait. go. Qed.
#[local] Hint Resolve steady_i2c_wait : keeps.

Lemma steady_i2c_start a : keeps (steady_with P) (i2c_start a).
Proof. unfold i2c_start. go. Qed.
#[local] Hint Resolve steady_i2c_start : keeps.

Lemma steady_i2c_cmd c : keeps (steady_with P) (i2c_cmd c).
Proof. unfold i2c_cmd. go. Qed.
#[local] Hint Resolve steady_i2c_cmd : keeps.

Lemma steady_write4 v : keeps (steady_with P) (write4 v).
Proof. unfold write4. go. Qed.
#[local] Hint Resolve steady_write4 : keeps.

Lemma steady_wait_stop_clear fuel : keeps (steady_with P) (wait_stop_clear fuel).
Proof. induction fuel; cbn [wait_stop_clear]; go. Qed.
#[local] Hint Resolve steady_wait_stop_clear : keeps.

Lemma steady_i2c_probe a : keeps (steady_with P) (i2c_probe a).
Proof. unfold i2c_probe. go. Qed.
#[local] Hint Resolve steady_i2c_probe : keeps.

Lemma steady_i2c_probe_range_loop fuel a e :
  keeps (steady_with P) (i2c_probe_range_loop fuel a e).
Proof. revert a. induction fuel; intros a; cbn [i2c_probe_range_loop]; go. Qed.
#[local] Hint Resolve steady_i2c_probe_range_loop : keeps.

Lemma steady_i2c_probe_range a e : keeps (steady_with P) (i2c_probe_range a e).
Proof. unfold i2c_probe_range. go. Qed.
#[local] Hint Resolve steady_i2c_probe_range : keeps.

Lemma steady_lcd_init_scan : keeps (steady_with P) lcd_init_scan.
Proof. unfold lcd_init_scan. go. Qed.
#[local] Hint Resolve steady_lcd_init_scan : keeps.

Lemma steady_oled_convert_text_row pc : keeps (steady_with P) (oled_convert_text_row pc).
Proof.
  unfold oled_convert_text_row, oled_convert_text_row_7x16, oled_convert_text_row_8x16.
  go.
Qed.
#[local] Hint Resolve steady_oled_convert_text_row : keeps.

Lemma steady_oled_start_i2c buf : keeps (steady_with P) (oled_start_i2c buf).
Proof. unfold oled_start_i2c. go. Qed.
#[local] Hint Resolve steady_oled_start_i2c : keeps.

Lemma steady_oled_wait_btf fuel : keeps (steady_with P) (oled_wait_btf fuel).
Proof. induction fuel; cbn [oled_wait_btf]; go. Qed.
#[local] Hint Resolve steady_oled_wait_btf : keeps.

Lemma steady_oled_prep_buffer : keeps (steady_with P) oled_prep_buffer.
Proof. unfold oled_prep_buffer. go. Qed.
#[local] Hint Resolve steady_oled_prep_buffer : keeps.

Lemma steady_oled_init : keeps (steady_with P) oled_init.
Proof. unfold oled_init. go. Qed.
#[local] Hint Resolve steady_oled_init : keeps.

Lemma steady_IRQ_dma1_ch4_tc : keeps (steady_with P) IRQ_dma1_ch4_tc.
Proof. unfold IRQ_dma1_ch4_tc. go. Qed.
#[local] Hint Resolve steady_IRQ_dma1_ch4_tc : keeps.

Lemma steady_serve_irqs : keeps (steady_with P) serve_irqs.
Proof. unfold serve_irqs. go. Qed.
#[local] Hint Resolve steady_serve_irqs : keeps.

Lemma steady_lcd_sync_loop fuel c : keeps (steady_with P) (lcd_sync_loop fuel c).
Proof. induction fuel; cbn [lcd_sync_loop]; go. Qed.
#[local] Hint Resolve steady_lcd_sync_loop : keeps.

Lemma steady_lcd_sync : keeps (steady_with P) lcd_sync.
Proof. unfold lcd_sync. go. Qed.
#[local] Hint Resolve steady_lcd_sync : keeps.

Lemma steady_lcd_init_unwedge : keeps (steady_with P) lcd_init_unwedge.
Proof. unfold lcd_init_unwedge. go. Qed.
#[local] Hint Resolve steady_lcd_init_unwedge : keeps.

Lemma steady_lcd_init_irqs : keeps (steady_with P) lcd_init_irqs.
Proof. unfold lcd_init_irqs. go. Qed.
#[local] Hint Resolve steady_lcd_init_irqs : keeps.

Lemma steady_lcd_init_fail_reinit : keeps (steady_with P) (lcd_init_fail true).
Proof. unfold lcd_init_fail. go. Qed.
#[local] Hint Resolve steady_lcd_init_fail_reinit : keeps.

Lemma steady_lcd_init_hd44780_reinit : keeps (steady_with P) (lcd_init_hd44780 true).
Proof. unfold lcd_init_hd44780. go. Qed.
#[local] Hint Resolve steady_lcd_init_hd44780_reinit : keeps.

Lemma steady_lcd_init_body_reinit : keeps (steady_with P) (lcd_init_body true).
Proof. unfold lcd_init_body. cbn [negb]. go. Qed.

Section Teardown.
Context (HT : forall e, teardown_event e = true -> P e).

Lemma steady_lcd_init_fail reinit : keeps (steady_with P) (lcd_init_fail reinit).
Proof.
  unfold lcd_init_fail.
  keeps_tac ltac:(first [steady_leaf HP | steady_leaf HT]).
Qed.
#[local] Hint Resolve steady_lcd_init_fail : keeps.

Lemma steady_lcd_init_hd44780 reinit : keeps (steady_with P) (lcd_init_hd44780 reinit).
Proof. unfold lcd_init_hd44780. go. Qed.

End Teardown.

End Steady.

(** ** Synchronous bus waits *)

Lemma post_bind_Done {A B} (m : M A) (k : A -> M B) s a s1 (Q : B -> state -> Prop) :
  m s = Done a s1 -> post (k a) s1 Q -> post (bind m k) s Q.
Proof. intros E. unfold post, bind. now rewrite E. Qed.

Ltac wp_prim := eapply post_bind_Done; [exec; reflexivity|].
Ltac wp_keeps L :=
  apply post_bind; eapply post_mono; [apply L|]; cbv beta; intros ? ? ?.

Lemma i2c_wait_loop_post fuel t m : forall s,
  post (i2c_wait_loop fuel t m) s (wait_outcome m t s).
Proof.
  induction fuel as [|fuel IH]; intros s; [exact I|].
  cbn [i2c_wait_loop]. wp_prim.
  destruct (Z.eqb_spec (Z.land (sr1_in (n_sr1 s)) m) m) as [Hm|Hm].
  { apply post_ret. left. split; [reflexivity|]. split; [|reflexivity].
    exists (n_sr1 s). repeat split; [lia|exact Hm]. }
  wp_prim.
  destruct (Z.eqb_spec (Z.land (sr1_in (S (n_sr1 s))) I2C_SR1_ERRORS) 0) as [He|He];
    cbn [negb].
  2:{ wp_prim. wp_prim. apply post_ret. right; left.
      split; [reflexivity|]. split; [|reflexivity].
      exists (n_sr1 s). exec. repeat split; [lia|exact He]. }
  wp_prim.
  destruct (Z.gtb_spec (stk_diff t (now_in (n_now s))) (stk_ms 10)) as [Ht|Ht].
  { wp_prim. apply post_ret. right; right.
    split; [reflexivity|]. split; [|reflexivity].
    exists (n_now s). exec. repeat split; lia. }
  eapply post_mono; [apply IH|]. cbv beta. intros ok s'.
  unfold wait_outcome, status_observed, error_reported, bound_exceeded. exec.
  intros [(-> & (k & E & Hk & Hm') & D)|[(-> & (k & E & Hk & He' & L) & D)|
          (-> & (k & E & Hk & Hb) & D)]].
  - left. split; [reflexivity|]. split; [|exact D]. exists k. repeat split; auto; lia.
  - right; left. split; [reflexivity|]. split; [|exact D].
    exists k. repeat split; auto; lia.
  - right; right. split; [reflexivity|]. split; [|exact D].
    exists k. repeat split; auto; lia.
Qed.

Lemma i2c_wait_post m s :
  post (i2c_wait m) s (wait_outcome (u8 m) (now_in (n_now s)) s).
Proof.
  unfold i2c_wait. wp_prim.
  eapply post_mono; [apply i2c_wait_loop_post|]. cbv beta. intros ok s'.
  unfold wait_outcome, status_observed, error_reported, bound_exceeded. exec.
  intros [(-> & (k & E & Hk & Hm') & D)|[(-> & (k & E & Hk & He' & L) & D)|
          (-> & (k & E & Hk & Hb) & D)]].
  - left. split; [reflexivity|]. split; [|exact D]. exists k. repeat split; auto.
  - right; left. split; [reflexivity|]. split; [|exact D].
    exists k. repeat split; auto.
  - right; right. split; [reflexivity|]. split; [|exact D].
    exists k. repeat split; auto; lia.
Qed.

Lemma i2c_wait_loop_total t m n : forall fuel s,
  clock_passes t (n_now s) n -> (n <= fuel)%nat ->
  exists ok s', i2c_wait_loop fuel t m s = Done ok s'.
Proof.
  induction n as [|n IH]; intros fuel s (k & Hk & Hp) Hf; [lia|].
  destruct fuel as [|fuel]; [lia|]. cbn [i2c_wait_loop]. exec.
  destruct (Z.land (sr1_in (n_sr1 s)) m =? m); [eauto|].
  destruct (Z.land (sr1_in (S (n_sr1 s))) I2C_SR1_ERRORS =? 0); cbn [negb]; [|eauto].
  destruct (Z.gtb_spec (stk_diff t (now_in (n_now s))) (stk_ms 10)) as [Ht|Ht];
    [eauto|].
  apply IH; [|lia]. exec.
  destruct k as [|k].
  - rewrite Nat.add_0_r in Hp. lia.
  - exists k. split; [lia|]. now replace (S (n_now s) + k)%nat with (n_now s + S k)%nat by lia.
Qed.

Lemma i2c_wait_total m s :
  clock_passes (now_in (n_now s)) (S (n_now s)) spin_limit ->
  exists ok s', i2c_wait m s = Done ok s'.
Proof.
  intros Hc. unfold i2c_wait. exec.
  apply (i2c_wait_loop_total _ _ spin_limit); [exact Hc|lia].
Qed.

(** ** The address scan *)

Lemma i2c_wait_ok m s :
  post (i2c_wait m) s (fun ok s' => ok = true -> i2c_dead s' = i2c_dead s).
Proof.
  eapply post_mono; [apply i2c_wait_post|]. cbv beta.
  intros ok s' [(_ & _ & D)|[(-> & _)|(-> & _)]]; [auto|discriminate..].
Qed.

Lemma i2c_start_ok a s :
  post (i2c_start a) s (fun ok s' => ok = true -> i2c_dead s' = i2c_dead s).
Proof.
  unfold i2c_start. wp_prim. wp_prim.
  apply post_bind. eapply post_mono; [apply i2c_wait_ok|]. cbv beta.
  intros [|] s1 D1; cbn [negb]; [|now apply post_ret].
  wp_prim. apply post_bind. eapply post_mono; [apply i2c_wait_ok|]. cbv beta.
  intros [|] s2 D2; cbn [negb]; [|now apply post_ret].
  wp_prim. apply post_ret. intros _.
  exact (eq_trans (D2 eq_refl) (D1 eq_refl)).
Qed.

Lemma i2c_cmd_ok c s :
  post (i2c_cmd c) s (fun ok s' => ok = true -> i2c_dead s' = i2c_dead s).
Proof.
  unfold i2c_cmd. wp_prim. eapply post_mono; [apply i2c_wait_ok|]. cbv beta.
  intros ok s' D Hok. exact (D Hok).
Qed.

#[local] Instance dead_same_preorder : PreOrder dead_same.
Proof. split; [easy|]. intros a b c; unfold dead_same; congruence. Qed.

Lemma dead_same_wait_stop_clear fuel : keeps dead_same (wait_stop_clear fuel).
Proof.
  induction fuel; cbn [wait_stop_clear];
    keeps_tac ltac:(unfold dead_same; exec; reflexivity).
Qed.

Lemma i2c_probe_ok a s :
  post (i2c_probe a) s (fun ok s' => ok = true -> i2c_dead s' = i2c_dead s).
Proof.
  unfold i2c_probe.
  apply post_bind. eapply post_mono; [apply i2c_start_ok|]. cbv beta.
  intros [|] s1 D1; cbn [negb]; [|now apply post_ret].
  apply post_bind. eapply post_mono; [apply i2c_cmd_ok|]. cbv beta.
  intros [|] s2 D2; cbn [negb]; [|now apply post_ret].
  wp_prim. wp_prim. wp_keeps dead_same_wait_stop_clear.
  apply post_ret. intros _.
  exact (eq_trans H1 (eq_trans (D2 eq_refl) (D1 eq_refl))).
Qed.

Lemma i2c_probe_range_loop_post fuel e : forall a s,
  post (i2c_probe_range_loop fuel a e) s (fun r s' => i2c_dead s' = true -> r = 0).
Proof.
  induction fuel as [|fuel IH]; intros a s; [exact I|].
  cbn [i2c_probe_range_loop]. wp_prim.
  destruct (i2c_dead s) eqn:D; [rewrite andb_false_r; now apply post_ret|].
  destruct (a <=? e); cbn [andb negb]; [|now apply post_ret].
  apply post_bind. eapply post_mono; [apply i2c_probe_ok|]. cbv beta.
  intros [|] s1 D1; [|apply IH].
  apply post_ret. rewrite D1, D by reflexivity. discriminate.
Qed.

Lemma i2c_probe_range_dead a e s :
  i2c_dead s = true -> (0 < spin_limit)%nat -> i2c_probe_range a e s = Done 0 s.
Proof.
  intros D Hf. unfold i2c_probe_range.
  destruct spin_limit as [|fuel]; [lia|]. cbn [i2c_probe_range_loop].
  unfold bind, gets. rewrite D, andb_false_r. reflexivity.
Qed.

Lemma lcd_init_scan_post s :
  post lcd_init_scan s (fun a s' => i2c_dead s' = true -> a = 0).
Proof.
  unfold lcd_init_scan, i2c_probe_range. apply post_bind.
  eapply post_mono; [apply i2c_probe_range_loop_post|]. cbv beta.
  intros a s1 D1. destruct (Z.eqb_spec a 0) as [->|Ha]; cbn [negb].
  - apply i2c_probe_range_loop_post.
  - apply post_ret. intros D. now apply D1 in D.
Qed.

Lemma bind_ext {A B} (m : M A) (k k' : A -> M B) s :
  (forall a s', k a s' = k' a s') -> bind m k s = bind m k' s.
Proof. intros E. unfold bind. destruct (m s); auto. Qed.

Lemma probe_first_dead cands s :
  i2c_dead s = true -> probe_first cands s = Done 0 s.
Proof.
  intros D. destruct cands; [reflexivity|]. cbn [probe_first].
  unfold bind, gets. now rewrite D.
Qed.

Lemma probe_first_post cands : forall s,
  post (probe_first cands) s (fun a s' => a = 0 \/ In a cands).
Proof.
  induction cands as [|c cands IH]; intros s; [now left|].
  cbn [probe_first]. wp_prim. destruct (i2c_dead s); [now left|].
  apply post_bind. apply post_intro. intros [|] s1 _.
  - right. now left.
  - eapply post_mono; [apply IH|]. cbv beta. intros a s' [->|Hin]; [now left|].
    right. now right.
Qed.

Lemma i2c_probe_range_loop_refines e n : forall fuel a s,
  e - a + 1 = Z.of_nat n -> (n < fuel)%nat -> e < 255 -> 0 <= a ->
  i2c_probe_range_loop fuel a e s = probe_first (seqZ a (Z.of_nat n)) s.
Proof.
  induction n as [|n IH]; intros fuel a s Hn Hf He Ha;
    (destruct fuel as [|fuel]; [lia|]); cbn [i2c_probe_range_loop].
  - unfold bind, gets. destruct (Z.leb_spec a e); [lia|]. reflexivity.
  - rewrite seqZ_cons by lia. cbn [probe_first]. unfold bind at 1 3, gets.
    destruct (Z.leb_spec a e); [|lia]. cbn [andb].
    destruct (i2c_dead s); cbn [negb]; [reflexivity|].
    apply bind_ext. intros [|] s1; [reflexivity|].
    replace (u8 (a + 1)) with (Z.succ a) by (unfold u8; rewrite Z.mod_small; lia).
    replace (Z.pred (Z.of_nat (S n))) with (Z.of_nat n) by lia.
    apply IH; lia.
Qed.

Lemma probe_first_app l2 : forall l1 s,
  ~ In 0 l1 ->
  probe_first (l1 ++ l2) s =
  (a <- probe_first l1 ;; if negb (a =? 0) then ret a else probe_first l2) s.
Proof.
  induction l1 as [|c l1 IH]; intros s Hnz; [reflexivity|].
  cbn [app probe_first]. unfold bind, gets. cbv beta iota.
  destruct (i2c_dead s) eqn:D.
  { unfold ret. cbn [Z.eqb negb]. now rewrite probe_first_dead. }
  destruct (i2c_probe c s) as [[|] s1| |]; try reflexivity.
  - unfold ret. destruct (Z.eqb_spec c 0) as [->|_]; [|reflexivity].
    exfalso. apply Hnz. now left.
  - rewrite IH; [reflexivity|]. intros Hin. apply Hnz. now right.
Qed.

Lemma lcd_init_scan_refines s :
  (9 <= spin_limit)%nat -> lcd_init_scan s = probe_first scan_candidates s.
Proof.
  intros Hf. unfold scan_candidates. rewrite probe_first_app.
  2:{ vm_compute. intros [E|[E|[E|[E|[E|[E|[E|[E|[]]]]]]]]]; discriminate. }
  unfold lcd_init_scan, i2c_probe_range.
  change (u8 32) with 32. change (u8 39) with 39.
  change (u8 56) with 56. change (u8 63) with 63.
  unfold bind.
  rewrite (i2c_probe_range_loop_refines 39 8) by (cbn; lia).
  change (Z.of_nat 8) with 8.
  destruct (probe_first (seqZ 32 8) s) as [a s1| |]; try reflexivity.
  destruct (negb (a =? 0)); [reflexivity|].
  apply (i2c_probe_range_loop_refines 63 8); cbn; lia.
Qed.

(** ** lcd_init, block by block *)

Lemma lcd_write_blank_row (r : nat) s :
  (r < 2)%nat ->
  lcd_write 0 (Z.of_nat r) 16 (cstr "") s =
  Done tt (set_log (Ev_IRQ_restore :: Ev_IRQ_save I2C_IRQ_PRI :: log s)
             (set_text (list_inserts (16 * r) (replicate 16 32) (text s)) s)).
Proof.
  intros Hr. unfold lcd_write, bind. unfold IRQ_save at 1, trace at 1, modify at 1.
  destruct (lcd_write_loops_spec 0 (Z.of_nat r) 16 (cstr "")
              (set_log (Ev_IRQ_save I2C_IRQ_PRI :: log s) s)) as (c & m & E);
    [vm_compute; split; discriminate|lia|vm_compute; split; discriminate
    |constructor|].
  change (pad_count _ _) with 16 in E. change (Z.min _ _) with 0 in E.
  rewrite E. exec. do 2 f_equal.
  destruct r as [|[|r]]; [reflexivity|reflexivity|lia].
Qed.

Lemma lcd_clear_spec s :
  lcd_clear s =
  Done tt (set_log (Ev_IRQ_restore :: Ev_IRQ_save I2C_IRQ_PRI ::
                    Ev_IRQ_restore :: Ev_IRQ_save I2C_IRQ_PRI :: log s)
             (set_text (list_inserts 0 blank_text (text s)) s)).
Proof.
  unfold lcd_clear, bind.
  rewrite (lcd_write_blank_row 0) by lia.
  rewrite (lcd_write_blank_row 1) by lia.
  exec. do 2 f_equal.
  change (16 * 1)%nat with (16 + 0)%nat.
  now rewrite list_inserts_app_at.
Qed.

Lemma lcd_init_floating_check_post s :
  post lcd_init_floating_check s (fun _ s' =>
    steady_with (fun _ => True) s s' /\
    In (Ev_gpio_configure_pin SCL GPI_pull_down) (log s') /\
    In (Ev_gpio_configure_pin SDA GPI_pull_down) (log s')).
Proof.
  unfold lcd_init_floating_check. do 4 wp_prim.
  destruct (pin_in (n_pin s)); cbn [negb]; [wp_prim|]; apply post_ret;
    (split; [|cbn; auto]);
    (split; [reflexivity|]); (split; [reflexivity|]); (split; [exact id|]);
    eexists [_; _; _]; (split; [reflexivity|repeat constructor]).
Qed.

Lemma lcd_init_fail_first s :
  post (lcd_init_fail false) s (fun b s' =>
    b = false /\ torn_down s' /\ steady_with (fun _ => True) s s').
Proof.
  apply post_conj; [|apply post_conj].
  - unfold lcd_init_fail, post. exec. reflexivity.
  - unfold lcd_init_fail, post, torn_down. exec.
    split; [reflexivity|]. split; [reflexivity|].
    split; [apply land_lnot_same|]. split; [apply land_lnot_same|].
    split; [reflexivity|]. split; [reflexivity|].
    eexists _, _. reflexivity.
  - apply (steady_lcd_init_fail (fun _ => True)); intros; exact I.
Qed.

Lemma i2c_probe_range_loop_bounds fuel lo e : 0 <= lo -> e < 255 -> forall a s,
  lo <= a ->
  post (i2c_probe_range_loop fuel a e) s (fun r _ => r = 0 \/ lo <= r <= e).
Proof.
  intros Hlo He. induction fuel as [|fuel IH]; intros a s Ha; [exact I|].
  cbn [i2c_probe_range_loop]. wp_prim.
  destruct (Z.leb_spec a e); cbn [andb]; [|now left].
  destruct (negb (i2c_dead s)); [|now left].
  apply post_bind. apply post_intro. intros [|] s1 _.
  - right. lia.
  - apply IH. unfold u8. rewrite Z.mod_small; lia.
Qed.

Lemma lcd_init_scan_candidates s :
  post lcd_init_scan s (fun a _ => a = 0 \/ In a scan_candidates).
Proof.
  unfold lcd_init_scan, i2c_probe_range. apply post_bind.
  eapply post_mono; [apply (i2c_probe_range_loop_bounds _ 0x20); [lia|reflexivity|easy]|].
  cbv beta. intros a s1 Ha.
  assert (Hin : forall r lo, lo = 0x20 \/ lo = 0x38 -> lo <= r <= lo + 7 ->
                             In r scan_candidates).
  { intros r lo Hlo Hr. unfold scan_candidates. apply in_or_app.
    destruct Hlo as [-> | ->]; [left|right]; apply list_elem_of_In, elem_of_seqZ; lia. }
  destruct (Z.eqb_spec a 0) as [->|Hnz]; cbn [negb].
  - eapply post_mono; [apply (i2c_probe_range_loop_bounds _ 0x38); [lia|reflexivity|easy]|].
    cbv beta. intros r _ [->|Hr]; [now left|right].
    apply (Hin r 0x38); [now right|]. change (u8 63) with 63 in Hr. lia.
  - apply post_ret. right. destruct Ha as [->|Hr]; [contradiction|].
    apply (Hin a 0x20); [now left|]. change (u8 39) with 39 in Hr. lia.
Qed.

Lemma lcd_init_detect_post s :
  post lcd_init_detect s (fun found s' =>
    dead_sticky s s' /\ log_extends (fun _ => True) s s' /\
    if found then
      i2c_dead s' = false /\ In (i2c_addr s') scan_candidates /\
      i2c_addr s' <> 0 /\ In (found_report (i2c_addr s')) (log s') /\
      text s' = list_inserts 0 blank_text (text s)
    else i2c_addr s' = i2c_addr s /\ text s' = text s).
Proof.
  unfold lcd_init_detect. apply post_bind.
  eapply post_mono.
  { apply post_conj; [apply lcd_init_scan_post|apply post_conj;
      [apply lcd_init_scan_candidates|
       apply (steady_lcd_init_scan (fun _ => True)); intros; exact I]]. }
  cbv beta. intros a s1 (Hd & Hc & Ht & Ha & Hs & new & Hl & _).
  destruct (Z.eqb_spec a 0) as [->|Hnz].
  - do 2 wp_prim. apply post_ret. exec.
    split; [exact Hs|]. split; [|split; assumption].
    eexists (_ :: new). split; [now rewrite Hl|]. now apply Forall_forall.
  - do 2 wp_prim. eapply post_bind_Done; [apply lcd_clear_spec|].
    apply post_ret. exec.
    split; [exact Hs|]. split.
    { eexists (_ :: _ :: _ :: _ :: _ :: new). split; [now rewrite Hl|].
      now apply Forall_forall. }
    split; [destruct (i2c_dead s1); [exfalso; exact (Hnz (Hd eq_refl))|reflexivity]|].
    split; [destruct Hc as [->|Hc]; [contradiction|exact Hc]|].
    split; [exact Hnz|]. split; [|now rewrite Ht].
    do 4 right. now left.
Qed.

Lemma lcd_init_irqs_post s :
  post lcd_init_irqs s (fun _ s' =>
    irq_en s' I2C_EVENT_IRQ = true /\ irq_en s' I2C_ERROR_IRQ = true /\
    irq_en s' DMA1_CH4_IRQ = true /\
    regs s' I2C_CR1 = regs s I2C_CR1 /\
    regs s' I2C_CR2 = Z.lor (regs s I2C_CR2) I2C_CR2_ITERREN /\
    regs s' RCC_APB1ENR = regs s RCC_APB1ENR /\
    pin_cfg s' = pin_cfg s /\ exists deadline, timeout_timer s' = Some deadline).
Proof. unfold lcd_init_irqs, post. exec. repeat split. eauto. Qed.

Lemma land_lor_same a m : Z.land (Z.lor a m) m = m.
Proof.
  apply Z.bits_inj'. intros n Hn.
  rewrite Z.land_spec, Z.lor_spec. destruct (Z.testbit a n), (Z.testbit m n); reflexivity.
Qed.

(** ** lcd_init as a whole *)

#[local] Instance stays_armed_preorder : PreOrder stays_armed.
Proof. split; [exact (fun s a => a)|]. intros a b c F G A. exact (G (F A)). Qed.

#[local] Instance regs_same_preorder : PreOrder regs_same.
Proof.
  split; [easy|]. intros a b c (R1 & I1 & T1) (R2 & I2 & T2).
  unfold regs_same. repeat split; congruence.
Qed.

Lemma land_lor_keep a m p : Z.land a p = p -> Z.land (Z.lor a m) p = p.
Proof.
  intros E. apply Z.bits_inj'. intros n Hn.
  apply (f_equal (fun x => Z.testbit x n)) in E.
  rewrite Z.land_spec in *. rewrite Z.lor_spec.
  destruct (Z.testbit a n), (Z.testbit m n), (Z.testbit p n); auto.
Qed.

Ltac armed_leaf :=
  unfold stays_armed, armed; exec;
  intros (A1 & A2 & A3 & A4 & A5 & A6 & A7 & A8 & A9);
  repeat (split; [first [assumption | apply land_lor_keep; assumption]|]);
  first [assumption | eexists; reflexivity].

Lemma stays_armed_i2c_wait_loop fuel t m : keeps stays_armed (i2c_wait_loop fuel t m).
Proof. induction fuel; cbn [i2c_wait_loop]; keeps_tac armed_leaf. Qed.

Lemma stays_armed_i2c_wait m : keeps stays_armed (i2c_wait m).
Proof.
  pose proof stays_armed_i2c_wait_loop.
  unfold i2c_wait. keeps_tac armed_leaf.
Qed.

Lemma stays_armed_i2c_start a : keeps stays_armed (i2c_start a).
Proof.
  intros s. unfold i2c_start. do 2 wp_prim.
  wp_keeps stays_armed_i2c_wait.
  assert (K1 : stays_armed s s') by (etransitivity; [|eassumption]; armed_leaf).
  destruct a0; cbn [negb]; [|now apply post_ret].
  wp_prim. wp_keeps stays_armed_i2c_wait.
  assert (K2 : stays_armed s s'0)
    by (etransitivity; [exact K1|]; etransitivity; [|eassumption]; armed_leaf).
  destruct a0; cbn [negb]; [|now apply post_ret].
  wp_prim. apply post_ret. etransitivity; [exact K2|]. armed_leaf.
Qed.

Lemma regs_same_lcd_init_unwedge : keeps regs_same lcd_init_unwedge.
Proof.
  unfold lcd_init_unwedge.
  keeps_tac ltac:(unfold regs_same; exec; repeat split).
Qed.

Ltac post_ends_true :=
  cbv zeta; repeat (apply post_bind; apply post_intro; intros ? ? _);
  apply post_ret; first [discriminate | intros E; discriminate E | reflexivity].

Lemma lcd_init_hd44780_first_post s :
  post (lcd_init_hd44780 false) s (fun b s' =>
    steady_with (fun _ => True) s s' /\ (b = false -> torn_down s')).
Proof.
  apply post_conj.
  { apply (steady_lcd_init_hd44780 (fun _ => True)); intros; exact I. }
  unfold lcd_init_hd44780. wp_prim. apply post_bind. apply post_intro.
  intros [|] s1 _; cbn [negb].
  - post_ends_true.
  - eapply post_mono; [apply lcd_init_fail_first|]. cbv beta. tauto.
Qed.

Lemma post_bind_keeps (R : state -> state -> Prop) `{!PreOrder R} {A B}
      (m : M A) (k : A -> M B) s0 s (Q : B -> state -> Prop) :
  keeps R m -> R s0 s -> (forall a s', R s0 s' -> post (k a) s' Q) ->
  post (bind m k) s Q.
Proof.
  intros Hm HR Hk. apply post_bind. eapply post_mono; [apply Hm|].
  cbv beta. intros a s' HR'. apply Hk. etransitivity; eassumption.
Qed.

Ltac any_leaf :=
  unfold steady_with, dead_sticky; exec;
  split; [reflexivity|split; [reflexivity|
    split; [intros ?; first [assumption|reflexivity]|
      first [ exists []; split; [reflexivity|constructor]
            | eexists [_]; split; [reflexivity|repeat constructor] ]]]].

(* One step of lcd_init that keeps [steady_with (fun _ => True)]. *)
Ltac wp_steady K HR :=
  eapply (post_bind_keeps (steady_with (fun _ => True)));
  [ K | exact HR | clear HR; intros ? ? HR ].
Ltac wp_steady_prim HR := wp_steady ltac:(keeps_tac any_leaf) HR.
Ltac wp_steady_call L HR := wp_steady ltac:(apply (L (fun _ => True)); intros; exact I) HR.

Lemma lcd_init_body_first_post s :
  post (lcd_init_body false) s (fun b s' =>
    In (Ev_gpio_configure_pin SCL GPI_pull_down) (log s') /\
    In (Ev_gpio_configure_pin SDA GPI_pull_down) (log s') /\
    if b then
      i2c_dead s = false /\ In (i2c_addr s') scan_candidates /\
      i2c_addr s' <> 0 /\ In (found_report (i2c_addr s')) (log s') /\
      text s' = list_inserts 0 blank_text (text s)
    else torn_down s' /\ (i2c_dead s = true -> i2c_addr s' = i2c_addr s)).
Proof.
  enough (G : forall s0, steady_with (fun _ => True) s0 s ->
    post (lcd_init_body false) s (fun b s' =>
      In (Ev_gpio_configure_pin SCL GPI_pull_down) (log s') /\
      In (Ev_gpio_configure_pin SDA GPI_pull_down) (log s') /\
      if b then
        i2c_dead s0 = false /\ In (i2c_addr s') scan_candidates /\
        i2c_addr s' <> 0 /\ In (found_report (i2c_addr s')) (log s') /\
        text s' = list_inserts 0 blank_text (text s0)
      else torn_down s' /\ (i2c_dead s0 = true -> i2c_addr s' = i2c_addr s0)))
    by (apply G; reflexivity).
  intros s0 HR. unfold lcd_init_body. cbn [negb].
  do 2 wp_steady_prim HR. wp_steady_call steady_lcd_init_unwedge HR.
  apply post_bind. apply post_bind.
  eapply post_mono; [apply lcd_init_floating_check_post|]. cbv beta.
  intros invalid s2 (HR2 & P1 & P2).
  assert (H02 := transitivity HR HR2). clear HR HR2.
  assert (KI : forall s', log_extends (fun _ => True) s2 s' ->
             In (Ev_gpio_configure_pin SCL GPI_pull_down) (log s') /\
             In (Ev_gpio_configure_pin SDA GPI_pull_down) (log s')).
  { intros sf L. split; eapply log_extends_In; eassumption. }
  clear P1 P2.
  assert (HR : steady_with (fun _ => True) s2 s2) by reflexivity.
  wp_steady_prim HR. apply post_ret.
  destruct invalid.
  { eapply post_mono; [apply lcd_init_fail_first|]. cbv beta.
    intros b sf (-> & TD & ST).
    destruct (KI sf) as (K1 & K2); [apply (transitivity HR ST)|].
    split; [exact K1|]. split; [exact K2|]. split; [exact TD|]. intros _.
    destruct (transitivity H02 (transitivity HR ST)) as (_ & A & _). exact A. }
  do 7 wp_steady_prim HR.
  apply post_bind. eapply post_mono; [apply lcd_init_detect_post|]. cbv beta.
  intros found s3 (DS & LE & F).
  assert (KI3 : forall s', log_extends (fun _ => True) s3 s' ->
             In (Ev_gpio_configure_pin SCL GPI_pull_down) (log s') /\
             In (Ev_gpio_configure_pin SDA GPI_pull_down) (log s')).
  { intros sf L. apply KI. destruct HR as (_ & _ & _ & L2).
    exact (transitivity L2 (transitivity LE L)). }
  clear KI. destruct found; cbn [negb].
  2:{ eapply post_mono; [apply lcd_init_fail_first|]. cbv beta.
      intros b sf (-> & TD & ST).
      destruct (KI3 sf) as (K1 & K2); [apply ST|].
      split; [exact K1|]. split; [exact K2|]. split; [exact TD|]. intros _.
      destruct F as (F1 & _). destruct ST as (_ & A & _).
      destruct (transitivity H02 HR) as (_ & A2 & _). congruence. }
  destruct F as (D3 & C3 & N3 & Rp & T3).
  assert (Fin : forall sf, steady_with (fun _ => True) s3 sf ->
    In (Ev_gpio_configure_pin SCL GPI_pull_down) (log sf) /\
    In (Ev_gpio_configure_pin SDA GPI_pull_down) (log sf) /\
    i2c_dead s0 = false /\ In (i2c_addr sf) scan_candidates /\
    i2c_addr sf <> 0 /\ In (found_report (i2c_addr sf)) (log sf) /\
    text sf = list_inserts 0 blank_text (text s0)).
  { intros sf (T' & A' & _ & L').
    destruct (KI3 sf L') as (K1 & K2). split; [exact K1|]. split; [exact K2|].
    destruct H02 as (T02 & _ & D02 & _). destruct HR as (T2 & _ & D2 & _).
    split.
    { destruct (i2c_dead s0) eqn:E0; [|reflexivity].
      rewrite (DS (D2 (D02 E0))) in D3. discriminate. }
    rewrite A', T', T3, T2, T02. repeat split; auto.
    eapply log_extends_In; eassumption. }
  clear HR. assert (HS : steady_with (fun _ => True) s3 s3) by reflexivity.
  wp_steady_call steady_lcd_init_irqs HS. wp_prim.
  match goal with |- context [?a =? OLED_ADDR] => destruct (a =? OLED_ADDR) end.
  - wp_steady_call steady_oled_init HS. apply post_ret. apply Fin, HS.
  - eapply post_mono; [apply lcd_init_hd44780_first_post|]. cbv beta.
    intros b s4 (ST & TD). assert (HS4 := transitivity HS ST).
    destruct b; [apply Fin, HS4|].
    destruct (KI3 s4) as (K1 & K2); [apply HS4|].
    split; [exact K1|]. split; [exact K2|]. split; [exact (TD eq_refl)|].
    intros D0. destruct (Fin s4 HS4) as (_ & _ & D0' & _). congruence.
Qed.

(** ** A reinitialization always leaves the driver armed *)

Lemma keeps_rmw (R : state -> state -> Prop) `{!PreOrder R} {B} r (F : Z -> Z)
      (rest : M B) :
  (forall s, R s (set_log (Ev_reg_write r (F (regs s r)) :: log s)
                    (set_regs (<[r := F (regs s r)]> (regs s)) s))) ->
  keeps R rest ->
  keeps R (v <- reg_read r ;; reg_write r (F v) ;;; rest).
Proof.
  intros Hw Hr s.
  eapply post_bind_Done; [reflexivity|].
  eapply post_bind_Done; [reflexivity|].
  eapply post_mono; [apply Hr|]. cbv beta. intros _ s' Hs.
  etransitivity; [apply Hw|exact Hs].
Qed.

Ltac armed_tac :=
  repeat first
    [ lazymatch goal with
      | |- keeps _ (bind (reg_read _) (fun v => bind (reg_write _ (@?F v)) _)) =>
          apply keeps_rmw; [exact _ | intros ?; armed_leaf | ]
      end
    | keeps_step armed_leaf ].

Lemma stays_armed_i2c_cmd c : keeps stays_armed (i2c_cmd c).
Proof. pose proof stays_armed_i2c_wait. unfold i2c_cmd. armed_tac. Qed.

Lemma stays_armed_write4 v : keeps stays_armed (write4 v).
Proof. pose proof stays_armed_i2c_cmd. unfold write4. armed_tac. Qed.

Lemma stays_armed_emit8 p v sg : keeps stays_armed (emit8 p v sg).
Proof. unfold emit8, emit4. armed_tac. Qed.

Lemma stays_armed_dma_start sz : keeps stays_armed (dma_start sz).
Proof. unfold dma_start. armed_tac. Qed.

(* oled_init switches the controller off and on again (Fast Mode), so it
   is armed again only from the second store to CR2 on. *)
Lemma stays_armed_oled_init : keeps stays_armed oled_init.
Proof.
  pose proof stays_armed_dma_start.
  intros s. unfold oled_init. cbv zeta. do 7 wp_prim.
  match goal with
  | |- post ?m ?s1 _ =>
      assert (K : keeps stays_armed m)
        by (unfold oled_start_i2c; cbv zeta; armed_tac);
      eapply post_mono; [apply K|]
  end.
  cbv beta. intros _ s' HR A. apply HR. revert A.
  unfold armed. exec. intros (A1 & A2 & A3 & A4 & A5 & A6 & A7 & A8 & A9).
  split; [exact A1|]. split; [exact A2|]. split; [exact A3|].
  split; [apply Z.land_diag|]. split; [apply land_lor_same|].
  split; [exact A6|]. split; [exact A7|]. split; [exact A8|exact A9].
Qed.

Lemma stays_armed_lcd_init_hd44780_reinit :
  keeps stays_armed (lcd_init_hd44780 true).
Proof.
  pose proof stays_armed_i2c_start. pose proof stays_armed_write4.
  pose proof stays_armed_emit8. pose proof stays_armed_dma_start.
  unfold lcd_init_hd44780, lcd_init_fail. cbv beta iota zeta delta [when negb]. armed_tac.
Qed.

Lemma lcd_init_body_reinit_armed s :
  post (lcd_init_body true) s (fun _ s' => armed s').
Proof.
  unfold lcd_init_body. cbn [negb]. do 2 wp_prim.
  wp_keeps regs_same_lcd_init_unwedge. destruct H1 as (R1 & _).
  wp_prim. cbv beta iota. do 7 wp_prim. wp_prim. cbv beta iota. cbn [negb].
  apply post_bind. eapply post_mono; [apply lcd_init_irqs_post|]. cbv beta.
  intros [] s3 (I1 & I2 & I3 & I4 & I5 & I6 & I7 & I8).
  assert (A3 : armed s3).
  { unfold armed.
    split; [exact I1|]. split; [exact I2|]. split; [exact I3|].
    split; [rewrite I4; apply Z.land_diag|].
    split; [rewrite I5; apply land_lor_same|].
    split; [rewrite I6; exec; rewrite R1; apply land_lor_same|].
    split; [now rewrite I7|]. split; [now rewrite I7|]. exact I8. }
  wp_prim. destruct (i2c_addr s3 =? OLED_ADDR).
  - wp_keeps stays_armed_oled_init. apply post_ret. auto.
  - eapply post_mono; [apply stays_armed_lcd_init_hd44780_reinit|]. cbv beta.
    intros b s4 HR. exact (HR A3).
Qed.

(** ** Properties of the bus primitives and of lcd_init *)

(** X1. A synchronous wait ends in exactly one of three ways: its last
    read of SR1 had the awaited bits (true, dead flag untouched); an error
    flag was seen, the error flags were cleared and the wait left at once
    (false, dead flag untouched); or the clock had moved more than 10 ms
    past the first reading, and the wait set the bus-dead flag (false).
    It does end once the clock passes the bound. *)
Theorem i2c_wait_outcomes m s :
  clock_passes (now_in (n_now s)) (S (n_now s)) spin_limit ->
  exists ok s',
    i2c_wait m s = Done ok s' /\
    wait_outcome (u8 m) (now_in (n_now s)) s ok s'.
Proof.
  intros Hc. destruct (i2c_wait_total m s Hc) as (ok & s' & E).
  exists ok, s'. split; [exact E|].
  exact (post_Done _ _ _ _ _ (i2c_wait_post m s) E).
Qed.

(** X2. With the bus-dead flag set, i2c_probe_range probes nothing and
    reports no device, leaving the state as it was; and whenever a range
    scan ends with the flag set it reports no device. *)
Theorem i2c_probe_range_stops_when_dead a e s :
  (0 < spin_limit)%nat ->
  (i2c_dead s = true -> i2c_probe_range a e s = Done 0 s) /\
  (forall r s', i2c_probe_range a e s = Done r s' -> i2c_dead s' = true -> r = 0).
Proof.
  intros Hf. split.
  - intros D. now apply i2c_probe_range_dead.
  - intros r s' E.
    exact (post_Done _ _ _ _ _ (i2c_probe_range_loop_post spin_limit (u8 e) (u8 a) s) E).
Qed.

(** X3. For an end address below 255, i2c_probe_range returns 0 or an
    address of the range; it never touches the text buffer or the stored
    address, never clears the bus-dead flag, and logs none of the events
    of the bus check, the detector's report or the teardown. *)
Theorem i2c_probe_range_result a e s r s' :
  u8 e < 255 ->
  i2c_probe_range a e s = Done r s' ->
  (r = 0 \/ u8 a <= r <= u8 e) /\ steady_with routine_event s s'.
Proof.
  intros He E. split.
  - refine (post_Done _ _ _ _ _
              (i2c_probe_range_loop_bounds spin_limit (u8 a) (u8 e) _ He (u8 a) s _) E).
    + unfold u8. apply Z.mod_pos_bound. lia.
    + lia.
  - refine (keeps_Done _ _ _ _ _ (steady_i2c_probe_range routine_event _ a e) E).
    intros ev ? ?. now split.
Qed.

(** X4. The address scan of lcd_init is the in-order scan of 0x20..0x27
    then 0x38..0x3f that keeps the first acknowledging address and probes
    nothing more once the bus is marked dead. *)
Theorem lcd_init_scan_probes_in_order s :
  (9 <= spin_limit)%nat ->
  lcd_init_scan s = probe_first scan_candidates s /\
  scan_candidates = [0x20; 0x21; 0x22; 0x23; 0x24; 0x25; 0x26; 0x27;
                     0x38; 0x39; 0x3a; 0x3b; 0x3c; 0x3d; 0x3e; 0x3f].
Proof.
  intros Hf. split; [now apply lcd_init_scan_refines|reflexivity].
Qed.

Lemma lcd_init_reinit_eq s :
  i2c_addr s <> 0 -> lcd_init s = lcd_init_body true s.
Proof.
  intros Ha. unfold lcd_init, bind, gets.
  destruct (Z.eqb_spec (i2c_addr s) 0); [contradiction|reflexivity].
Qed.

Lemma lcd_init_first_eq s :
  i2c_addr s = 0 -> lcd_init s = lcd_init_body false s.
Proof. intros Ha. unfold lcd_init, bind, gets. now rewrite Ha. Qed.

Lemma routine_event_intro e :
  detection_event e = false -> teardown_event e = false -> routine_event e.
Proof. now split. Qed.

(** X5. A reinitialization (an address is already stored) leaves the
    text buffer and the stored address as they were, does not clear the
    bus-dead flag, performs none of the bus check, the scan report or the
    teardown, and, whether it succeeds or fails, returns with the driver
    armed: event, error and DMA interrupts enabled, controller and clock
    enabled, pins on the alternate function, watchdog timer set. *)
Theorem lcd_init_reinit s b s' :
  i2c_addr s <> 0 ->
  lcd_init s = Done b s' ->
  steady_with routine_event s s' /\ armed s'.
Proof.
  intros Ha E. rewrite lcd_init_reinit_eq in E by exact Ha. split.
  - exact (keeps_Done _ _ _ _ _
             (steady_lcd_init_body_reinit routine_event routine_event_intro) E).
  - exact (post_Done _ _ _ _ _ (lcd_init_body_reinit_armed s) E).
Qed.

(** X6. The first initialization (no address stored) always makes the
    weak pull-down bus check.  If it succeeds, the bus-dead flag was clear
    at the call, the stored address is a non-zero scan candidate whose
    report was logged, and the text buffer was blanked from its start.
    If it fails, it returns after the teardown: error and DMA interrupts
    disabled, controller and clock disabled, both pins weak pull-up
    inputs. *)
Theorem lcd_init_first_call s b s' :
  i2c_addr s = 0 ->
  lcd_init s = Done b s' ->
  In (Ev_gpio_configure_pin SCL GPI_pull_down) (log s') /\
  In (Ev_gpio_configure_pin SDA GPI_pull_down) (log s') /\
  if b then
    i2c_dead s = false /\ In (i2c_addr s') scan_candidates /\
    i2c_addr s' <> 0 /\ In (found_report (i2c_addr s')) (log s') /\
    text s' = list_inserts 0 blank_text (text s)
  else torn_down s'.
Proof.
  intros Ha E. rewrite lcd_init_first_eq in E by exact Ha.
  pose proof (post_Done _ _ _ _ _ (lcd_init_body_first_post s) E) as (P1 & P2 & P3).
  split; [exact P1|]. split; [exact P2|]. destruct b; [exact P3|apply P3].
Qed.

(** X7. With no address stored and the bus-dead flag already set,
    lcd_init cannot succeed: it returns false after the teardown and
    stores no address. *)
Theorem lcd_init_dead_bus s b s' :
  i2c_addr s = 0 -> i2c_dead s = true ->
  lcd_init s = Done b s' ->
  b = false /\ torn_down s' /\ i2c_addr s' = 0.
Proof.
  intros Ha D E. rewrite lcd_init_first_eq in E by exact Ha.
  pose proof (post_Done _ _ _ _ _ (lcd_init_body_first_post s) E) as (_ & _ & P3).
  destruct b.
  - destruct P3 as (D' & _). congruence.
  - destruct P3 as (TD & A). split; [reflexivity|]. split; [exact TD|].
    rewrite (A D). exact Ha.
Qed.

(** ** Error recovery and the bus-dead flag *)

Lemma IRQ_i2c_error_post s :
  i2c_addr s <> 0 ->
  post IRQ_i2c_error s (fun _ s' => steady_with routine_event s s' /\ armed s').
Proof.
  intros Ha0.
  enough (G : forall s0, i2c_addr s0 <> 0 -> steady_with routine_event s0 s ->
    post IRQ_i2c_error s (fun _ s' => steady_with routine_event s0 s' /\ armed s'))
    by (apply G; [exact Ha0|reflexivity]).
  clear Ha0. intros s0 Ha HR.
  unfold IRQ_i2c_error.
  do 9 (eapply (post_bind_keeps (steady_with routine_event));
        [ keeps_tac ltac:(steady_leaf routine_event_intro)
        | exact HR | clear HR; intros ? ? HR ]).
  apply post_bind. unfold post at 1.
  rewrite lcd_init_reinit_eq by (destruct HR as (_ & A & _); congruence).
  match goal with
  | |- match lcd_init_body true ?c with _ => _ end =>
      pose proof (steady_lcd_init_body_reinit routine_event routine_event_intro c) as K1;
      pose proof (lcd_init_body_reinit_armed c) as K2;
      unfold post in K1, K2;
      destruct (lcd_init_body true c) as [b s1| |]; [|exact I..]
  end.
  apply post_ret. split; [etransitivity; eassumption|exact K2].
Qed.

(** X8. Error recovery keeps the display: when a device address is
    stored, the bus-error handler resets the controller and reinitializes
    without touching the text buffer or the stored address, without
    clearing the bus-dead flag, with no bus check, scan report or teardown,
    and it returns with the driver armed again (interrupts enabled,
    watchdog timer set), whether or not the reinitialization succeeded. *)
Theorem IRQ_i2c_error_keeps_display s s' :
  i2c_addr s <> 0 ->
  IRQ_i2c_error s = Done tt s' ->
  steady_with routine_event s s' /\ armed s'.
Proof.
  intros Ha E. exact (post_Done _ _ _ _ _ (IRQ_i2c_error_post s Ha) E).
Qed.

#[local] Instance dead_sticky_preorder : PreOrder dead_sticky.
Proof. split; [exact (fun s d => d)|]. intros a b c F G D. exact (G (F D)). Qed.

Lemma steady_sticky P s s' : steady_with P s s' -> dead_sticky s s'.
Proof. now intros (_ & _ & D & _). Qed.

Lemma sticky_of_steady {A} (m : M A) :
  keeps (steady_with (fun _ => True)) m -> keeps dead_sticky m.
Proof. apply keeps_mono. intros s s'. apply steady_sticky. Qed.

Ltac sticky_leaf :=
  unfold dead_sticky; exec; intros ?;
  repeat match goal with |- context [if ?c then _ else _] => destruct c end;
  first [assumption | reflexivity].

Lemma sticky_lcd_write_copy str : forall col min p,
  keeps dead_sticky (lcd_write_copy str col min p).
Proof.
  induction str as [|c str IH]; intros col min p; cbn [lcd_write_copy];
    keeps_tac sticky_leaf.
Qed.
#[local] Hint Resolve sticky_lcd_write_copy : keeps.

Lemma sticky_lcd_write_pad fuel : forall col min p,
  keeps dead_sticky (lcd_write_pad fuel col min p).
Proof.
  induction fuel as [|fuel IH]; intros col min p; cbn [lcd_write_pad];
    keeps_tac sticky_leaf.
Qed.
#[local] Hint Resolve sticky_lcd_write_pad : keeps.

Lemma sticky_lcd_write col row min str : keeps dead_sticky (lcd_write col row min str).
Proof. unfold lcd_write, lcd_write_loops. keeps_tac sticky_leaf. Qed.
#[local] Hint Resolve sticky_lcd_write : keeps.

Lemma sticky_lcd_init_unwedge : keeps dead_sticky lcd_init_unwedge.
Proof. apply sticky_of_steady, steady_lcd_init_unwedge. intros; exact I. Qed.
#[local] Hint Resolve sticky_lcd_init_unwedge : keeps.

Lemma sticky_lcd_init_floating_check : keeps dead_sticky lcd_init_floating_check.
Proof.
  intros s. eapply post_mono; [apply lcd_init_floating_check_post|].
  cbv beta. intros _ s' (S1 & _). exact (steady_sticky _ _ _ S1).
Qed.
#[local] Hint Resolve sticky_lcd_init_floating_check : keeps.

Lemma sticky_lcd_init_fail reinit : keeps dead_sticky (lcd_init_fail reinit).
Proof. apply sticky_of_steady, steady_lcd_init_fail; intros; exact I. Qed.
#[local] Hint Resolve sticky_lcd_init_fail : keeps.

Lemma sticky_lcd_init_detect : keeps dead_sticky lcd_init_detect.
Proof.
  intros s. eapply post_mono; [apply lcd_init_detect_post|].
  cbv beta. intros _ s' (S1 & _). exact S1.
Qed.
#[local] Hint Resolve sticky_lcd_init_detect : keeps.

Lemma sticky_lcd_init_irqs : keeps dead_sticky lcd_init_irqs.
Proof. apply sticky_of_steady, steady_lcd_init_irqs. intros; exact I. Qed.
#[local] Hint Resolve sticky_lcd_init_irqs : keeps.

Lemma sticky_oled_init : keeps dead_sticky oled_init.
Proof. apply sticky_of_steady, steady_oled_init. intros; exact I. Qed.
#[local] Hint Resolve sticky_oled_init : keeps.

Lemma sticky_lcd_init_hd44780 reinit : keeps dead_sticky (lcd_init_hd44780 reinit).
Proof. apply sticky_of_steady, steady_lcd_init_hd44780; intros; exact I. Qed.
#[local] Hint Resolve sticky_lcd_init_hd44780 : keeps.

Lemma sticky_lcd_init_body reinit : keeps dead_sticky (lcd_init_body reinit).
Proof. unfold lcd_init_body. keeps_tac sticky_leaf. Qed.
#[local] Hint Resolve sticky_lcd_init_body : keeps.

Lemma sticky_lcd_init : keeps dead_sticky lcd_init.
Proof. unfold lcd_init. keeps_tac sticky_leaf. Qed.
#[local] Hint Resolve sticky_lcd_init : keeps.

(** X9. Nothing in the driver ever clears the bus-dead flag: once a
    synchronous wait has timed out, the flag stays set across every entry
    point (initialization, the three interrupt handlers, the watchdog
    callback and the text interface). *)
Theorem dead_flag_never_cleared :
  keeps dead_sticky lcd_init /\ keeps dead_sticky IRQ_i2c_error /\
  keeps dead_sticky IRQ_i2c_event /\ keeps dead_sticky IRQ_dma1_ch4_tc /\
  keeps dead_sticky timeout_fn /\ keeps dead_sticky lcd_sync /\
  keeps dead_sticky lcd_clear /\ (forall on, keeps dead_sticky (lcd_backlight on)) /\
  forall col row min str, keeps dead_sticky (lcd_write col row min str).
Proof.
  split; [exact sticky_lcd_init|].
  split; [unfold IRQ_i2c_error; keeps_tac sticky_leaf|].
  split; [unfold IRQ_i2c_event; keeps_tac sticky_leaf|].
  split; [apply sticky_of_steady, steady_IRQ_dma1_ch4_tc; intros; exact I|].
  split; [unfold timeout_fn; keeps_tac sticky_leaf|].
  split; [apply sticky_of_steady, steady_lcd_sync; intros; exact I|].
  split; [unfold lcd_clear; keeps_tac sticky_leaf|].
  split; [intros on; unfold lcd_backlight; keeps_tac sticky_leaf|].
  exact sticky_lcd_write.
Qed.

(** ** The text interface at its edges *)

(** X10. lcd_write never stores beyond column 15 of the addressed row,
    whatever the length of the string and whatever [int] the minimum width
    is: for a start column in 0..16 and a row in {0,1} it copies the first
    16 - col characters at most, counts the minimum width down by one per
    copied character in [int] arithmetic (so that a width at the bottom of
    the range wraps to the top), then pads with spaces while that count is
    positive and column 16 is not reached, and every other cell of the
    32-cell text buffer keeps its content. *)
Theorem lcd_write_truncates col row min str s :
  0 <= col <= 16 -> row = 0 \/ row = 1 -> length (text s) = 32%nat ->
  Forall (fun c => c <> 0) str ->
  int_min <= min <= int_max ->
  let start := 16 * row + col in
  let n := Z.min (Z.of_nat (length str)) (16 - col) in
  let npad := pad_count (col + n) (int_wrap (min - n)) in
  exists s',
    lcd_write col row min str s = Done tt s' /\
    text s' = take (Z.to_nat start) (text s) ++ take (Z.to_nat n) str ++
              replicate (Z.to_nat npad) 32 ++
              drop (Z.to_nat (start + n + npad)) (text s) /\
    length (text s') = 32%nat /\
    start + n + npad <= 16 * row + 16.
Proof.
  intros Hcol Hrow Hlen Hnz Hmin start n npad.
  assert (Hn : 0 <= n <= 16 - col) by (unfold n; lia).
  assert (Hnp : 0 <= npad <= 16 - col - n) by (unfold npad, pad_count; lia).
  assert (Hl : length (take (Z.to_nat n) str) = Z.to_nat n).
  { rewrite length_take. unfold n. lia. }
  destruct (lcd_write_loops_spec col row min str
              (set_log (Ev_IRQ_save I2C_IRQ_PRI :: log s) s)) as (c & m & E);
    try (auto; unfold int_min in *; lia).
  fold start n npad in E.
  unfold lcd_write, bind. unfold IRQ_save at 1, trace at 1, modify at 1.
  rewrite E. eexists. split; [reflexivity|]. st_simpl.
  assert (Hfit : (Z.to_nat start + length (take (Z.to_nat n) str ++
                    replicate (Z.to_nat npad) 32%Z) <= length (text s))%nat).
  { rewrite length_app, length_replicate, Hl. unfold start. lia. }
  split; [|split].
  - rewrite list_inserts_splice by exact Hfit.
    rewrite <- app_assoc. do 3 f_equal.
    rewrite length_app, length_replicate, Hl. f_equal. lia.
  - rewrite length_inserts. exact Hlen.
  - unfold start. lia.
Qed.

(** X11. lcd_clear blanks the whole display: whatever the 32 cells held,
    it returns with every cell holding a space, and leaves the backlight
    setting, the stored address, the refresh counter and the DMA buffer
    alone. *)
Theorem lcd_clear_blanks s :
  length (text s) = 32%nat ->
  exists s',
    lcd_clear s = Done tt s' /\ text s' = blank_text /\
    _bl s' = _bl s /\ i2c_addr s' = i2c_addr s /\
    refresh_count s' = refresh_count s /\ buffer s' = buffer s.
Proof.
  intros Hlen. rewrite lcd_clear_spec. eexists. split; [reflexivity|].
  exec. repeat split.
  rewrite list_inserts_0_splice by (rewrite Hlen; cbn; lia).
  change (length blank_text) with 32%nat.
  rewrite drop_ge by lia. apply app_nil_r.
Qed.

(** ** The backlight bit *)

Lemma land_8_testbit x : Z.land x 8 = if Z.testbit x 3 then 8 else 0.
Proof.
  apply Z.bits_inj'. intros n Hn. rewrite Z.land_spec.
  destruct (Z.eq_dec n 3) as [->|Hne].
  - destruct (Z.testbit x 3); reflexivity.
  - replace (Z.testbit 8 n) with false.
    + rewrite andb_false_r. destruct (Z.testbit x 3); [|now rewrite Z.bits_0].
      change 8 with (2 ^ 3). now rewrite Z.pow2_bits_false.
    + change 8 with (2 ^ 3). now rewrite Z.pow2_bits_false.
Qed.

Lemma testbit_u8_3 x : Z.testbit (u8 x) 3 = Z.testbit x 3.
Proof. unfold u8. change 256 with (2 ^ 8). apply Z.mod_pow2_bits_low. lia. Qed.

Lemma emit4_bytes_bit3 x :
  Forall (fun b => Z.testbit b 3 = Z.testbit x 3) (emit4_bytes x).
Proof.
  unfold emit4_bytes. repeat constructor;
    rewrite ?testbit_u8_3, ?Z.lor_spec, ?testbit_u8_3;
    change (Z.testbit _EN 3) with false; now rewrite ?orb_false_r.
Qed.

Lemma emit8_bytes_bl bl val signals :
  Z.testbit signals 3 = false ->
  Forall (fun b => Z.testbit b 3 = Z.testbit bl 3) (emit8_bytes bl val signals).
Proof.
  intros Hs. unfold emit8_bytes. apply Forall_app. split.
  - apply Forall_forall. intros b Hb.
    rewrite (proj1 (Forall_forall _ _) (emit4_bytes_bit3 _) b Hb).
    rewrite Z.lor_spec, Z.land_spec, !testbit_u8_3, Z.lor_spec, testbit_u8_3, Hs.
    change (Z.testbit 240 3) with false. now rewrite andb_false_r.
  - apply Forall_forall. intros b Hb.
    rewrite (proj1 (Forall_forall _ _) (emit4_bytes_bit3 _) b Hb).
    rewrite Z.lor_spec, Z.shiftl_spec_low by lia.
    now rewrite !testbit_u8_3, Z.lor_spec, testbit_u8_3, Hs.
Qed.

(** X12. The backlight setting is picked up by the next frame: after
    lcd_backlight, every one of the 204 bytes the character-mode
    serializer queues has the backlight bit (bit 3) set when the backlight
    is on and clear when it is off, whatever the text holds. *)
Theorem lcd_backlight_in_frame (on : bool) s :
  exists s1 s2,
    lcd_backlight on s = Done tt s1 /\
    lcd_prep_buffer s1 = Done 204 s2 /\
    buffer s2 = list_inserts 0 (lcd_frame s1) (buffer s) /\
    length (lcd_frame s1) = 204%nat /\
    Forall (fun b => Z.land b _BL = if on then _BL else 0) (lcd_frame s1).
Proof.
  eexists _, _. split; [reflexivity|]. rewrite lcd_prep_buffer_spec.
  split; [reflexivity|]. split; [reflexivity|]. split; [apply lcd_frame_length|].
  assert (Hb : Z.testbit (if on then _BL else 0) 3 = on) by now destruct on.
  assert (G : forall v sg, Z.testbit sg 3 = false ->
            Forall (fun b => Z.land b _BL = if on then _BL else 0)
                   (emit8_bytes (if on then _BL else 0) v sg)).
  { intros v sg Hs. apply Forall_forall. intros b Hin.
    pose proof (proj1 (Forall_forall _ _) (emit8_bytes_bl _ v sg Hs) b Hin) as Eb.
    change _BL with 8 at 1. rewrite land_8_testbit, Eb, Hb. reflexivity. }
  unfold lcd_frame, lcd_frame_row. exec.
  apply Forall_flat_map, Forall_forall. intros i _.
  apply Forall_app. split; [now apply G|].
  apply Forall_flat_map, Forall_forall. intros j _. now apply G.
Qed.

(** ** The bitmap renderer *)

Lemma glyph_index_shown ch :
  0 <= ch < 256 -> glyph_index ch = shown_char ch - 0x20.
Proof.
  intros Hch. unfold glyph_index, shown_char.
  destruct (Z.leb_spec 0x20 ch) as [Hlo|Hlo]; cbn [andb].
  - rewrite Z.mod_small by lia.
    destruct (Z.leb_spec ch 0x7e), (Z.gtb_spec (ch - 0x20) 0x5e); lia.
  - replace ((ch - 32) mod 2 ^ 32) with (ch - 32 + 2 ^ 32).
    + destruct (Z.gtb_spec (ch - 32 + 2 ^ 32) 0x5e); lia.
    + symmetry. rewrite <- (Z.mod_unique (ch - 32) (2 ^ 32) (-1) (ch - 32 + 2 ^ 32));
        lia.
Qed.

Lemma shown_char_idem ch : shown_char (shown_char ch) = shown_char ch.
Proof.
  assert (E : shown_char ch = ch /\ 32 <= ch <= 126 \/ shown_char ch = 46).
  { unfold shown_char.
    destruct (Z.leb_spec 0x20 ch), (Z.leb_spec ch 0x7e); cbn [andb]; auto. }
  destruct E as [(E & _)| E]; rewrite E; [exact E|reflexivity].
Qed.

Lemma glyph_half_shown ch half :
  0 <= ch < 256 -> glyph_half ch half = glyph_half (shown_char ch) half.
Proof.
  intros Hch. unfold glyph_half.
  assert (Hs : 0 <= shown_char ch < 256).
  { unfold shown_char. destruct ((0x20 <=? ch) && (ch <=? 0x7e)); lia. }
  rewrite (glyph_index_shown ch Hch), (glyph_index_shown _ Hs).
  now rewrite shown_char_idem.
Qed.

(** X13. The bitmap renderer never indexes the font beyond its 95 glyphs
    (0x20..0x7e): a character code outside that range, including codes
    below 0x20 whose offset wraps as an unsigned int, is drawn with the
    glyph of the full stop, so a text row renders exactly as the row with
    every unprintable byte replaced by a full stop. *)
Theorem oled_unprintable_as_dot s (r : nat) :
  (r < 2)%nat -> length (text s) = 32%nat -> length (buffer s) = 256%nat ->
  Forall (fun ch => 0 <= ch < 256) (text s) ->
  (forall ch, 0 <= glyph_index ch <= 0x5e) /\
  oled_convert_text_row (16 * Z.of_nat r) s =
  Done tt (set_buffer (oled_row_image (map shown_char (text_row s r))) s).
Proof.
  intros Hr Ht Hb Hch. split.
  { intros ch. unfold glyph_index.
    pose proof (Z.mod_pos_bound (ch - 32) (2 ^ 32) ltac:(lia)).
    destruct (Z.gtb_spec ((ch - 32) mod 2 ^ 32) 0x5e); lia. }
  rewrite oled_convert_text_row_spec by assumption. do 2 f_equal.
  assert (Hrow : Forall (fun ch => 0 <= ch < 256) (text_row s r)).
  { unfold text_row. apply Forall_take, Forall_drop, Hch. }
  unfold oled_row_image, oled_page. do 2 f_equal.
  all: induction Hrow as [|ch row Hc _ IH]; [reflexivity|];
    cbn [map flat_map]; now rewrite IH, (glyph_half_shown ch _ Hc).
Qed.

(** X14. oled_init switches the controller to Fast Mode, queues the 22
    SSD1306 setup commands, each behind a 0x80 command marker, followed by
    the 19-byte re-addressing sequence, and starts one DMA of exactly
    these 63 bytes with the event, error and DMA requests of the
    controller enabled and a START requested; it resets the row cursor
    and touches neither the text buffer nor the refresh counter. *)
Theorem oled_init_queues_setup s :
  exists s',
    oled_init s = Done tt s' /\
    buffer s' = list_inserts 0 (flat_map (fun c => [0x80; c]) init_cmds ++
                                readdress_cmds (_bl s)) (buffer s) /\
    length (flat_map (fun c => [0x80; c]) init_cmds ++ readdress_cmds (_bl s))
      = 63%nat /\
    regs s' DMA1_CH4_CNDTR = 63 /\ regs s' DMA1_CH4_CCR = DMA_CCR_start /\
    regs s' I2C_CCR = Z.lor I2C_CCR_FS (I2C_CCR_CCR 30) /\
    regs s' I2C_TRISE = 12 /\
    regs s' I2C_CR1 = Z.lor I2C_CR1_PE I2C_CR1_START /\
    regs s' I2C_CR2 =
      Z.lor (Z.lor (Z.lor (I2C_CR2_FREQ 36) I2C_CR2_ITERREN) I2C_CR2_ITEVTEN)
            I2C_CR2_DMAEN /\
    oled_row s' = 0 /\ refresh_count s' = refresh_count s /\
    text s' = text s /\ i2c_addr s' = i2c_addr s.
Proof.
  unfold oled_init. exec. rewrite writes_cmd_table. exec.
  rewrite oled_start_i2c_spec. exec.
  cbn [length flat_map init_cmds app Nat.add Z.to_nat Pos.to_nat Pos.iter_op].
  rewrite dma_start_spec by (cbn; lia).
  eexists. split; [reflexivity|]. exec.
  split.
  { symmetry. apply (list_inserts_app_l (flat_map (fun c => [0x80; c]) init_cmds)). }
  repeat split; reflexivity.
Qed.

(** ** The character-mode frame for any text *)

Lemma emit8_wire bl sig v :
  bl = 0 \/ bl = _BL -> sig = 0 \/ sig = _RS -> 0 <= v < 256 ->
  emit8_bytes bl v sig = wire_byte bl sig v.
Proof.
  intros Hbl Hsig Hv.
  assert (K : forallb (fun v => bool_decide (emit8_bytes bl v sig = wire_byte bl sig v))
                      (seqZ 0 256) = true)
    by (destruct Hbl as [-> | ->], Hsig as [-> | ->]; vm_compute; reflexivity).
  rewrite forallb_forall in K.
  assert (Hin : In v (seqZ 0 256)) by (apply list_elem_of_In, elem_of_seqZ; lia).
  exact (bool_decide_eq_true_1 _ (K v Hin)).
Qed.

Lemma flat_map_text_from (g : Z -> list Z) s pc (n : nat) : forall k0,
  flat_map (fun j => g (text_at (pc + j) s)) (seqZ k0 (Z.of_nat n)) =
  flat_map g (text_from (pc + k0) n s).
Proof.
  induction n as [|n IH]; intros k0; [reflexivity|].
  rewrite seqZ_cons by lia. cbn [flat_map text_from].
  replace (Z.pred (Z.of_nat (S n))) with (Z.of_nat n) by lia.
  rewrite IH. do 3 f_equal. lia.
Qed.

Lemma Forall_text_row (P : Z -> Prop) s r :
  Forall P (text s) -> Forall P (text_row s r).
Proof. intros F. unfold text_row. apply Forall_take, Forall_drop, F. Qed.

Lemma flat_map_ext_Forall {A B} (f g : A -> list B) (P : A -> Prop) l :
  (forall x, P x -> f x = g x) -> Forall P l -> flat_map f l = flat_map g l.
Proof.
  intros E F. induction F as [|x l Hx _ IH]; [reflexivity|].
  cbn [flat_map]. now rewrite IH, E.
Qed.

(** X15. For any 2x16 text of byte values and either backlight setting,
    lcd_prep_buffer queues exactly the HD44780 frame of that text: the
    row-0 address command, the 16 characters of row 0, the row-1 address
    command, the 16 characters of row 1, every byte as its high then its
    low nibble, each nibble strobed three times, RS on the characters only
    and the backlight bit on every wire byte; it counts one refresh and
    leaves the text and the rest of the DMA buffer alone. *)
Theorem lcd_prep_buffer_frame s :
  length (text s) = 32%nat -> length (buffer s) = 256%nat ->
  Forall (fun c => 0 <= c < 256) (text s) ->
  _bl s = 0 \/ _bl s = _BL ->
  exists s',
    lcd_prep_buffer s = Done 204 s' /\
    take 204 (buffer s') = hd44780_frame (_bl s) (text_row s 0) (text_row s 1) /\
    drop 204 (buffer s') = drop 204 (buffer s) /\
    refresh_count s' = u8 (refresh_count s + 1) /\ text s' = text s.
Proof.
  intros Ht Hlen Hch Hbl. rewrite lcd_prep_buffer_spec.
  eexists; split; [reflexivity|].
  cbn [buffer set_buffer].
  rewrite list_inserts_0_splice by (rewrite lcd_frame_length; lia).
  rewrite (lcd_frame_length s).
  rewrite take_app_length' by apply (lcd_frame_length s).
  rewrite drop_app_length' by apply (lcd_frame_length s).
  split; [|repeat split].
  assert (Row : forall r : nat, (r < 2)%nat ->
            flat_map (fun j => emit8_bytes (_bl s) (text_at (16 * Z.of_nat r + j) s) _RS)
                     (seqZ 0 16) =
            flat_map (wire_byte (_bl s) _RS) (text_row s r)).
  { intros r Hr. change (seqZ 0 16) with (seqZ 0 (Z.of_nat 16)).
    rewrite (flat_map_text_from (fun c => emit8_bytes (_bl s) c _RS) s
               (16 * Z.of_nat r) 16 0).
    rewrite Z.add_0_r, text_from_row by assumption.
    apply (flat_map_ext_Forall _ _ (fun c => 0 <= c < 256)).
    - intros c Hc. apply emit8_wire; auto.
    - now apply Forall_text_row. }
  unfold lcd_frame, hd44780_frame.
  change (seqZ 0 2) with [Z.of_nat 0; Z.of_nat 1]. cbn [flat_map].
  unfold lcd_frame_row. rewrite !Row by lia. rewrite app_nil_r, <- !app_assoc.
  rewrite !emit8_wire by (first [exact Hbl | now left | now vm_compute]).
  reflexivity.
Qed.

(** ** lcd_sync in character mode *)

Lemma u8_add_l a b : u8 (u8 a + b) = u8 (a + b).
Proof. unfold u8. apply Zplus_mod_idemp_l. Qed.

Lemma u8_sub_l a b : u8 (u8 a - b) = u8 (a - b).
Proof. unfold u8. apply Zminus_mod_idemp_l. Qed.

Lemma repeat_IRQ_character_mode n : forall s,
  i2c_addr s <> OLED_ADDR ->
  exists s',
    repeat_ n IRQ_dma1_ch4_tc s = Done tt s' /\
    u8 (refresh_count s') = u8 (refresh_count s + Z.of_nat n) /\
    text s' = text s /\ i2c_addr s' = i2c_addr s /\ n_irq s' = n_irq s.
Proof.
  induction n as [|n IH]; intros s Ha.
  - exists s. rewrite Z.add_0_r. repeat split.
  - cbn [repeat_]. unfold bind.
    destruct (IRQ_dma1_ch4_tc_character_mode s Ha) as (s1 & E1 & R1 & _ & T1 & A1 & N1).
    rewrite E1. destruct (IH s1) as (s2 & E2 & R2 & T2 & A2 & N2); [congruence|].
    exists s2. split; [exact E2|]. split; [|repeat split; congruence].
    rewrite R2, R1, u8_add_l. f_equal; lia.
Qed.

Lemma serve_irqs_character_mode s :
  i2c_addr s <> OLED_ADDR ->
  exists s',
    serve_irqs s = Done tt s' /\
    u8 (refresh_count s') = u8 (refresh_count s + Z.of_nat (irq_in (n_irq s))) /\
    text s' = text s /\ i2c_addr s' = i2c_addr s /\ n_irq s' = S (n_irq s).
Proof.
  intros Ha. unfold serve_irqs, bind.
  destruct (repeat_IRQ_character_mode (irq_in (n_irq s)) (set_n_irq (S (n_irq s)) s) Ha)
    as (s' & E & R & T & A & N).
  exists s'. split; [exact E|]. repeat split; assumption.
Qed.

Lemma runs_upto_shift from k :
  runs_upto from (S k) = Z.of_nat (irq_in from) + runs_upto (S from) k.
Proof.
  induction k as [|k IH].
  - cbn [runs_upto]. now rewrite Nat.add_1_r.
  - change (runs_upto from (S (S k)))
      with (runs_upto from (S k) + Z.of_nat (irq_in (from + S (S k)))).
    rewrite IH. cbn [runs_upto].
    replace (S from + S k)%nat with (from + S (S k))%nat by lia. lia.
Qed.

Lemma lcd_sync_loop_character_mode c k : forall fuel s acc,
  i2c_addr s <> OLED_ADDR ->
  u8 (refresh_count s) = u8 (c + acc) ->
  (k < fuel)%nat ->
  (forall j, (j < k)%nat -> u8 (acc + runs_upto (n_irq s) j) < 2) ->
  2 <= u8 (acc + runs_upto (n_irq s) k) ->
  exists s',
    lcd_sync_loop fuel c s = Done tt s' /\
    u8 (refresh_count s') = u8 (c + acc + runs_upto (n_irq s) k) /\
    n_irq s' = (n_irq s + S k)%nat /\ text s' = text s /\
    i2c_addr s' = i2c_addr s.
Proof.
  induction k as [|k IH]; intros fuel s acc Ha Hrc Hf Hlow Hhigh;
    (destruct fuel as [|fuel]; [lia|]); cbn [lcd_sync_loop]; unfold bind at 1;
    destruct (serve_irqs_character_mode s Ha) as (s1 & E1 & R1 & T1 & A1 & N1);
    rewrite E1; unfold bind at 1, gets at 1;
    assert (Hd : u8 (refresh_count s1 - c) = u8 (acc + Z.of_nat (irq_in (n_irq s))))
      by (rewrite <- u8_sub_l, R1, <- u8_add_l, Hrc, u8_add_l, u8_sub_l;
          f_equal; lia).
  - cbn [runs_upto] in Hhigh. rewrite Hd.
    destruct (Z.ltb_spec (u8 (acc + Z.of_nat (irq_in (n_irq s)))) 2); [lia|].
    exists s1. split; [reflexivity|]. cbn [runs_upto].
    split; [|repeat split; [lia|assumption..]].
    rewrite R1, <- u8_add_l, Hrc, u8_add_l. f_equal; lia.
  - pose proof (Hlow 0%nat ltac:(lia)) as H0'. cbn [runs_upto] in H0'. rewrite Hd.
    destruct (Z.ltb_spec (u8 (acc + Z.of_nat (irq_in (n_irq s)))) 2); [|lia].
    unfold bind, cpu_relax, trace, modify.
    destruct (IH fuel (set_log (Ev_cpu_relax :: log s1) s1)
                (acc + Z.of_nat (irq_in (n_irq s))))
      as (s' & E & R & N & T & A).
    + cbn. congruence.
    + cbn [refresh_count set_log]. rewrite R1, <- u8_add_l, Hrc, u8_add_l.
      f_equal; lia.
    + lia.
    + intros j Hj. cbn [n_irq set_log]. rewrite N1.
      specialize (Hlow (S j) ltac:(lia)). rewrite runs_upto_shift in Hlow.
      now rewrite <- Z.add_assoc.
    + cbn [n_irq set_log]. rewrite N1. rewrite runs_upto_shift in Hhigh.
      now rewrite <- Z.add_assoc.
    + exists s'. split; [exact E|]. cbn [n_irq set_log text i2c_addr] in *.
      rewrite N1 in *. rewrite runs_upto_shift.
      split; [rewrite R; f_equal; lia|]. repeat split; [lia|congruence..].
Qed.

(** X16. In character mode lcd_sync returns at the first poll at which
    the number of DMA-completion interrupts served since the call is at
    least 2 modulo 256, and the 8-bit refresh counter has then advanced by
    exactly that number modulo 256; the text buffer is unchanged. *)
Theorem lcd_sync_character_mode s k :
  i2c_addr s <> OLED_ADDR ->
  (k < spin_limit)%nat ->
  (forall j, (j < k)%nat -> u8 (runs_upto (n_irq s) j) < 2) ->
  2 <= u8 (runs_upto (n_irq s) k) ->
  exists s',
    lcd_sync s = Done tt s' /\
    u8 (refresh_count s' - refresh_count s) = u8 (runs_upto (n_irq s) k) /\
    n_irq s' = (n_irq s + S k)%nat /\ text s' = text s.
Proof.
  intros Ha Hf Hlow Hhigh. unfold lcd_sync. unfold bind at 1, gets at 1.
  destruct (lcd_sync_loop_character_mode (refresh_count s) k spin_limit s 0)
    as (s' & E & R & N & T & _); auto.
  - now rewrite Z.add_0_r.
  - exists s'. split; [exact E|]. split; [|split; assumption].
    rewrite <- u8_sub_l, R, u8_sub_l. f_equal; lia.
Qed.

(** ** The synchronous HD44780 start-up sequence *)

Lemma bus_ops_nil s : bus_ops [] s s.
Proof. exists []. split; reflexivity. Qed.

Lemma bus_ops_app l1 l2 s s1 s2 :
  bus_ops l1 s s1 -> bus_ops l2 s1 s2 -> bus_ops (l1 ++ l2) s s2.
Proof.
  intros (n1 & E1 & F1) (n2 & E2 & F2). exists (n2 ++ n1).
  split; [now rewrite E2, E1, app_assoc|].
  now rewrite filter_app, F1, F2, rev_app_distr.
Qed.

Lemma emits_ret {A} (a : A) : emits (ret a) [].
Proof. intros s. apply bus_ops_nil. Qed.

Lemma emits_bind {A B} (m : M A) (k : A -> M B) l1 l2 :
  emits m l1 -> (forall a, emits (k a) l2) -> emits (bind m k) (l1 ++ l2).
Proof.
  intros Hm Hk s. apply post_bind. eapply post_mono; [apply Hm|].
  cbv beta. intros a s1 H1. eapply post_mono; [apply Hk|].
  cbv beta. intros b s2 H2. eapply bus_ops_app; eassumption.
Qed.

Lemma filter_bus_op_none l :
  Forall (fun e => bus_op e = false) l -> List.filter bus_op l = [].
Proof.
  induction l as [|e l IH]; intros F; [reflexivity|].
  inversion F as [|? ? He F']; subst. cbn [List.filter]. rewrite He. auto.
Qed.

Lemma emits_quiet {A} (m : M A) :
  keeps (log_extends (fun e => bus_op e = false)) m -> emits m [].
Proof.
  intros K s. eapply post_mono; [apply K|]. cbv beta.
  intros _ s' (new & E & F). exists new. split; [exact E|].
  now apply filter_bus_op_none.
Qed.

Lemma emits_one (e : event) :
  bus_op e = true -> emits (trace e) [e].
Proof.
  intros He s. exists [e]. split; [reflexivity|]. cbn [List.filter]. now rewrite He.
Qed.

Lemma emits_reg_write_DR v : emits (reg_write I2C_DR v) [Ev_reg_write I2C_DR v].
Proof. intros s. exists [Ev_reg_write I2C_DR v]. split; reflexivity. Qed.

Ltac quiet_leaf :=
  unfold quiet_on_bus, log_extends; exec;
  first [ exists []; split; [reflexivity|constructor]
        | eexists [_]; split;
          [reflexivity|constructor; [reflexivity|constructor]] ].

Section Quiet.
#[local] Instance quiet_on_bus_preorder : PreOrder quiet_on_bus.
Proof. apply log_extends_preorder. Qed.

Local Ltac go := keeps_tac quiet_leaf.

Lemma quiet_poll_cr1 : keeps quiet_on_bus poll_cr1.
Proof. intros s. unfold post, poll_cr1. unfold quiet_on_bus. quiet_leaf. Qed.
#[local] Hint Resolve quiet_poll_cr1 : keeps.

Lemma quiet_dma_start sz : keeps quiet_on_bus (dma_start sz).
Proof. unfold dma_start, quiet_on_bus. go. Qed.
#[local] Hint Resolve quiet_dma_start : keeps.

Lemma quiet_emit8 p v sg : keeps quiet_on_bus (emit8 p v sg).
Proof. unfold emit8, emit4, quiet_on_bus. go. Qed.
#[local] Hint Resolve quiet_emit8 : keeps.

Lemma quiet_lcd_prep_buffer : keeps quiet_on_bus lcd_prep_buffer.
Proof. unfold lcd_prep_buffer. go. Qed.
#[local] Hint Resolve quiet_lcd_prep_buffer : keeps.

Lemma quiet_i2c_wait_loop fuel t m : keeps quiet_on_bus (i2c_wait_loop fuel t m).
Proof. unfold quiet_on_bus. induction fuel; cbn [i2c_wait_loop]; go. Qed.
#[local] Hint Resolve quiet_i2c_wait_loop : keeps.

Lemma quiet_i2c_wait m : keeps quiet_on_bus (i2c_wait m).
Proof. unfold i2c_wait. go. Qed.
#[local] Hint Resolve quiet_i2c_wait : keeps.

Lemma quiet_wait_stop_clear fuel : keeps quiet_on_bus (wait_stop_clear fuel).
Proof. induction fuel; cbn [wait_stop_clear]; go. Qed.
#[local] Hint Resolve quiet_wait_stop_clear : keeps.

Lemma quiet_oled_convert_text_row pc : keeps quiet_on_bus (oled_convert_text_row pc).
Proof.
  unfold oled_convert_text_row, oled_convert_text_row_7x16, oled_convert_text_row_8x16.
  go.
Qed.
#[local] Hint Resolve quiet_oled_convert_text_row : keeps.

Lemma quiet_oled_start_i2c buf : keeps quiet_on_bus (oled_start_i2c buf).
Proof. unfold oled_start_i2c. go. Qed.
#[local] Hint Resolve quiet_oled_start_i2c : keeps.

Lemma quiet_oled_wait_btf fuel : keeps quiet_on_bus (oled_wait_btf fuel).
Proof. induction fuel; cbn [oled_wait_btf]; go. Qed.
#[local] Hint Resolve quiet_oled_wait_btf : keeps.

Lemma quiet_oled_prep_buffer : keeps quiet_on_bus oled_prep_buffer.
Proof. unfold oled_prep_buffer. go. Qed.
#[local] Hint Resolve quiet_oled_prep_buffer : keeps.

Lemma quiet_IRQ_dma1_ch4_tc : keeps quiet_on_bus IRQ_dma1_ch4_tc.
Proof. unfold IRQ_dma1_ch4_tc. go. Qed.
#[local] Hint Resolve quiet_IRQ_dma1_ch4_tc : keeps.

Lemma quiet_serve_irqs : keeps quiet_on_bus serve_irqs.
Proof. unfold serve_irqs. go. Qed.
#[local] Hint Resolve quiet_serve_irqs : keeps.

Lemma quiet_lcd_sync_loop fuel c : keeps quiet_on_bus (lcd_sync_loop fuel c).
Proof. induction fuel; cbn [lcd_sync_loop]; go. Qed.
#[local] Hint Resolve quiet_lcd_sync_loop : keeps.

Lemma quiet_lcd_sync : keeps quiet_on_bus lcd_sync.
Proof. unfold lcd_sync. go. Qed.
#[local] Hint Resolve quiet_lcd_sync : keeps.

Lemma quiet_hd44780_tail reinit :
  keeps quiet_on_bus (p <- emit8 0 (Z.lor CMD_FUNCTIONSET FS_2LINE) 0 ;;
           p <- emit8 p CMD_DISPLAYCTL 0 ;;
           p <- emit8 p (Z.lor CMD_ENTRYMODE 2) 0 ;;
           p <- emit8 p (Z.lor CMD_DISPLAYCTL 4) 0 ;;
           cr2 <- reg_read I2C_CR2 ;;
           reg_write I2C_CR2 (Z.lor cr2 I2C_CR2_DMAEN) ;;;
           dma_start (Z.of_nat p) ;;;
           when (negb reinit) (lcd_sync ;;; lcd_backlight true) ;;;
           ret true).
Proof. go. Qed.

End Quiet.

Lemma emits_i2c_cmd c : emits (i2c_cmd c) [Ev_reg_write I2C_DR (u8 c)].
Proof.
  unfold i2c_cmd. cbv zeta.
  change [Ev_reg_write I2C_DR (u8 c)] with ([Ev_reg_write I2C_DR (u8 c)] ++ []).
  apply emits_bind; [apply emits_reg_write_DR|].
  intros _. apply emits_quiet, quiet_i2c_wait.
Qed.

Lemma emits_write4 v :
  emits (write4 v)
        [ Ev_reg_write I2C_DR (u8 (u8 v));
          Ev_reg_write I2C_DR (u8 (Z.lor (u8 v) _EN));
          Ev_reg_write I2C_DR (u8 (u8 v)) ].
Proof.
  unfold write4. cbv zeta.
  apply (emits_bind _ _ [_] [_; _]); [apply emits_i2c_cmd|]. intros _.
  apply (emits_bind _ _ [_] [_]); [apply emits_i2c_cmd|]. intros _.
  apply (emits_bind _ _ [_] []); [apply emits_i2c_cmd|]. intros _.
  apply emits_ret.
Qed.

Lemma emits_delay_us us : emits (delay_us us) [Ev_delay_us us].
Proof. now apply emits_one. Qed.

Lemma quiet_lcd_init_fail reinit :
  keeps (log_extends (fun e => bus_op e = false)) (lcd_init_fail reinit).
Proof. unfold lcd_init_fail. keeps_tac quiet_leaf. Qed.

Ltac ops_prim r s' B :=
  apply post_bind; eapply post_mono;
  [apply emits_quiet; keeps_tac quiet_leaf|]; cbv beta; intros r s' B.
Ltac ops_call E r s' B :=
  apply post_bind; eapply post_mono; [apply E|]; cbv beta; intros r s' B.

Lemma i2c_start_ops a s :
  post (i2c_start a) s (fun ok s' =>
    if ok then bus_ops [Ev_reg_write I2C_DR (Z.shiftl (u8 a) 1)] s s'
    else bus_ops [] s s' \/ bus_ops [Ev_reg_write I2C_DR (Z.shiftl (u8 a) 1)] s s').
Proof.
  unfold i2c_start. cbv zeta.
  ops_prim cr1 s1 B1. ops_prim u2 s2 B2.
  ops_call (emits_quiet _ (quiet_i2c_wait I2C_SR1_SB)) ok3 s3 B3.
  assert (B03 : bus_ops [] s s3)
    by (apply (bus_ops_app [] [] s s1); [assumption|];
        apply (bus_ops_app [] [] s1 s2); assumption).
  destruct ok3; cbn [negb]; [|apply post_ret; now left].
  ops_call (emits_reg_write_DR (Z.shiftl (u8 a) 1)) u4 s4 B4.
  ops_call (emits_quiet _ (quiet_i2c_wait I2C_SR1_ADDR)) ok5 s5 B5.
  assert (B05 : bus_ops [Ev_reg_write I2C_DR (Z.shiftl (u8 a) 1)] s s5)
    by (apply (bus_ops_app [] [_] s s3); [assumption|];
        apply (bus_ops_app [_] [] s3 s4); assumption).
  destruct ok5; cbn [negb]; [|apply post_ret; now right].
  ops_prim u6 s6 B6. apply post_ret.
  apply (bus_ops_app [_] [] s s5); assumption.
Qed.

Lemma lcd_init_fail_false reinit s :
  post (lcd_init_fail reinit) s (fun b _ => b = false).
Proof. destruct reinit; unfold lcd_init_fail, post; exec; reflexivity. Qed.

Lemma hd44780_nibbles_ops reinit :
  emits (write4 (Z.shiftl 3 4) ;;;
         delay_us 4100 ;;;
         write4 (Z.shiftl 3 4) ;;;
         delay_us 100 ;;;
         write4 (Z.shiftl 3 4) ;;;
         write4 (Z.shiftl 2 4) ;;;
         p <- emit8 0 (Z.lor CMD_FUNCTIONSET FS_2LINE) 0 ;;
         p <- emit8 p CMD_DISPLAYCTL 0 ;;
         p <- emit8 p (Z.lor CMD_ENTRYMODE 2) 0 ;;
         p <- emit8 p (Z.lor CMD_DISPLAYCTL 4) 0 ;;
         cr2 <- reg_read I2C_CR2 ;;
         reg_write I2C_CR2 (Z.lor cr2 I2C_CR2_DMAEN) ;;;
         dma_start (Z.of_nat p) ;;;
         when (negb reinit) (lcd_sync ;;; lcd_backlight true) ;;;
         ret true)
        (nibble_ops 0x30 ++ [Ev_delay_us 4100] ++
         nibble_ops 0x30 ++ [Ev_delay_us 100] ++
         nibble_ops 0x30 ++ nibble_ops 0x20).
Proof.
  apply emits_bind; [apply (emits_write4 (Z.shiftl 3 4))|]. intros _.
  apply emits_bind; [apply emits_delay_us|]. intros _.
  apply emits_bind; [apply (emits_write4 (Z.shiftl 3 4))|]. intros _.
  apply emits_bind; [apply emits_delay_us|]. intros _.
  apply emits_bind; [apply (emits_write4 (Z.shiftl 3 4))|]. intros _.
  rewrite <- (app_nil_r (nibble_ops 32)).
  apply emits_bind; [apply (emits_write4 (Z.shiftl 2 4))|]. intros _.
  apply emits_quiet, quiet_hd44780_tail.
Qed.

(** X17. When lcd_init_hd44780 succeeds, the bus has seen, in this order
    and with nothing else in between: the device address, the nibble 0x30
    strobed (0x30, 0x34, 0x30), a 4100 us delay, the strobed 0x30 again,
    a 100 us delay, the strobed 0x30 a third time and the strobed 0x20
    that selects the 4-bit interface; every later byte goes out by DMA.
    When it fails, no nibble was sent: at most the address was written. *)
Theorem lcd_init_hd44780_sequence reinit s b s' :
  lcd_init_hd44780 reinit s = Done b s' ->
  if b then bus_ops (hd44780_start_ops (i2c_addr s)) s s'
  else bus_ops [] s s' \/
       bus_ops [Ev_reg_write I2C_DR (Z.shiftl (u8 (i2c_addr s)) 1)] s s'.
Proof.
  intros E.
  refine (post_Done _ _
            (fun (b : bool) (s' : state) =>
               if b then bus_ops (hd44780_start_ops (i2c_addr s)) s s'
               else bus_ops [] s s' \/
                    bus_ops [Ev_reg_write I2C_DR (Z.shiftl (u8 (i2c_addr s)) 1)] s s')
            _ _ _ E).
  clear E b s'.
  unfold lcd_init_hd44780. cbv zeta. wp_prim.
  ops_call (i2c_start_ops (i2c_addr s)) ok s1 H1.
  destruct ok; cbn [negb].
  - match goal with
    | |- post ?m ?st _ =>
        assert (P2 : post m st (fun b _ => b = true))
          by (repeat (apply post_bind; apply post_intro; intros ? ? _);
              apply post_ret; reflexivity);
        pose proof (post_conj _ _ _ _ (hd44780_nibbles_ops reinit st) P2) as P
    end.
    eapply post_mono; [exact P|].
    cbv beta. intros b' s2 (B2 & ->).
    exact (bus_ops_app [_] _ _ _ _ H1 B2).
  - eapply post_mono.
    { apply post_conj; [apply (emits_quiet _ (quiet_lcd_init_fail reinit))|
                        apply lcd_init_fail_false]. }
    cbv beta. intros b' s2 (B2 & ->).
    destruct H1 as [B1|B1]; [left|right].
    + exact (bus_ops_app [] [] _ _ _ B1 B2).
    + exact (bus_ops_app [_] [] _ _ _ B1 B2).
Qed.


(** ** A floating bus *)

(** X18. On a bus whose clock line reads low (floating, or held), the
    first initialization fails at the weak pull-down check: it enables
    the peripheral clock, tries no unwedging, reports an invalid bus and
    tears down, without ever configuring the controller, reading its
    status register or probing an address; no address is stored, and the
    text buffer and the bus-dead flag are as before. *)
Theorem lcd_init_floating_bus s :
  i2c_addr s = 0 ->
  pin_in (n_pin s) = false -> pin_in (S (n_pin s)) = false ->
  exists s',
    lcd_init s = Done false s' /\
    log s' =
      teardown_events (regs s I2C_CR1)
                      (Z.lor (regs s RCC_APB1ENR) RCC_APB1ENR_I2C2EN) ++
      [ Ev_printk "I2C: Invalid bus\n" [];
        Ev_delay_us 10;
        Ev_gpio_configure_pin SDA GPI_pull_down;
        Ev_gpio_configure_pin SCL GPI_pull_down;
        Ev_delay_us 10;
        Ev_gpio_configure_pin SDA GPO_opendrain_2MHz_HIGH;
        Ev_gpio_configure_pin SCL GPO_opendrain_2MHz_HIGH;
        Ev_reg_write RCC_APB1ENR (Z.lor (regs s RCC_APB1ENR) RCC_APB1ENR_I2C2EN) ] ++
      log s /\
    torn_down s' /\ n_sr1 s' = n_sr1 s /\ i2c_addr s' = 0 /\
    i2c_dead s' = i2c_dead s /\ text s' = text s.
Proof.
  intros Ha P0 P1. rewrite lcd_init_first_eq by exact Ha.
  unfold lcd_init_body, lcd_init_unwedge, lcd_init_floating_check, lcd_init_fail.
  cbn [negb]. exec. rewrite P0. exec. rewrite P1. exec.
  eexists. split; [reflexivity|]. exec.
  split; [reflexivity|]. split.
  { unfold torn_down. exec.
    split; [reflexivity|]. split; [reflexivity|].
    split; [apply land_lnot_same|]. split; [apply land_lnot_same|].
    split; [reflexivity|]. split; [reflexivity|].
    eexists _, _. reflexivity. }
  repeat split; auto.
Qed.

End DriverProofs.

(** * Concrete runs *)

Lemma IRQ_dma1_ch4_tc_spec_witness :
  exists s1 s',
    @oled_prep_buffer (example_hal false) bus_error_world
      (@dma_acknowledged (example_hal false) oled_frame_done_state) = Done 0 s1 /\
    @IRQ_dma1_ch4_tc (example_hal false) bus_error_world oled_frame_done_state
      = Done tt s' /\
    @dma_restarted (example_hal false) bus_error_world 0 s1 s' /\
    n_now s1 = n_now oled_frame_done_state /\ oled_row s' = 2.
Proof.
  destruct (@IRQ_dma1_ch4_tc_spec (example_hal false) bus_error_world
              oled_frame_done_state) as (_ & _ & _ & _ & _ & Herr).
  apply (Herr eq_refl eq_refl 0%nat).
  - vm_compute. lia.
  - split; [intros j Hj; lia|].
    split; [reflexivity|vm_compute; discriminate].
Defined.

(** C3 as stated fails on the zero-length path: the bitmap serializer
    bails with length 0, and the handler still programs and enables the
    DMA channel (with count 0) and rearms the watchdog. *)
Lemma IRQ_dma1_ch4_tc_zero_length_rearms :
  exists s1 s',
    @oled_prep_buffer (example_hal false) bus_error_world
      (@dma_acknowledged (example_hal false) oled_frame_done_state) = Done 0 s1 /\
    @IRQ_dma1_ch4_tc (example_hal false) bus_error_world oled_frame_done_state
      = Done tt s' /\
    timeout_timer oled_frame_done_state = None /\
    timeout_timer s' = Some (0xffffff - 200 * 9000) /\
    regs s' DMA1_CH4_CNDTR = 0 /\
    Z.land (regs s' DMA1_CH4_CCR) (@DMA_CCR_EN (example_hal false)) <> 0 /\
    hd_error (log s') = Some (Ev_timer_set (0xffffff - 200 * 9000)).
Proof.
  do 2 eexists.
  split; [vm_compute; reflexivity|].
  split; [vm_compute; reflexivity|].
  split; [reflexivity|]. split; [reflexivity|]. split; [reflexivity|].
  split; [vm_compute; discriminate|]. reflexivity.
Qed.

Lemma lcd_sync_advances_witness :
  exists s',
    @lcd_sync (example_hal false) quiet_world lcd_hello_state = Done tt s' /\
    2 <= u8 (refresh_count s' - refresh_count lcd_hello_state) < 256.
Proof.
  eexists. split.
  - vm_compute. reflexivity.
  - apply (@lcd_sync_advances (example_hal false) quiet_world lcd_hello_state).
    vm_compute. reflexivity.
Defined.

(** The same in bitmap mode: six completion interrupts (two full
    row0, row1, re-address cycles) pass before lcd_sync returns. *)
Example lcd_sync_bitmap_mode_run :
  exists s',
    @lcd_sync (example_hal false) quiet_world oled_hello_state = Done tt s' /\
    refresh_count s' = 2 /\ n_irq s' = 6%nat.
Proof.
  eexists. split; [vm_compute; reflexivity|]. split; reflexivity.
Qed.

Lemma i2c_wait_outcomes_witness :
  @clock_passes (example_hal false) stuck_bus_world
    (@now_in stuck_bus_world (n_now reset_state)) (S (n_now reset_state))
    (@spin_limit stuck_bus_world) /\
  exists ok s',
    @i2c_wait (example_hal false) stuck_bus_world 1 reset_state = Done ok s' /\
    @wait_outcome (example_hal false) stuck_bus_world (u8 1)
      (@now_in stuck_bus_world (n_now reset_state)) reset_state ok s'.
Proof.
  assert (Hc : @clock_passes (example_hal false) stuck_bus_world
                 (@now_in stuck_bus_world (n_now reset_state))
                 (S (n_now reset_state)) (@spin_limit stuck_bus_world)).
  { exists 1%nat. split; [vm_compute; lia|vm_compute; reflexivity]. }
  split; [exact Hc|].
  exact (@i2c_wait_outcomes (example_hal false) stuck_bus_world 1 reset_state Hc).
Defined.

Lemma i2c_probe_range_stops_when_dead_witness :
  (0 < @spin_limit quiet_world)%nat /\
  (i2c_dead dead_bus_state = true ->
   @i2c_probe_range (example_hal false) quiet_world 0x20 0x27 dead_bus_state =
   Done 0 dead_bus_state) /\
  (forall r s',
     @i2c_probe_range (example_hal false) quiet_world 0x20 0x27 dead_bus_state =
     Done r s' -> i2c_dead s' = true -> r = 0).
Proof.
  split; [vm_compute; lia|].
  apply (@i2c_probe_range_stops_when_dead (example_hal false) quiet_world
           0x20 0x27 dead_bus_state).
  vm_compute; lia.
Defined.

Lemma i2c_probe_range_result_witness :
  exists r s',
    @i2c_probe_range (example_hal false) quiet_world 0x20 0x27 reset_state =
    Done r s' /\
    (r = 0 \/ u8 0x20 <= r <= u8 0x27) /\ steady_with routine_event reset_state s'.
Proof.
  eexists _, _. split; [vm_compute; reflexivity|].
  eapply (@i2c_probe_range_result (example_hal false) quiet_world 0x20 0x27 reset_state);
    vm_compute; reflexivity.
Defined.

Lemma lcd_init_scan_probes_in_order_witness :
  (9 <= @spin_limit quiet_world)%nat /\
  @lcd_init_scan (example_hal false) quiet_world reset_state =
  @probe_first (example_hal false) quiet_world scan_candidates reset_state /\
  scan_candidates = [0x20; 0x21; 0x22; 0x23; 0x24; 0x25; 0x26; 0x27;
                     0x38; 0x39; 0x3a; 0x3b; 0x3c; 0x3d; 0x3e; 0x3f].
Proof.
  split; [vm_compute; lia|].
  apply (@lcd_init_scan_probes_in_order (example_hal false) quiet_world reset_state).
  vm_compute; lia.
Defined.

Lemma lcd_init_reinit_witness :
  exists b s',
    @lcd_init (example_hal false) quiet_world lcd_hello_state = Done b s' /\
    steady_with routine_event lcd_hello_state s' /\ @armed (example_hal false) s'.
Proof.
  eexists _, _. split; [vm_compute; reflexivity|].
  eapply (@lcd_init_reinit (example_hal false) quiet_world lcd_hello_state);
    [vm_compute; discriminate|vm_compute; reflexivity].
Defined.

Lemma lcd_init_first_call_witness :
  exists s',
    @lcd_init (example_hal false) quiet_world hello_state = Done true s' /\
    In (Ev_gpio_configure_pin SCL GPI_pull_down) (log s') /\
    In (Ev_gpio_configure_pin SDA GPI_pull_down) (log s') /\
    i2c_dead hello_state = false /\ In (i2c_addr s') scan_candidates /\
    i2c_addr s' <> 0 /\ In (found_report (i2c_addr s')) (log s') /\
    text s' = list_inserts 0 blank_text (text hello_state).
Proof.
  eexists. split; [vm_compute; reflexivity|].
  apply (@lcd_init_first_call (example_hal false) quiet_world hello_state true);
    vm_compute; reflexivity.
Defined.

Lemma lcd_init_dead_bus_witness :
  exists b s',
    @lcd_init (example_hal false) quiet_world dead_bus_state = Done b s' /\
    b = false /\ @torn_down (example_hal false) s' /\ i2c_addr s' = 0.
Proof.
  eexists _, _. split; [vm_compute; reflexivity|].
  eapply (@lcd_init_dead_bus (example_hal false) quiet_world dead_bus_state);
    vm_compute; reflexivity.
Defined.

Lemma IRQ_i2c_error_keeps_display_witness :
  exists s',
    @IRQ_i2c_error (example_hal false) quiet_world lcd_hello_state = Done tt s' /\
    steady_with routine_event lcd_hello_state s' /\ @armed (example_hal false) s'.
Proof.
  eexists. split; [vm_compute; reflexivity|].
  eapply (@IRQ_i2c_error_keeps_display (example_hal false) quiet_world lcd_hello_state);
    [vm_compute; discriminate|vm_compute; reflexivity].
Defined.

Lemma lcd_write_truncates_witness :
  exists s',
    @lcd_write (example_hal false) 0 0 int_min (cstr "a") hello_state =
    Done tt s' /\
    text s' = take (Z.to_nat (16 * 0 + 0)) (text hello_state) ++
              take (Z.to_nat (Z.min (Z.of_nat (length (cstr "a"))) (16 - 0)))
                   (cstr "a") ++
              replicate
                (Z.to_nat
                   (pad_count
                      (0 + Z.min (Z.of_nat (length (cstr "a"))) (16 - 0))
                      (int_wrap
                         (int_min - Z.min (Z.of_nat (length (cstr "a"))) (16 - 0)))))
                32 ++
              drop (Z.to_nat
                      (16 * 0 + 0 +
                       Z.min (Z.of_nat (length (cstr "a"))) (16 - 0) +
                       pad_count
                         (0 + Z.min (Z.of_nat (length (cstr "a"))) (16 - 0))
                         (int_wrap
                            (int_min -
                             Z.min (Z.of_nat (length (cstr "a"))) (16 - 0)))))
                   (text hello_state) /\
    length (text s') = 32%nat /\
    16 * 0 + 0 + Z.min (Z.of_nat (length (cstr "a"))) (16 - 0) +
    pad_count (0 + Z.min (Z.of_nat (length (cstr "a"))) (16 - 0))
              (int_wrap (int_min - Z.min (Z.of_nat (length (cstr "a"))) (16 - 0)))
    <= 16 * 0 + 16.
Proof.
  apply (@lcd_write_truncates (example_hal false) 0 0 int_min
           (cstr "a") hello_state).
  - lia.
  - now left.
  - reflexivity.
  - repeat constructor; discriminate.
  - vm_compute; split; discriminate.
Defined.

(** The same run, evaluated: the width [int_min] is counted down once for
    the 'a', wraps to [int_max], and the pad loop blanks cells 1..15. *)
Example lcd_write_int_min_run :
  exists s',
    @lcd_write (example_hal false) 0 0 int_min (cstr "a") hello_state = Done tt s' /\
    text s' = cstr "a" ++ replicate 15 32 ++ drop 16 (text hello_state).
Proof.
  eexists. split; [vm_compute; reflexivity|]. reflexivity.
Qed.

(** A string running past the end of row 1 is cut at column 16. *)
Example lcd_write_long_string_run :
  exists s',
    @lcd_write (example_hal false) 10 1 0 (cstr "ABCDEFGHIJ") hello_state =
    Done tt s' /\
    text s' = take 26 (text hello_state) ++ cstr "ABCDEF".
Proof.
  eexists. split; [vm_compute; reflexivity|]. reflexivity.
Qed.

Lemma lcd_clear_blanks_witness :
  exists s',
    @lcd_clear (example_hal false) hello_state = Done tt s' /\
    text s' = blank_text /\
    _bl s' = _bl hello_state /\ i2c_addr s' = i2c_addr hello_state /\
    refresh_count s' = refresh_count hello_state /\
    buffer s' = buffer hello_state.
Proof.
  apply (@lcd_clear_blanks (example_hal false) hello_state).
  reflexivity.
Defined.

Lemma oled_unprintable_as_dot_witness :
  (forall ch, 0 <= glyph_index ch <= 0x5e) /\
  @oled_convert_text_row (example_hal false) (16 * Z.of_nat 0) oled_odd_state =
  Done tt (set_buffer
             (@oled_row_image (example_hal false)
                (map shown_char (text_row oled_odd_state 0)))
             oled_odd_state).
Proof.
  apply (@oled_unprintable_as_dot (example_hal false) oled_odd_state 0).
  - lia.
  - reflexivity.
  - reflexivity.
  - let l := eval vm_compute in (text oled_odd_state) in
    change (Forall (fun ch => 0 <= ch < 256) l).
    repeat (constructor; [lia|]). constructor.
Defined.

Lemma lcd_prep_buffer_frame_witness :
  exists s',
    lcd_prep_buffer lcd_lit_state = Done 204 s' /\
    take 204 (buffer s') =
      hd44780_frame (_bl lcd_lit_state) (text_row lcd_lit_state 0)
                    (text_row lcd_lit_state 1) /\
    drop 204 (buffer s') = drop 204 (buffer lcd_lit_state) /\
    refresh_count s' = u8 (refresh_count lcd_lit_state + 1) /\
    text s' = text lcd_lit_state.
Proof.
  apply (lcd_prep_buffer_frame lcd_lit_state).
  - reflexivity.
  - reflexivity.
  - let l := eval vm_compute in (text lcd_lit_state) in
    change (Forall (fun ch => 0 <= ch < 256) l).
    repeat (constructor; [lia|]). constructor.
  - now right.
Defined.

Lemma lcd_sync_character_mode_witness :
  exists s',
    @lcd_sync (example_hal false) quiet_world lcd_hello_state = Done tt s' /\
    u8 (refresh_count s' - refresh_count lcd_hello_state) =
      u8 (@runs_upto quiet_world (n_irq lcd_hello_state) 1) /\
    n_irq s' = (n_irq lcd_hello_state + 2)%nat /\ text s' = text lcd_hello_state.
Proof.
  apply (@lcd_sync_character_mode (example_hal false) quiet_world lcd_hello_state 1).
  - vm_compute. discriminate.
  - vm_compute. lia.
  - intros j Hj. assert (j = 0%nat) as -> by lia. vm_compute. reflexivity.
  - vm_compute. discriminate.
Defined.

Lemma lcd_init_hd44780_sequence_witness :
  exists s',
    @lcd_init_hd44780 (example_hal false) quiet_world true lcd_hello_state =
    Done true s' /\
    bus_ops (hd44780_start_ops (i2c_addr lcd_hello_state)) lcd_hello_state s'.
Proof.
  eexists. split; [vm_compute; reflexivity|].
  apply (@lcd_init_hd44780_sequence (example_hal false) quiet_world true
           lcd_hello_state true).
  vm_compute; reflexivity.
Defined.

Lemma lcd_init_floating_bus_witness :
  exists s',
    @lcd_init (example_hal false) floating_bus_world reset_state = Done false s' /\
    log s' =
      @teardown_events (example_hal false) (regs reset_state I2C_CR1)
        (Z.lor (regs reset_state RCC_APB1ENR)
               (@RCC_APB1ENR_I2C2EN (example_hal false))) ++
      [ Ev_printk "I2C: Invalid bus\n" [];
        Ev_delay_us 10;
        Ev_gpio_configure_pin SDA GPI_pull_down;
        Ev_gpio_configure_pin SCL GPI_pull_down;
        Ev_delay_us 10;
        Ev_gpio_configure_pin SDA GPO_opendrain_2MHz_HIGH;
        Ev_gpio_configure_pin SCL GPO_opendrain_2MHz_HIGH;
        Ev_reg_write RCC_APB1ENR
          (Z.lor (regs reset_state RCC_APB1ENR)
                 (@RCC_APB1ENR_I2C2EN (example_hal false))) ] ++
      log reset_state /\
    @torn_down (example_hal false) s' /\ n_sr1 s' = n_sr1 reset_state /\
    i2c_addr s' = 0 /\ i2c_dead s' = i2c_dead reset_state /\
    text s' = text reset_state.
Proof.
  apply (@lcd_init_floating_bus (example_hal false) floating_bus_world reset_state);
    reflexivity.
Defined.
